(** * Quantile-mapping bias correction and Bayesian model averaging

    A shallow embedding of
    [python-backend/algorithms/scientific/bias_correction.py] and
    [python-backend/algorithms/scientific/bayesian_ensemble.py].

    The Python code computes on numpy [float64] arrays.  The embedding is
    written once over an interface of arithmetic operations ([Float64Ops]) and
    is read at two instances:
    - the real numbers, the exact arithmetic in which the algebraic properties
      of the algorithms are stated and proved;
    - IEEE 754 binary64 (the kernel's primitive floats), on which the code is
      evaluated where the outcome depends on what a division by zero returns
      or on rounding.

    Python exceptions are results [Raise e]; the attributes of an instance are
    the fields of a record that every method takes and returns. *)

From Stdlib Require Import String.
From Stdlib Require Import List Bool Arith ZArith Lia Sorted Permutation.
From Stdlib Require Floats Uint63.
From Stdlib Require Import Reals Lra Psatz.
Import ListNotations.

Set Implicit Arguments.

(** ** Python exceptions and results *)

Inductive exn : Type :=
| ValueError (msg : string)
| IndexError (msg : string)
| AttributeError (msg : string)
| UnboundLocalError (msg : string)
| RecursionError.

Inductive res (A : Type) : Type :=
| Ok (a : A)
| Raise (e : exn).

Arguments Ok {A} a.
Arguments Raise {A} e.

Definition bind {A B : Type} (r : res A) (k : A -> res B) : res B :=
  match r with
  | Ok a => k a
  | Raise e => Raise e
  end.

Declare Scope res_scope.
Delimit Scope res_scope with res.
Notation "x <- r ;; k" := (bind r (fun x => k))
  (at level 61, r at next level, right associativity) : res_scope.

(** ** Python dictionaries

    A [dict] keeps its keys in insertion order and [predict] below depends on
    that order, so a dictionary is an association list; [dict_set] is
    [d[k] = v]: it overwrites in place or appends. *)

Definition dict (V : Type) : Type := list (string * V).

Fixpoint dict_get {V : Type} (d : dict V) (k : string) : option V :=
  match d with
  | [] => None
  | (k', v) :: d' => if String.eqb k k' then Some v else dict_get d' k
  end.

Definition dict_mem {V : Type} (d : dict V) (k : string) : bool :=
  match dict_get d k with Some _ => true | None => false end.

Fixpoint dict_set {V : Type} (d : dict V) (k : string) (v : V) : dict V :=
  match d with
  | [] => [(k, v)]
  | (k', v') :: d' =>
      if String.eqb k k' then (k', v) :: d' else (k', v') :: dict_set d' k v
  end.

Definition dict_keys {V : Type} (d : dict V) : list string := map fst d.
Definition dict_values {V : Type} (d : dict V) : list V := map snd d.

(** [d.get(k, default)] *)
Definition dict_get_default {V : Type} (d : dict V) (k : string) (dflt : V) : V :=
  match dict_get d k with Some v => v | None => dflt end.

(** ** The arithmetic of [float64] *)

Class Float64Ops (F : Type) : Type := {
  of_Z : Z -> F;
  fadd : F -> F -> F;
  fsub : F -> F -> F;
  fmul : F -> F -> F;
  fdiv : F -> F -> F;
  fsqrt : F -> F;
  fabs : F -> F;
  fltb : F -> F -> bool;
  feqb : F -> F -> bool
}.

Arguments fltb : simpl never.
Arguments feqb : simpl never.

Declare Scope f64_scope.
Delimit Scope f64_scope with f64.
Infix "+" := fadd : f64_scope.
Infix "-" := fsub : f64_scope.
Infix "*" := fmul : f64_scope.
Infix "/" := fdiv : f64_scope.
Infix "<?" := fltb : f64_scope.
Infix "=?" := feqb : f64_scope.

(** [a > b] is [b < a]; [a != b] is the negation of [a == b]. *)
Definition fgtb {F : Type} `{Float64Ops F} (a b : F) : bool := fltb b a.
Definition fneb {F : Type} `{Float64Ops F} (a b : F) : bool := negb (feqb a b).

(** A decimal literal [p/q], such as [0.5] or [1e-10]: the correctly rounded
    quotient of two exactly representable integers. *)
Definition lit {F : Type} `{Float64Ops F} (p q : Z) : F := fdiv (of_Z p) (of_Z q).

Definition of_nat {F : Type} `{Float64Ops F} (n : nat) : F := of_Z (Z.of_nat n).

(** What the code takes from [scipy.stats]: the maximum-likelihood fit of a
    gamma distribution with location fixed at 0, its distribution and quantile
    functions, and the two numbers of the two-sample Kolmogorov-Smirnov test.
    They are external estimators; nothing is assumed about their values.
    The fit can fail: [stats.gamma.fit] raises (a [ValueError], for instance
    on constant or non-finite data) when it finds no parameters.  On an
    empty sample [stats.ks_2samp] depends on the version of scipy: recent
    versions return NaN for the two numbers, earlier ones raise
    [ValueError]; [ks_2samp_empty] is what it does. *)
Class SciPyStats (F : Type) : Type := {
  gamma_params : Type;
  gamma_fit : list F -> res gamma_params;
  gamma_cdf : gamma_params -> F -> F;
  gamma_ppf : gamma_params -> F -> F;
  ks_statistic : list F -> list F -> F;
  ks_pvalue : list F -> list F -> F;
  ks_2samp_empty : res (F * F)
}.

(** ** numpy on one-dimensional arrays *)

Section Numpy.
Context {F : Type} `{Float64Ops F}.
Local Open Scope f64_scope.

(** [np.sum] *)
Definition np_sum (a : list F) : F := fold_left fadd a (of_Z 0).

(** [np.mean]: the sum divided by the number of elements. *)
Definition np_mean (a : list F) : F := np_sum a / of_nat (length a).

(** [np.var(a, ddof=0)]: the mean of the squared deviations from the mean. *)
Definition np_var (a : list F) : F :=
  let m := np_mean a in
  np_mean (map (fun x => (x - m) * (x - m)) a).

(** [np.std] *)
Definition np_std (a : list F) : F := fsqrt (np_var a).

(** [a ** 2] *)
Definition np_square (a : list F) : list F := map (fun x => x * x) a.

(** [np.sort]: the array in ascending order. *)
Fixpoint sort_insert (x : F) (l : list F) : list F :=
  match l with
  | [] => [x]
  | y :: l' => if y <? x then y :: sort_insert x l' else x :: l
  end.

Definition np_sort (a : list F) : list F := fold_right sort_insert [] a.

(** [a - b] with numpy's broadcasting of one-dimensional arrays: equal
    lengths, or one of the two of length 1, and a [ValueError] otherwise. *)
Definition np_sub (a b : list F) : res (list F) :=
  if Nat.eqb (length a) (length b) then
    Ok (map (fun p => fst p - snd p) (combine a b))
  else
    match a, b with
    | [x], _ => Ok (map (fun y => x - y) b)
    | _, [y] => Ok (map (fun x => x - y) a)
    | _, _ => Raise (ValueError "operands could not be broadcast together")
    end.

(** [a[a > 0]] *)
Definition np_positive (a : list F) : list F :=
  filter (fun x => fgtb x (of_Z 0)) a.

(** [(np.arange(1, n + 1) - 0.5) / n] *)
Definition rank_quantiles (n : nat) : list F :=
  map (fun k => (of_nat k - lit 5 10) / of_nat n) (seq 1 n).

(** *** [scipy.interpolate.interp1d], linear, [bounds_error=False]

    The interpolant keeps its nodes and its two fill values.  The
    constructor refuses arrays of different lengths and empty arrays.  A
    call returns the lower fill value below the first node, the upper one
    above the last node, and between two nodes the value on the segment
    that joins them; at a node it returns the node's value. *)
Record Interp1d : Type := mkInterp1d {
  ip_x : list F;
  ip_y : list F;
  ip_below : F;
  ip_above : F
}.

Definition interp1d (x y : list F) (fill_value : F * F) : res Interp1d :=
  if negb (Nat.eqb (length x) (length y)) then
    Raise (ValueError "x and y arrays must be equal in length along interpolation axis.")
  else if Nat.eqb (length x) 0 then
    Raise (ValueError "x and y arrays must have at least 1 entries")
  else
    Ok (mkInterp1d x y (fst fill_value) (snd fill_value)).

Fixpoint interp_scan (x0 y0 : F) (nodes : list (F * F)) (q : F) : F :=
  match nodes with
  | [] => y0
  | (x1, y1) :: nodes' =>
      if q <? x1 then
        if x0 =? q then y0
        else (y1 - y0) / (x1 - x0) * (q - x0) + y0
      else interp_scan x1 y1 nodes' q
  end.

Definition interp1d_call (f : Interp1d) (q : F) : F :=
  match combine (ip_x f) (ip_y f) with
  | [] => ip_below f
  | (x0, y0) :: nodes =>
      if q <? x0 then ip_below f
      else if last (ip_x f) x0 <? q then ip_above f
      else interp_scan x0 y0 nodes q
  end.

End Numpy.

Arguments Interp1d F : clear implicits.

(** ** [class QuantileMappingCorrection] *)

Module QuantileMappingCorrection.

Section Corrector.
Context {F : Type} `{Float64Ops F} `{SciPyStats F}.
Local Open Scope f64_scope.
Local Open Scope string_scope.

(** The attributes of an instance.  An attribute that no method has
    assigned yet is [None]; reading it raises [AttributeError].
    ([model_cdf] and [obs_cdf] are set to [None] by [__init__] and never
    read or written again; they are left out.) *)
Record state : Type := mkState {
  method : string;
  fitted : bool;
  model_data : option (list F);
  obs_data : option (list F);
  quantiles : option (list F);
  model_to_quantile : option (Interp1d F);
  quantile_to_obs : option (Interp1d F);
  model_mean : option F;
  model_std : option F;
  obs_mean : option F;
  obs_std : option F;
  model_gamma : option gamma_params;
  obs_gamma : option gamma_params
}.

(** [__init__(self, method)] *)
Definition init (m : string) : state :=
  mkState m false None None None None None None None None None None None.

Definition set_method (s : state) (m : string) : state :=
  mkState m (fitted s) (model_data s) (obs_data s) (quantiles s)
    (model_to_quantile s) (quantile_to_obs s) (model_mean s) (model_std s)
    (obs_mean s) (obs_std s) (model_gamma s) (obs_gamma s).

Definition set_fitted (s : state) (b : bool) : state :=
  mkState (method s) b (model_data s) (obs_data s) (quantiles s)
    (model_to_quantile s) (quantile_to_obs s) (model_mean s) (model_std s)
    (obs_mean s) (obs_std s) (model_gamma s) (obs_gamma s).

Definition set_data (s : state) (md od : list F) : state :=
  mkState (method s) (fitted s) (Some md) (Some od) (quantiles s)
    (model_to_quantile s) (quantile_to_obs s) (model_mean s) (model_std s)
    (obs_mean s) (obs_std s) (model_gamma s) (obs_gamma s).

Definition set_quantiles (s : state) (q : list F) : state :=
  mkState (method s) (fitted s) (model_data s) (obs_data s) (Some q)
    (model_to_quantile s) (quantile_to_obs s) (model_mean s) (model_std s)
    (obs_mean s) (obs_std s) (model_gamma s) (obs_gamma s).

Definition set_model_to_quantile (s : state) (f : Interp1d F) : state :=
  mkState (method s) (fitted s) (model_data s) (obs_data s) (quantiles s)
    (Some f) (quantile_to_obs s) (model_mean s) (model_std s)
    (obs_mean s) (obs_std s) (model_gamma s) (obs_gamma s).

Definition set_quantile_to_obs (s : state) (f : Interp1d F) : state :=
  mkState (method s) (fitted s) (model_data s) (obs_data s) (quantiles s)
    (model_to_quantile s) (Some f) (model_mean s) (model_std s)
    (obs_mean s) (obs_std s) (model_gamma s) (obs_gamma s).

Definition set_normal (s : state) (mm ms om os : F) : state :=
  mkState (method s) (fitted s) (model_data s) (obs_data s) (quantiles s)
    (model_to_quantile s) (quantile_to_obs s) (Some mm) (Some ms)
    (Some om) (Some os) (model_gamma s) (obs_gamma s).

Definition set_model_gamma (s : state) (mg : gamma_params) : state :=
  mkState (method s) (fitted s) (model_data s) (obs_data s) (quantiles s)
    (model_to_quantile s) (quantile_to_obs s) (model_mean s) (model_std s)
    (obs_mean s) (obs_std s) (Some mg) (obs_gamma s).

Definition set_obs_gamma (s : state) (og : gamma_params) : state :=
  mkState (method s) (fitted s) (model_data s) (obs_data s) (quantiles s)
    (model_to_quantile s) (quantile_to_obs s) (model_mean s) (model_std s)
    (obs_mean s) (obs_std s) (model_gamma s) (Some og).

(** The empirical branch of [fit]: the rank quantiles of the sorted model
    data, the interpolant from model value to quantile with fill values
    [(0, 1)], and the interpolant from quantile to sorted observation with
    fill values [(obs_data[0], obs_data[-1])].  [sm] and [so] are
    [self.model_data] and [self.obs_data]. *)
Definition fit_empirical (self : state) (sm so : list F) : state * res unit :=
  let n := length sm in
  let qs := rank_quantiles n in
  let self := set_quantiles self qs in
  match interp1d sm qs (of_Z 0, of_Z 1) with
  | Raise e => (self, Raise e)
  | Ok m2q =>
      let self := set_model_to_quantile self m2q in
      match so with
      | [] => (self, Raise (IndexError "index 0 is out of bounds for axis 0 with size 0"))
      | o0 :: _ =>
          match interp1d qs so (o0, last so o0) with
          | Raise e => (self, Raise e)
          | Ok q2o => (set_fitted (set_quantile_to_obs self q2o) true, Ok tt)
          end
      end
  end.

(** [fit(self, model_data, obs_data)].  The gamma branch fits the model
    values first and stores the result, then the observations; an error of
    either fit leaves [fit] before [self.fitted = True].  With too few
    positive values it calls [self.fit] again after it has set
    [self.method] to ["empirical"]; [depth] bounds the nesting of calls. *)
Fixpoint fit_rec (depth : nat) (self : state) (md od : list F)
  : state * res unit :=
  let self := set_data self (np_sort md) (np_sort od) in
  if String.eqb (method self) "empirical" then
    fit_empirical self (np_sort md) (np_sort od)
  else if String.eqb (method self) "parametric_normal" then
    let self := set_normal self (np_mean md) (np_std md) (np_mean od) (np_std od) in
    (set_fitted self true, Ok tt)
  else if String.eqb (method self) "parametric_gamma" then
    let model_pos := np_positive md in
    let obs_pos := np_positive od in
    if Nat.ltb 2 (length model_pos) && Nat.ltb 2 (length obs_pos) then
      match gamma_fit model_pos with
      | Raise e => (self, Raise e)
      | Ok mg =>
          let self := set_model_gamma self mg in
          match gamma_fit obs_pos with
          | Raise e => (self, Raise e)
          | Ok og => (set_fitted (set_obs_gamma self og) true, Ok tt)
          end
      end
    else
      let self := set_method self "empirical" in
      match depth with
      | O => (self, Raise RecursionError)
      | S depth' => fit_rec depth' self md od
      end
  else
    (set_fitted self true, Ok tt).

(** One nested call is all the gamma branch can make: the nested call runs
    with [method = "empirical"] (see [fit_rec_depth] below). *)
Definition fit (self : state) (md od : list F) : state * res unit :=
  fit_rec 1 self md od.

Definition attr {A : Type} (name : string) (a : option A) : res A :=
  match a with
  | Some v => Ok v
  | None => Raise (AttributeError name)
  end.

(** [transform(self, model_values)] *)
Definition transform (self : state) (model_values : list F) : res (list F) :=
  if negb (fitted self) then Raise (ValueError "Must call fit() first")
  else if String.eqb (method self) "empirical" then
    (m2q <- attr "model_to_quantile" (model_to_quantile self) ;;
     let qs := map (interp1d_call m2q) model_values in
     q2o <- attr "quantile_to_obs" (quantile_to_obs self) ;;
     Ok (map (interp1d_call q2o) qs))%res
  else if String.eqb (method self) "parametric_normal" then
    (mm <- attr "model_mean" (model_mean self) ;;
     ms <- attr "model_std" (model_std self) ;;
     let z_scores := map (fun x => (x - mm) / ms) model_values in
     os <- attr "obs_std" (obs_std self) ;;
     om <- attr "obs_mean" (obs_mean self) ;;
     Ok (map (fun z => z * os + om) z_scores))%res
  else if String.eqb (method self) "parametric_gamma" then
    if existsb (fun x => fgtb x (of_Z 0)) model_values then
      (mg <- attr "model_gamma" (model_gamma self) ;;
       og <- attr "obs_gamma" (obs_gamma self) ;;
       Ok (map (fun x => if fgtb x (of_Z 0)
                         then gamma_ppf og (gamma_cdf mg x)
                         else of_Z 0) model_values))%res
    else Ok (map (fun _ => of_Z 0) model_values)
  else Raise (UnboundLocalError "corrected").

(** [scipy.stats.ks_2samp]: the two numbers of the test on two non-empty
    samples; on an empty sample, what the installed version does. *)
Definition ks_2samp (a b : list F) : res (F * F) :=
  match a, b with
  | [], _ | _, [] => ks_2samp_empty
  | _, _ => Ok (ks_statistic a b, ks_pvalue a b)
  end.

(** The dictionary that [compute_statistics] returns. *)
Record statistics : Type := mkStatistics {
  bias_before : F;
  bias_after : F;
  bias_reduction_percent : F;
  rmse_before : F;
  rmse_after : F;
  rmse_reduction_percent : F;
  variance_ratio_before : F;
  variance_ratio_after : F;
  variance_ratio_target : F;
  ks_before : F * F;
  ks_after : F * F
}.

(** [compute_statistics(self, model_data, obs_data, corrected_data)]; it
    reads no attribute of [self]. *)
Definition compute_statistics (md od cd : list F) : res statistics :=
  let bias_before := np_mean md - np_mean od in
  let bias_after := np_mean cd - np_mean od in
  (d_before <- np_sub md od ;;
   let rmse_before := fsqrt (np_mean (np_square d_before)) in
   d_after <- np_sub cd od ;;
   let rmse_after := fsqrt (np_mean (np_square d_after)) in
   let var_ratio_before := np_var md / np_var od in
   let var_ratio_after := np_var cd / np_var od in
   ks_b <- ks_2samp md od ;;
   ks_a <- ks_2samp cd od ;;
   Ok (mkStatistics
         bias_before bias_after
         (if fneb bias_before (of_Z 0)
          then (of_Z 1 - fabs bias_after / fabs bias_before) * of_Z 100
          else of_Z 100)
         rmse_before rmse_after
         (if fgtb rmse_before (of_Z 0)
          then (of_Z 1 - rmse_after / rmse_before) * of_Z 100
          else of_Z 0)
         var_ratio_before var_ratio_after (of_Z 1)
         ks_b ks_a))%res.

End Corrector.

Arguments state F {_}.
Arguments statistics F : clear implicits.

End QuantileMappingCorrection.

(** ** The two readings of [float64] *)

(** Exact arithmetic: the real numbers. *)
#[export] Instance R_ops : Float64Ops R := {
  of_Z := IZR;
  fadd := Rplus;
  fsub := Rminus;
  fmul := Rmult;
  fdiv := Rdiv;
  fsqrt := sqrt;
  fabs := Rabs;
  fltb := fun x y => if Rlt_dec x y then true else false;
  feqb := fun x y => if Req_dec_T x y then true else false
}.

(** IEEE 754 binary64: a division by zero returns an infinity or a NaN, as in
    numpy, and raises nothing. *)
Definition float_of_Z (z : Z) : PrimFloat.float :=
  match z with
  | Z0 => PrimFloat.of_uint63 (Uint63.of_Z 0)
  | Zpos _ => PrimFloat.of_uint63 (Uint63.of_Z z)
  | Zneg p => PrimFloat.opp (PrimFloat.of_uint63 (Uint63.of_Z (Zpos p)))
  end.

#[export] Instance binary64_ops : Float64Ops PrimFloat.float := {
  of_Z := float_of_Z;
  fadd := PrimFloat.add;
  fsub := PrimFloat.sub;
  fmul := PrimFloat.mul;
  fdiv := PrimFloat.div;
  fsqrt := PrimFloat.sqrt;
  fabs := PrimFloat.abs;
  fltb := PrimFloat.ltb;
  feqb := PrimFloat.eqb
}.

(** The binary64 array of the given integers. *)
Definition b64 (a : list Z) : list PrimFloat.float := map float_of_Z a.

(** [np.isfinite] *)
Definition is_finite (x : PrimFloat.float) : bool :=
  negb (PrimFloat.is_nan x) && negb (PrimFloat.is_infinity x).

(** An instance of the [scipy.stats] interface, so that the definitions can
    be evaluated on concrete inputs: the gamma parameters are estimated by
    the method of moments, which fails on data without spread; the
    distribution functions and the test numbers are placeholders; on an
    empty sample the test returns NaN twice.  Every theorem below that
    involves the interface is proved for all its instances. *)
Definition moments_stats (F : Type) `{Float64Ops F} : SciPyStats F := {|
  gamma_params := F * F;
  gamma_fit := fun a =>
    if feqb (np_var a) (of_Z 0)
    then Raise (ValueError "the data have no spread")
    else Ok (fdiv (fmul (np_mean a) (np_mean a)) (np_var a),
             fdiv (np_var a) (np_mean a));
  gamma_cdf := fun _ x => x;
  gamma_ppf := fun _ q => q;
  ks_statistic := fun _ _ => of_Z 0;
  ks_pvalue := fun _ _ => of_Z 1;
  ks_2samp_empty := Ok (fdiv (of_Z 0) (of_Z 0), fdiv (of_Z 0) (of_Z 0))
|}.

Arguments moments_stats F {_}.

(** ** [class BayesianModelAveraging], in exact arithmetic *)

Module BayesianModelAveraging.

Local Open Scope R_scope.
Local Open Scope string_scope.

Record state : Type := mkState {
  model_names : list string;
  n_models : nat;
  posterior_weights : option (dict R);
  model_variances : option (dict R)
}.

(** [__init__(self, model_names)] *)
Definition init (names : list string) : state :=
  mkState names (length names) None None.

Definition set_model_variances (s : state) (v : dict R) : state :=
  mkState (model_names s) (n_models s) (posterior_weights s) (Some v).

Definition set_posterior_weights (s : state) (w : dict R) : state :=
  mkState (model_names s) (n_models s) (Some w) (model_variances s).

(** [compute_log_likelihood(self, predictions, observations, variance)] *)
Definition compute_log_likelihood (predictions observations : list R)
           (variance : R) : res R :=
  let n := length observations in
  (residuals <- np_sub observations predictions ;;
   let rss := np_sum (np_square residuals) in
   Ok (- of_nat n / 2 * ln (2 * PI * variance) - rss / (2 * variance)))%res.

(** [estimate_variance(self, predictions, observations)] *)
Definition estimate_variance (predictions observations : list R) : res R :=
  (residuals <- np_sub observations predictions ;;
   Ok (np_var residuals + lit 1 10000000000))%res.

(** [scipy.special.logsumexp]: the maximum is taken out before the
    exponentials are summed.  On an empty array recent versions of scipy
    return [log 0] (earlier ones raise from [np.amax]); [compute_weights]
    never reads that value, since its loops then run over no name. *)
Definition logsumexp (a : list R) : res R :=
  match a with
  | [] => Ok (ln 0)
  | x :: a' =>
      let a_max := fold_left Rmax a' x in
      Ok (ln (np_sum (map (fun v => exp (v - a_max)) a)) + a_max)
  end.

(** The uniform prior [{name: 1.0 / self.n_models for name in self.model_names}]. *)
Definition uniform_prior (self : state) : dict R :=
  fold_left (fun d name => dict_set d name (1 / of_nat (n_models self)))
            (model_names self) [].

(** The first loop of [compute_weights]: the log-likelihood and the
    variance of every model of [self.model_names] that has predictions. *)
Definition likelihood_step (models_predictions : dict (list R))
           (observations : list R)
           (acc : res (dict R * dict R)) (name : string)
  : res (dict R * dict R) :=
  (st <- acc ;;
   let '(log_likelihoods, variances) := st in
   match dict_get models_predictions name with
   | None => Ok (log_likelihoods, variances)
   | Some preds =>
       var <- estimate_variance preds observations ;;
       let variances := dict_set variances name var in
       ll <- compute_log_likelihood preds observations var ;;
       Ok (dict_set log_likelihoods name ll, variances)
   end)%res.

(** [compute_weights(self, models_predictions, observations, prior_weights)] *)
Definition compute_weights (self : state)
           (models_predictions : dict (list R)) (observations : list R)
           (prior_weights : option (dict R)) : state * res (dict R) :=
  let prior_weights :=
    match prior_weights with
    | None => uniform_prior self
    | Some p => p
    end in
  match fold_left (likelihood_step models_predictions observations)
                  (model_names self) (Ok (([] : dict R), ([] : dict R))) with
  | Raise e => (self, Raise e)
  | Ok (log_likelihoods, variances) =>
      let self := set_model_variances self variances in
      let log_posteriors :=
        fold_left
          (fun d (kv : string * R) =>
             let log_prior :=
               ln (dict_get_default prior_weights (fst kv)
                                    (1 / of_nat (n_models self))) in
             dict_set d (fst kv) (log_prior + snd kv))
          log_likelihoods [] in
      match logsumexp (dict_values log_posteriors) with
      | Raise e => (self, Raise e)
      | Ok log_evidence =>
          let weights :=
            fold_left
              (fun d (kv : string * R) =>
                 dict_set d (fst kv) (exp (snd kv - log_evidence)))
              log_posteriors [] in
          (set_posterior_weights self weights, Ok weights)
      end
  end.

(** Element-wise operations on the rows of a two-dimensional array. *)
Definition vadd (a b : list R) : list R :=
  map (fun p => fst p + snd p) (combine a b).
Definition vsub (a b : list R) : list R :=
  map (fun p => fst p - snd p) (combine a b).
Definition vscale (w : R) (a : list R) : list R := map (Rmult w) a.
Definition zeros (n : nat) : list R := repeat 0 n.

(** [np.array(all_preds)] followed by [all_preds.shape[1]]: the rows must
    have one length, and with no row there is no second axis. *)
Definition np_array2 (rows : list (list R)) : res (list (list R)) :=
  match rows with
  | [] => Ok rows
  | r :: _ =>
      if forallb (fun r' => Nat.eqb (length r') (length r)) rows then Ok rows
      else Raise (ValueError "setting an array element with a sequence")
  end.

Definition shape1 (rows : list (list R)) : res nat :=
  match rows with
  | [] => Raise (IndexError "tuple index out of range")
  | r :: _ => Ok (length r)
  end.

(** [np.sum(weights[:, np.newaxis] * all_preds, axis=0)] *)
Definition weighted_sum (weights : list R) (rows : list (list R)) (n : nat)
  : list R :=
  fold_left (fun acc wr => vadd acc (vscale (fst wr) (snd wr)))
            (combine weights rows) (zeros n).

(** The body of the variance loop for the [i]-th key [name] of
    [models_predictions]. *)
Definition variance_step (self : state) (pw : dict R)
           (all_preds : list (list R)) (bma_mean : list R)
           (acc : res (list R * list R)) (entry : nat * string)
  : res (list R * list R) :=
  (st <- acc ;;
   let '(within_var, between_var) := st in
   let '(i, name) := entry in
   match dict_get pw name with
   | None => Ok (within_var, between_var)
   | Some w =>
       mv <- match model_variances self with
             | Some mv => Ok mv
             | None => Raise (AttributeError "get")
             end ;;
       let var := dict_get_default mv name 1 in
       let within_var := map (fun x => x + w * var) within_var in
       row <- match nth_error all_preds i with
              | Some row => Ok row
              | None => Raise (IndexError "index out of bounds for axis 0")
              end ;;
       let d := vsub row bma_mean in
       Ok (within_var, vadd between_var (vscale w (map (fun x => x * x) d)))
   end)%res.

(** The mean and the two variance terms that [predict] computes. *)
Definition predict_moments (self : state) (models_predictions : dict (list R))
  : res (list R * list R * list R) :=
  match posterior_weights self with
  | None => Raise (ValueError "Weights must be computed first")
  | Some pw =>
      let selected := filter (fun kv => dict_mem pw (fst kv)) models_predictions in
      let weights := map (fun kv => dict_get_default pw (fst kv) 0) selected in
      (all_preds <- np_array2 (map snd selected) ;;
       let n := match all_preds with [] => O | r :: _ => length r end in
       let bma_mean := weighted_sum weights all_preds n in
       cols <- shape1 all_preds ;;
       vars <- fold_left (variance_step self pw all_preds bma_mean)
                 (combine (seq 0 (length models_predictions))
                          (dict_keys models_predictions))
                 (Ok (zeros cols, zeros cols)) ;;
       Ok (bma_mean, fst vars, snd vars))%res
  end.

Record prediction : Type := mkPrediction {
  mean : list R;
  std : list R;
  lower_95 : list R;
  upper_95 : list R
}.

(** [predict(self, models_predictions)] *)
Definition predict (self : state) (models_predictions : dict (list R))
  : res prediction :=
  (m <- predict_moments self models_predictions ;;
   let '(bma_mean, within_var, between_var) := m in
   let bma_var := vadd within_var between_var in
   let bma_std := map sqrt bma_var in
   Ok (mkPrediction bma_mean bma_std
         (vsub bma_mean (vscale (lit 196 100) bma_std))
         (vadd bma_mean (vscale (lit 196 100) bma_std))))%res.

End BayesianModelAveraging.

(** ** [compute_weights] in any arithmetic

    The weights depend on the rounding of [np.log], [np.exp] and of the sums
    around them.  The methods that [compute_weights] runs are repeated here
    over any arithmetic, with the elementary functions of numpy as an
    interface: at the real numbers they are the definitions of
    [BayesianModelAveraging] above ([WeightAgreement.compute_weights_exact]
    below), and at binary64 they show what rounding does. *)
Class NumpyMath (F : Type) : Type := {
  np_log : F -> F;
  np_exp : F -> F;
  np_pi : F
}.

Module BayesianWeights.

Section Weights.
Context {F : Type} `{Float64Ops F} `{NumpyMath F}.
Local Open Scope f64_scope.
Local Open Scope string_scope.

Record state : Type := mkState {
  model_names : list string;
  n_models : nat;
  posterior_weights : option (dict F);
  model_variances : option (dict F)
}.

(** [__init__(self, model_names)] *)
Definition init (names : list string) : state :=
  mkState names (length names) None None.

Definition set_model_variances (s : state) (v : dict F) : state :=
  mkState (model_names s) (n_models s) (posterior_weights s) (Some v).

Definition set_posterior_weights (s : state) (w : dict F) : state :=
  mkState (model_names s) (n_models s) (Some w) (model_variances s).

(** [compute_log_likelihood(self, predictions, observations, variance)]:
    [-n/2 * np.log(2 * np.pi * variance) - rss / (2 * variance)], where
    [-n/2] is the quotient of the integers [-n] and [2]. *)
Definition compute_log_likelihood (predictions observations : list F)
           (variance : F) : res F :=
  let n := length observations in
  (residuals <- np_sub observations predictions ;;
   let rss := np_sum (np_square residuals) in
   Ok (of_Z (- Z.of_nat n) / of_Z 2 * np_log (of_Z 2 * np_pi * variance)
       - rss / (of_Z 2 * variance)))%res.

(** [estimate_variance(self, predictions, observations)] *)
Definition estimate_variance (predictions observations : list F) : res F :=
  (residuals <- np_sub observations predictions ;;
   Ok (np_var residuals + lit 1 10000000000))%res.

(** [np.maximum]: the greater of two numbers, and NaN when one is NaN. *)
Definition np_maximum (a b : F) : F :=
  if negb (feqb a a) then a
  else if negb (feqb b b) then b
  else if fltb a b then b else a.

(** [np.isfinite]: [x - x] is 0 unless [x] is an infinity or NaN. *)
Definition np_isfinite (x : F) : bool := feqb (x - x) (of_Z 0).

(** [scipy.special.logsumexp] of a list:
    [log(sum(exp(a - a_max))) + a_max], with [a_max] the maximum, or 0 when
    the maximum is not finite.  (Recent versions of scipy take the maximal
    elements out of the sum and add the logarithm of their number; on two
    equal numbers, as in the theorem on binary64 below, that is the same
    sum [log 2 + a_max].)  On an empty list the result is [log 0]. *)
Definition logsumexp (a : list F) : res F :=
  match a with
  | [] => Ok (np_log (of_Z 0))
  | x :: a' =>
      let a_max := fold_left np_maximum a' x in
      let a_max := if np_isfinite a_max then a_max else of_Z 0 in
      Ok (np_log (np_sum (map (fun v => np_exp (v - a_max)) a)) + a_max)
  end.

(** The uniform prior [{name: 1.0 / self.n_models for name in self.model_names}]. *)
Definition uniform_prior (self : state) : dict F :=
  fold_left (fun d name => dict_set d name (of_Z 1 / of_nat (n_models self)))
            (model_names self) [].

(** The first loop of [compute_weights]. *)
Definition likelihood_step (models_predictions : dict (list F))
           (observations : list F)
           (acc : res (dict F * dict F)) (name : string)
  : res (dict F * dict F) :=
  (st <- acc ;;
   let '(log_likelihoods, variances) := st in
   match dict_get models_predictions name with
   | None => Ok (log_likelihoods, variances)
   | Some preds =>
       var <- estimate_variance preds observations ;;
       let variances := dict_set variances name var in
       ll <- compute_log_likelihood preds observations var ;;
       Ok (dict_set log_likelihoods name ll, variances)
   end)%res.

(** [compute_weights(self, models_predictions, observations, prior_weights)] *)
Definition compute_weights (self : state)
           (models_predictions : dict (list F)) (observations : list F)
           (prior_weights : option (dict F)) : state * res (dict F) :=
  let prior_weights :=
    match prior_weights with
    | None => uniform_prior self
    | Some p => p
    end in
  match fold_left (likelihood_step models_predictions observations)
                  (model_names self) (Ok (([] : dict F), ([] : dict F))) with
  | Raise e => (self, Raise e)
  | Ok (log_likelihoods, variances) =>
      let self := set_model_variances self variances in
      let log_posteriors :=
        fold_left
          (fun d (kv : string * F) =>
             let log_prior :=
               np_log (dict_get_default prior_weights (fst kv)
                                        (of_Z 1 / of_nat (n_models self))) in
             dict_set d (fst kv) (log_prior + snd kv))
          log_likelihoods [] in
      match logsumexp (dict_values log_posteriors) with
      | Raise e => (self, Raise e)
      | Ok log_evidence =>
          let weights :=
            fold_left
              (fun d (kv : string * F) =>
                 dict_set d (fst kv) (np_exp (snd kv - log_evidence)))
              log_posteriors [] in
          (set_posterior_weights self weights, Ok weights)
      end
  end.

End Weights.

Arguments state F : clear implicits.

End BayesianWeights.

(** The elementary functions of the real numbers. *)
#[export] Instance R_math : NumpyMath R := {
  np_log := ln;
  np_exp := exp;
  np_pi := PI
}.

(** An instance of [BayesianWeights] at the real numbers, as an instance of
    [BayesianModelAveraging]. *)
Definition exact_state (s : BayesianWeights.state R) : BayesianModelAveraging.state :=
  BayesianModelAveraging.mkState
    (BayesianWeights.model_names s) (BayesianWeights.n_models s)
    (BayesianWeights.posterior_weights s) (BayesianWeights.model_variances s).

(** Binary64 with a logarithm and an exponential that are given: numpy
    takes them from the C library or from its own vector code, and their
    last bit can differ between platforms.  [np.pi] is the binary64 number
    nearest to pi. *)
Module Binary64Math.
Import PrimFloat.
Local Open Scope float_scope.

Definition pi64 : float := 0x1.921fb54442d18p+1.

Definition binary64_math (log_fn exp_fn : float -> float) : NumpyMath float := {|
  np_log := log_fn;
  np_exp := exp_fn;
  np_pi := pi64
|}.

(** A binary64 number and its two neighbours. *)
Definition neighbours (c : float) : list float := [next_down c; c; next_up c].

(** The arguments at which the example below calls the logarithm and the
    exponential, and the values that the C library returns there:
    [2 * np.pi * 1e-10] and its logarithm, [log 0.5], [log 2], and the
    difference [log_post - log_evidence] and its exponential. *)
Definition two_pi_var : float := 0x1.596bf8ce7631ep-31.
Definition log_two_pi_var : float := -0x1.5301f0e1c5e70p+4.
Definition log_half : float := -0x1.62e42fefa39efp-1.
Definition log_two : float := 0x1.62e42fefa39efp-1.
Definition log_weight : float := -0x1.62e4400000000p-1.
Definition exp_log_weight : float := 0x1.ffffefefa3df7p-2.

(** A logarithm and an exponential that take these values, and 0 elsewhere:
    enough of the two functions to evaluate the example. *)
Definition table_log (x : float) : float :=
  if eqb x two_pi_var then log_two_pi_var
  else if eqb x 0.5 then log_half
  else if eqb x 2 then log_two
  else 0.

Definition table_exp (x : float) : float :=
  if eqb x 0 then 1
  else if eqb x log_weight then exp_log_weight
  else 0.

End Binary64Math.

(** ** The variance decomposition, as the specification words it

    With [w_i] the posterior weight of model [i], [var_i] its stored variance
    and [pred_i] its prediction at a time step: the weighted mean is the sum
    of [w_i * pred_i], the within-model variance the sum of [w_i * var_i] and
    the between-model variance the sum of [w_i * (pred_i - weighted_mean)^2],
    over the entries of [models_predictions]. *)

Definition weight_of (pw : dict R) (kv : string * list R) : R :=
  dict_get_default pw (fst kv) 0%R.
Definition variance_of (mv : dict R) (kv : string * list R) : R :=
  dict_get_default mv (fst kv) 1%R.
Definition weighted_mean_at (pw : dict R) (mp : dict (list R)) (t : nat) : R :=
  np_sum (map (fun kv => (weight_of pw kv * nth t (snd kv) 0)%R) mp).
Definition within_variance (pw mv : dict R) (mp : dict (list R)) : R :=
  np_sum (map (fun kv => (weight_of pw kv * variance_of mv kv)%R) mp).
Definition between_variance_at (pw : dict R) (mp : dict (list R)) (t : nat) : R :=
  np_sum (map (fun kv => (weight_of pw kv
                          * ((nth t (snd kv) 0 - weighted_mean_at pw mp t)
                             * (nth t (snd kv) 0 - weighted_mean_at pw mp t)))%R)
              mp).

(** ** Exact arithmetic: the range of an array *)

(** [np.min] and [np.max] of a non-empty array. *)
Definition amin (a : list R) : R :=
  match a with
  | [] => 0%R
  | x :: a' => fold_left Rmin a' x
  end.

Definition amax (a : list R) : R :=
  match a with
  | [] => 0%R
  | x :: a' => fold_left Rmax a' x
  end.

(** ** The values that the loops of [compute_weights] store *)
Module AveragingValues.
Import BayesianModelAveraging.
Local Open Scope R_scope.
Local Open Scope string_scope.

(** The residuals, the variance and the log-likelihood of a prediction
    series as long as the observations. *)
Definition residuals_of (obs p : list R) : list R :=
  map (fun q => fst q - snd q) (combine obs p).
Definition variance_value (obs p : list R) : R :=
  np_var (residuals_of obs p) + lit 1 10000000000.
Definition loglik_value (obs p : list R) : R :=
  - of_nat (length obs) / 2 * ln (2 * PI * variance_value obs p)
  - np_sum (np_square (residuals_of obs p)) / (2 * variance_value obs p).

(** What the first loop of [compute_weights] has stored when it ends: the
    two dictionaries have the same keys in the same order, and the entry of
    a name is the value computed from that name's predictions. *)
Definition loop_invariant (preds : dict (list R)) (obs : list R)
           (ll vars : dict R) : Prop :=
  dict_keys ll = dict_keys vars /\
  (forall k l, dict_get ll k = Some l ->
     exists p, dict_get preds k = Some p /\ l = loglik_value obs p) /\
  (forall k v, dict_get vars k = Some v ->
     exists p, dict_get preds k = Some p /\ v = variance_value obs p).

(** The prior weight that [compute_weights] reads for a name. *)
Definition prior_of (self : state) (prior_weights : option (dict R))
           (name : string) : R :=
  dict_get_default
    match prior_weights with
    | Some p => p
    | None => uniform_prior self
    end name (1 / of_nat (n_models self)).

End AveragingValues.

(** ** [run_bma] *)
Module BayesianEnsemble.
Import BayesianModelAveraging.
Local Open Scope R_scope.
Local Open Scope string_scope.

(** The entries of [model_metrics] for one model. *)
Record model_metric : Type := mkModelMetric {
  mae : R;
  rmse : R;
  bias : R;
  variance : R
}.

(** The dictionary that [run_bma] returns.  (Its entries ["algorithm"],
    ["library"], ["reference"] and ["mathematical_formulation"] are string
    literals that depend on no input; they are left out.) *)
Record bma_result : Type := mkBmaResult {
  posterior_weights_out : dict R;
  prior_weights_out : dict R;
  model_metrics : dict model_metric;
  bma_prediction : prediction;
  bma_mae : R;
  bma_rmse : R;
  skill_improvement : R;
  n_models_out : nat;
  n_observations : nat
}.

(** One round of the loop that fills [model_metrics].  [model_names] is the
    list of the keys of [models_predictions] and [preds_arrays] has the same
    entries, so the loop over [model_names] that reads [preds_arrays[name]]
    runs over the entries of the dictionary. *)
Definition metrics_step (bma : state) (obs_array : list R)
           (acc : res (dict model_metric)) (entry : string * list R)
  : res (dict model_metric) :=
  (model_metrics <- acc ;;
   let '(name, preds) := entry in
   errors <- np_sub obs_array preds ;;
   mv <- match model_variances bma with
         | Some mv => Ok mv
         | None => Raise (AttributeError "get")
         end ;;
   Ok (dict_set model_metrics name
         (mkModelMetric (np_mean (map Rabs errors))
                        (sqrt (np_mean (np_square errors)))
                        (np_mean errors)
                        (dict_get_default mv name 0))))%res.

(** [run_bma(models_predictions, observations, prior_weights)].  The list
    [[model_metrics[m]["rmse"]**2 for m in model_names]] is read off the
    entries of [model_metrics], which the loop has filled in the order of
    [model_names]. *)
Definition run_bma (models_predictions : dict (list R)) (observations : list R)
           (prior_weights : option (dict R)) : res bma_result :=
  let model_names := dict_keys models_predictions in
  let bma := init model_names in
  let '(bma, weights) :=
    compute_weights bma models_predictions observations prior_weights in
  (weights <- weights ;;
   prediction <- predict bma models_predictions ;;
   model_metrics <- fold_left (metrics_step bma observations)
                      models_predictions (Ok ([] : dict model_metric)) ;;
   let bma_mean := mean prediction in
   bma_errors <- np_sub observations (firstn (length observations) bma_mean) ;;
   let squared_rmses := map (fun kv => rmse (snd kv) * rmse (snd kv)) model_metrics in
   Ok (mkBmaResult
         weights
         match prior_weights with
         | Some (_ :: _ as p) => p
         | _ => fold_left
                  (fun d name => dict_set d name (1 / of_nat (length model_names)))
                  model_names []
         end
         model_metrics
         prediction
         (np_mean (map Rabs bma_errors))
         (sqrt (np_mean (np_square bma_errors)))
         (1 - np_mean (np_square bma_errors) / np_mean squared_rmses)
         (length model_names)
         (length observations)))%res.
End BayesianEnsemble.

(** ** [run_correction]

    [np.percentile], [np.min] and [np.max] are library functions; their
    values on a non-empty array are kept abstract.  On an empty array
    [np.percentile] raises [IndexError], and [np.min] and [np.max] raise
    [ValueError]. *)
Class NumpyOrderStats (F : Type) : Type := {
  percentile : list F -> Z -> F;
  min_value : list F -> F;
  max_value : list F -> F
}.

Module BiasCorrection.
Import QuantileMappingCorrection.

Section RunCorrection.
Context {F : Type} `{Float64Ops F} `{SciPyStats F} `{NumpyOrderStats F}.
Local Open Scope string_scope.

Definition np_percentile (a : list F) (p : Z) : res F :=
  match a with
  | [] => Raise (IndexError "index -1 is out of bounds for axis 0 with size 0")
  | _ => Ok (percentile a p)
  end.

(** [[float(np.percentile(a, p)) for p in percentiles]] *)
Fixpoint np_percentiles (a : list F) (ps : list Z) : res (list F) :=
  match ps with
  | [] => Ok []
  | p :: ps' =>
      (v <- np_percentile a p ;;
       vs <- np_percentiles a ps' ;;
       Ok (v :: vs))%res
  end.

Definition np_min (a : list F) : res F :=
  match a with
  | [] => Raise (ValueError
            "zero-size array to reduction operation minimum which has no identity")
  | _ => Ok (min_value a)
  end.

Definition np_max (a : list F) : res F :=
  match a with
  | [] => Raise (ValueError
            "zero-size array to reduction operation maximum which has no identity")
  | _ => Ok (max_value a)
  end.

(** One entry of ["distribution_summary"]. *)
Record summary : Type := mkSummary {
  summary_mean : F;
  summary_std : F;
  summary_min : F;
  summary_max : F
}.

Definition summarize (a : list F) : res summary :=
  (lo <- np_min a ;;
   hi <- np_max a ;;
   Ok (mkSummary (np_mean a) (np_std a) lo hi))%res.

Record percentile_table : Type := mkPercentileTable {
  percentiles : list Z;
  percentiles_observations : list F;
  percentiles_model_raw : list F;
  percentiles_model_corrected : list F
}.

(** The dictionary that [run_correction] returns.  (Its entries
    ["algorithm"], ["library"], ["reference"] and
    ["mathematical_formulation"] are string literals that depend on no
    input; they are left out.) *)
Record correction_result : Type := mkCorrectionResult {
  method_out : string;
  corrected_values : list F;
  statistics_out : statistics F;
  percentile_comparison : percentile_table;
  summary_observations : summary;
  summary_model_raw : summary;
  summary_model_corrected : summary
}.

Definition method_map : dict string :=
  [("quantile", "empirical");
   ("linear", "parametric_normal");
   ("gamma", "parametric_gamma");
   ("empirical", "empirical")].

(** [run_correction(predictions, observations, method)] *)
Definition run_correction (predictions observations : list F) (method : string)
  : res correction_result :=
  let internal_method := dict_get_default method_map method "empirical" in
  let qm := init internal_method in
  let '(qm, fit_result) := fit qm predictions observations in
  (_ <- fit_result ;;
   corrected <- transform qm predictions ;;
   stats_dict <- compute_statistics predictions observations corrected ;;
   let ps := [10; 25; 50; 75; 90]%Z in
   p_obs <- np_percentiles observations ps ;;
   p_raw <- np_percentiles predictions ps ;;
   p_cor <- np_percentiles corrected ps ;;
   let percentile_comparison := mkPercentileTable ps p_obs p_raw p_cor in
   s_obs <- summarize observations ;;
   s_raw <- summarize predictions ;;
   s_cor <- summarize corrected ;;
   Ok (mkCorrectionResult method corrected stats_dict percentile_comparison
         s_obs s_raw s_cor))%res.

End RunCorrection.

Arguments summary F : clear implicits.
Arguments percentile_table F : clear implicits.
Arguments correction_result F : clear implicits.

End BiasCorrection.

(** An instance for evaluating examples in exact arithmetic: the least and
    the greatest element, and the percentile by the rule that takes the
    element of the sorted array at index [floor ((n - 1) * p / 100)]. *)
Definition sorted_stats : NumpyOrderStats R := {|
  percentile a p :=
    nth (Z.to_nat ((Z.of_nat (length a) - 1) * p / 100)) (np_sort a) 0%R;
  min_value := amin;
  max_value := amax
|}.

(** * Properties *)

(** ** Comparisons and sums of real numbers *)

Local Open Scope R_scope.

Lemma fltb_R_true (x y : R) : fltb x y = true <-> x < y.
Proof. unfold fltb, R_ops. destruct (Rlt_dec x y); split; intros; try easy; try discriminate. Qed.

Lemma fltb_R_false (x y : R) : fltb x y = false <-> y <= x.
Proof.
  unfold fltb, R_ops. destruct (Rlt_dec x y); split; intros; try easy; try lra.
Qed.

Lemma feqb_R_true (x y : R) : feqb x y = true <-> x = y.
Proof. unfold feqb, R_ops. destruct (Req_dec_T x y); split; intros; try easy; try discriminate. Qed.

Lemma feqb_R_false (x y : R) : feqb x y = false <-> x <> y.
Proof. unfold feqb, R_ops. destruct (Req_dec_T x y); split; intros; try easy; try discriminate. Qed.

Lemma of_nat_R (n : nat) : of_nat n = INR n.
Proof. unfold of_nat. cbn. symmetry. apply INR_IZR_INZ. Qed.

(** Decides the comparisons of concrete real numbers met while a definition
    is evaluated. *)
Ltac rdec :=
  unfold fltb, feqb, R_ops;
  repeat match goal with
         | |- context [Rlt_dec ?a ?b] => destruct (Rlt_dec a b); try lra
         | |- context [Req_dec_T ?a ?b] => destruct (Req_dec_T a b); try lra
         end.

Lemma fold_left_Rplus_acc (l : list R) (a : R) :
  fold_left Rplus l a = a + fold_left Rplus l 0.
Proof.
  revert a. induction l as [|x l IH]; intros a; simpl.
  - lra.
  - rewrite IH. rewrite (IH (0 + x)). lra.
Qed.

Lemma np_sum_nil : np_sum (@nil R) = 0.
Proof. reflexivity. Qed.

Lemma np_sum_cons (x : R) (l : list R) : np_sum (x :: l) = x + np_sum l.
Proof.
  unfold np_sum. cbn. rewrite fold_left_Rplus_acc. lra.
Qed.

Lemma np_sum_app (l1 l2 : list R) : np_sum (l1 ++ l2) = np_sum l1 + np_sum l2.
Proof.
  induction l1 as [|x l1 IH]; simpl.
  - rewrite np_sum_nil. lra.
  - rewrite !np_sum_cons, IH. lra.
Qed.

Lemma fold_left_Rmin_le (l : list R) (a : R) :
  fold_left Rmin l a <= a /\ forall x, In x l -> fold_left Rmin l a <= x.
Proof.
  revert a. induction l as [|y l IH]; intros a; simpl.
  - split; [lra | tauto].
  - destruct (IH (Rmin a y)) as [Ha Hl]. split.
    + pose proof (Rmin_l a y). lra.
    + intros x [<- | Hx]; [pose proof (Rmin_r a y); lra | auto].
Qed.

Lemma fold_left_Rmax_ge (l : list R) (a : R) :
  a <= fold_left Rmax l a /\ forall x, In x l -> x <= fold_left Rmax l a.
Proof.
  revert a. induction l as [|y l IH]; intros a; simpl.
  - split; [lra | tauto].
  - destruct (IH (Rmax a y)) as [Ha Hl]. split.
    + pose proof (Rmax_l a y). lra.
    + intros x [<- | Hx]; [pose proof (Rmax_r a y); lra | auto].
Qed.

Lemma amin_le (a : list R) (x : R) : In x a -> amin a <= x.
Proof.
  destruct a as [|y a]; simpl; [tauto|].
  destruct (fold_left_Rmin_le a y) as [Hy Ha].
  intros [<- | Hx]; auto.
Qed.

Lemma amax_ge (a : list R) (x : R) : In x a -> x <= amax a.
Proof.
  destruct a as [|y a]; simpl; [tauto|].
  destruct (fold_left_Rmax_ge a y) as [Hy Ha].
  intros [<- | Hx]; auto.
Qed.

Lemma fold_left_Rmin_In (l : list R) (a : R) : In (fold_left Rmin l a) (a :: l).
Proof.
  revert a. induction l as [|y l IH]; intros a; simpl.
  - left. reflexivity.
  - destruct (IH (Rmin a y)) as [E | Hin].
    + rewrite <- E. unfold Rmin. destruct (Rle_dec a y); auto.
    + right. right. exact Hin.
Qed.

Lemma fold_left_Rmax_In (l : list R) (a : R) : In (fold_left Rmax l a) (a :: l).
Proof.
  revert a. induction l as [|y l IH]; intros a; simpl.
  - left. reflexivity.
  - destruct (IH (Rmax a y)) as [E | Hin].
    + rewrite <- E. unfold Rmax. destruct (Rle_dec a y); auto.
    + right. right. exact Hin.
Qed.

(** [amin] and [amax] are the least and the greatest element. *)
Lemma amin_In (a : list R) : a <> [] -> In (amin a) a.
Proof.
  destruct a as [|x a]; [contradiction|]. intros _. apply fold_left_Rmin_In.
Qed.

Lemma amax_In (a : list R) : a <> [] -> In (amax a) a.
Proof.
  destruct a as [|x a]; [contradiction|]. intros _. apply fold_left_Rmax_In.
Qed.

Lemma last_nonempty_In {A : Type} (l : list A) (d : A) :
  l <> [] -> In (last l d) l.
Proof.
  induction l as [|a l IH]; intros Hne; [contradiction|].
  destruct l as [|b l].
  - left. reflexivity.
  - right. change (last (a :: b :: l) d) with (last (b :: l) d).
    apply IH. discriminate.
Qed.

Lemma last_cons_In {A : Type} (l : list A) (x : A) : In (last (x :: l) x) (x :: l).
Proof. apply last_nonempty_In. discriminate. Qed.

(** ** Sorting, for any arithmetic *)

Section SortFacts.
Context {F : Type} `{Float64Ops F}.

Lemma sort_insert_In (x y : F) (l : list F) :
  In y (sort_insert x l) <-> y = x \/ In y l.
Proof.
  induction l as [|z l IH]; simpl.
  - intuition.
  - destruct (fltb z x); simpl; rewrite ?IH; intuition.
Qed.

Lemma np_sort_In (y : F) (l : list F) : In y (np_sort l) <-> In y l.
Proof.
  induction l as [|x l IH]; simpl.
  - tauto.
  - rewrite sort_insert_In, IH. intuition.
Qed.

Lemma sort_insert_length (x : F) (l : list F) :
  length (sort_insert x l) = S (length l).
Proof.
  induction l as [|z l IH]; simpl; [reflexivity|].
  destruct (fltb z x); simpl; [rewrite IH|]; reflexivity.
Qed.

Lemma sort_insert_perm (x : F) (l : list F) : Permutation (x :: l) (sort_insert x l).
Proof.
  induction l as [|z l IH]; simpl; [apply Permutation_refl|].
  destruct (fltb z x); [|apply Permutation_refl].
  eapply perm_trans; [apply perm_swap|]. apply perm_skip. exact IH.
Qed.

(** [np.sort] rearranges its argument. *)
Lemma np_sort_perm (l : list F) : Permutation l (np_sort l).
Proof.
  induction l as [|x l IH]; simpl; [apply perm_nil|].
  eapply perm_trans; [apply perm_skip; exact IH|]. apply sort_insert_perm.
Qed.

Lemma np_sort_length (l : list F) : length (np_sort l) = length l.
Proof.
  induction l as [|x l IH]; simpl; [reflexivity|].
  rewrite sort_insert_length, IH. reflexivity.
Qed.

Lemma rank_quantiles_length (n : nat) : length (rank_quantiles (F:=F) n) = n.
Proof. unfold rank_quantiles. rewrite length_map, length_seq. reflexivity. Qed.

End SortFacts.

(** The sorted array is in ascending order (exact arithmetic). *)
Lemma sort_insert_sorted (x : R) (l : list R) :
  Sorted Rle l -> Sorted Rle (sort_insert x l).
Proof.
  induction l as [|y l IH]; intros Hs; simpl.
  - repeat constructor.
  - destruct (fltb y x) eqn:E.
    + apply fltb_R_true in E. inversion Hs as [|? ? Hs' Hhd]; subst.
      constructor; [auto|].
      destruct l as [|z l]; simpl.
      * constructor. lra.
      * destruct (fltb z x); constructor; [|lra].
        inversion Hhd; subst. assumption.
    + apply fltb_R_false in E. constructor; [assumption|]. constructor. exact E.
Qed.

Lemma np_sort_sorted (l : list R) : Sorted Rle (np_sort l).
Proof.
  induction l as [|x l IH]; simpl; [constructor|].
  apply sort_insert_sorted. exact IH.
Qed.

(** ** Linear interpolation stays between the values of its nodes *)

Lemma segment_between (x0 x1 y0 y1 q lo hi : R) :
  x0 < q -> q < x1 -> lo <= y0 <= hi -> lo <= y1 <= hi ->
  lo <= (y1 - y0) / (x1 - x0) * (q - x0) + y0 <= hi.
Proof.
  intros H0q Hq1 Hy0 Hy1.
  set (t := (q - x0) / (x1 - x0)).
  assert (Ht : 0 <= t <= 1).
  { assert (Hi : 0 < / (x1 - x0)) by (apply Rinv_0_lt_compat; lra).
    assert (Hr : (x1 - x0) * / (x1 - x0) = 1) by (apply Rinv_r; lra).
    unfold t, Rdiv. split; nra. }
  replace ((y1 - y0) / (x1 - x0) * (q - x0) + y0) with ((1 - t) * y0 + t * y1)
    by (unfold t; field; lra).
  nra.
Qed.

Lemma interp_scan_between (nodes : list (R * R)) (x0 y0 q lo hi : R) :
  x0 <= q -> lo <= y0 <= hi ->
  Forall (fun p => lo <= snd p <= hi) nodes ->
  lo <= interp_scan x0 y0 nodes q <= hi.
Proof.
  revert x0 y0. induction nodes as [|[x1 y1] nodes IH]; intros x0 y0 Hq Hy0 Hn; simpl.
  - exact Hy0.
  - inversion Hn as [|? ? Hy1 Hn']; subst. simpl in Hy1.
    destruct (fltb q x1) eqn:E1.
    + apply fltb_R_true in E1.
      destruct (feqb x0 q) eqn:E2; [exact Hy0|].
      apply feqb_R_false in E2.
      apply segment_between; lra.
    + apply fltb_R_false in E1. apply IH; assumption.
Qed.

Lemma interp1d_call_between (f : Interp1d R) (q lo hi : R) :
  lo <= ip_below f <= hi -> lo <= ip_above f <= hi ->
  Forall (fun y => lo <= y <= hi) (ip_y f) ->
  lo <= interp1d_call f q <= hi.
Proof.
  intros Hb Ha Hy. unfold interp1d_call.
  assert (Hc : Forall (fun p => lo <= snd p <= hi) (combine (ip_x f) (ip_y f))).
  { rewrite Forall_forall in *. intros [x y] Hin. simpl.
    apply Hy. eapply in_combine_r; eauto. }
  destruct (combine (ip_x f) (ip_y f)) as [|[x0 y0] nodes]; [exact Hb|].
  inversion Hc as [|? ? Hy0 Hn]; subst. simpl in Hy0.
  destruct (fltb q x0) eqn:E0; [exact Hb|].
  apply fltb_R_false in E0.
  destruct (fltb (last (ip_x f) x0) q); [exact Ha|].
  apply interp_scan_between; assumption.
Qed.

(** ** [fit] and [transform], for any arithmetic *)

Module QMFacts.
Import QuantileMappingCorrection.

Section AnyArithmetic.
Context {F : Type} `{Float64Ops F} `{SciPyStats F}.
Local Open Scope string_scope.

(** With [method = "empirical"], [fit] is the empirical branch on the two
    sorted series, whatever the depth. *)
Lemma fit_rec_empirical (d : nat) (self : state F) (md od : list F) :
  method self = "empirical" ->
  fit_rec d self md od =
  fit_empirical (set_data self (np_sort md) (np_sort od)) (np_sort md) (np_sort od).
Proof.
  intros Hm. destruct d; simpl; rewrite Hm; reflexivity.
Qed.

(** The nested call of the gamma branch never nests again: any depth of at
    least one gives the result of [fit]. *)
Lemma fit_rec_depth (d : nat) (self : state F) (md od : list F) :
  fit_rec (S d) self md od = fit self md od.
Proof.
  unfold fit. simpl.
  destruct (String.eqb (method self) "empirical"); [reflexivity|].
  destruct (String.eqb (method self) "parametric_normal"); [reflexivity|].
  destruct (String.eqb (method self) "parametric_gamma"); [|reflexivity].
  destruct (_ && _); [reflexivity|].
  rewrite !fit_rec_empirical by reflexivity. reflexivity.
Qed.

Lemma fit_empirical_method (self : state F) (sm so : list F) :
  method (fst (fit_empirical self sm so)) = method self.
Proof.
  unfold fit_empirical.
  destruct (interp1d sm _ _); [|reflexivity].
  destruct so as [|o0 so']; [reflexivity|].
  destruct (interp1d _ (o0 :: so') _); reflexivity.
Qed.

Lemma fit_empirical_gamma (self : state F) (sm so : list F) :
  model_gamma (fst (fit_empirical self sm so)) = model_gamma self /\
  obs_gamma (fst (fit_empirical self sm so)) = obs_gamma self.
Proof.
  unfold fit_empirical.
  destruct (interp1d sm _ _); [|split; reflexivity].
  destruct so as [|o0 so']; [split; reflexivity|].
  destruct (interp1d _ (o0 :: so') _); split; reflexivity.
Qed.

(** The empirical branch returns normally exactly on two non-empty series
    of one length, and then the instance is fitted and holds the two
    interpolants. *)
Lemma fit_empirical_returns (self : state F) (sm so : list F) :
  sm <> [] -> length sm = length so ->
  snd (fit_empirical self sm so) = Ok tt.
Proof.
  intros Hne Hlen. unfold fit_empirical, interp1d.
  rewrite !rank_quantiles_length, Nat.eqb_refl.
  rewrite <- Hlen, Nat.eqb_refl.
  destruct sm as [|x sm']; [contradiction|].
  destruct so as [|o0 so']; [discriminate|].
  reflexivity.
Qed.

Lemma fit_empirical_inv (self : state F) (sm so : list F) :
  snd (fit_empirical self sm so) = Ok tt ->
  sm <> [] /\ length sm = length so /\
  exists m2q o0,
    hd_error so = Some o0 /\
    fitted (fst (fit_empirical self sm so)) = true /\
    model_to_quantile (fst (fit_empirical self sm so)) = Some m2q /\
    quantile_to_obs (fst (fit_empirical self sm so)) =
      Some (mkInterp1d (rank_quantiles (length sm)) so o0 (last so o0)).
Proof.
  unfold fit_empirical, interp1d.
  rewrite !rank_quantiles_length, Nat.eqb_refl. simpl.
  destruct (Nat.eqb (length sm) 0) eqn:E0; [discriminate|].
  destruct so as [|o0 so']; [discriminate|].
  destruct (Nat.eqb (length sm) (length (o0 :: so'))) eqn:E1; [|discriminate].
  simpl. intros _.
  apply Nat.eqb_eq in E1. apply Nat.eqb_neq in E0.
  split; [destruct sm; [contradiction|discriminate]|].
  split; [exact E1|].
  eexists. exists o0. repeat split.
Qed.

(** The gamma branch with fewer than 3 positive values in a series is the
    empirical fit of the same two series. *)
Lemma fit_gamma_fallback (self : state F) (md od : list F) :
  method self = "parametric_gamma" ->
  (length (np_positive md) < 3 \/ length (np_positive od) < 3)%nat ->
  fit self md od = fit (set_method self "empirical") md od.
Proof.
  intros Hm Hfew. unfold fit at 1. simpl. rewrite Hm. simpl.
  assert (Hc : Nat.ltb 2 (length (np_positive md))
               && Nat.ltb 2 (length (np_positive od)) = false).
  { apply andb_false_iff.
    destruct Hfew as [Hf | Hf]; [left | right]; apply Nat.ltb_ge; lia. }
  rewrite Hc.
  unfold fit. rewrite fit_rec_empirical by reflexivity.
  destruct self; reflexivity.
Qed.

(** An empirical instance stays empirical under [fit]. *)
Lemma fit_keeps_empirical (self : state F) (md od : list F) :
  method self = "empirical" -> method (fst (fit self md od)) = "empirical".
Proof.
  intros Hm. unfold fit. rewrite fit_rec_empirical by exact Hm.
  rewrite fit_empirical_method. exact Hm.
Qed.

Lemma fits_keep_empirical (calls : list (list F * list F)) (self : state F) :
  method self = "empirical" ->
  method (fold_left (fun s c => fst (fit s (fst c) (snd c))) calls self)
  = "empirical".
Proof.
  revert self. induction calls as [|c calls IH]; intros self Hm; simpl.
  - exact Hm.
  - apply IH. apply fit_keeps_empirical. exact Hm.
Qed.

End AnyArithmetic.

(** ** The empirical transform in exact arithmetic *)

Section Exact.
Context `{SciPyStats R}.
Local Open Scope string_scope.

(** After an empirical fit that returned, [transform] returns on every
    input, one value per input value, each between any two bounds of the
    fitted observations. *)
Lemma transform_after_fit_empirical (self : state R) (sm so values : list R)
      (lo hi : R) :
  method self = "empirical" ->
  snd (fit_empirical self sm so) = Ok tt ->
  Forall (fun y => lo <= y <= hi) so ->
  exists vs,
    transform (fst (fit_empirical self sm so)) values = Ok vs /\
    length vs = length values /\
    Forall (fun v => lo <= v <= hi) vs.
Proof.
  intros Hm Hok Hso.
  destruct (fit_empirical_inv self sm so Hok)
    as (Hne & Hlen & m2q & o0 & Ho0 & Hfit & Hm2q & Hq2o).
  pose proof (fit_empirical_method self sm so) as Hmeth.
  unfold transform. rewrite Hfit, Hmeth, Hm, Hm2q, Hq2o. simpl.
  eexists. split; [reflexivity|]. split.
  - rewrite !length_map. reflexivity.
  - rewrite Forall_forall. intros v Hv.
    apply in_map_iff in Hv. destruct Hv as (q & <- & _).
    destruct so as [|o so']; [discriminate|]. injection Ho0 as ->.
    apply interp1d_call_between; simpl.
    + inversion Hso; subst. assumption.
    + rewrite Forall_forall in Hso. apply Hso.
      apply last_cons_In.
    + exact Hso.
Qed.

End Exact.

End QMFacts.

(** * The quantile-mapping corrector: specification *)

Module QuantileMappingSpec.
Import QuantileMappingCorrection QMFacts.

Local Open Scope string_scope.

Section Exact.
Context `{SciPyStats R}.

(** C3.  Empirical method, exact arithmetic.  A call of [fit] on two
    non-empty series of one length returns; and whenever [fit] has
    returned, [transform(model_data)] returns one value per element of
    [model_data], each inside [[min(obs_data), max(obs_data)]]. *)
Theorem empirical_transform_clamped (self : state R) (md od : list R) :
  method self = "empirical" ->
  (md <> [] -> length md = length od -> snd (fit self md od) = Ok tt) /\
  (snd (fit self md od) = Ok tt ->
   exists vs,
     transform (fst (fit self md od)) md = Ok vs /\
     length vs = length md /\
     Forall (fun v => amin od <= v <= amax od) vs).
Proof.
  intros Hm. unfold fit. rewrite fit_rec_empirical by exact Hm. split.
  - intros Hne Hlen. apply fit_empirical_returns.
    + intros E. apply Hne. apply length_zero_iff_nil.
      rewrite <- (np_sort_length md), E. reflexivity.
    + rewrite !np_sort_length. exact Hlen.
  - intros Hok.
    apply transform_after_fit_empirical; [exact Hm | exact Hok |].
    rewrite Forall_forall. intros y Hy.
    apply (proj1 (np_sort_In y od)) in Hy.
    split; [apply amin_le | apply amax_ge]; exact Hy.
Qed.

(** C6.  Gamma method with fewer than 3 positive values in a series,
    exact arithmetic.  [fit] is the empirical fit of the same, unfiltered
    series; it returns on two non-empty series of one length; and whenever
    it has returned, [transform(model_data)] returns values inside
    [[min(obs_data), max(obs_data)]]. *)
Theorem gamma_fallback_clamped (self : state R) (md od : list R) :
  method self = "parametric_gamma" ->
  (length (np_positive md) < 3 \/ length (np_positive od) < 3)%nat ->
  fit self md od = fit (set_method self "empirical") md od /\
  method (fst (fit self md od)) = "empirical" /\
  (md <> [] -> length md = length od -> snd (fit self md od) = Ok tt) /\
  (snd (fit self md od) = Ok tt ->
   exists vs,
     transform (fst (fit self md od)) md = Ok vs /\
     length vs = length md /\
     Forall (fun v => amin od <= v <= amax od) vs).
Proof.
  intros Hm Hfew.
  rewrite (fit_gamma_fallback self md od Hm Hfew).
  split; [reflexivity|].
  split; [apply fit_keeps_empirical; reflexivity|].
  unfold fit. rewrite fit_rec_empirical by reflexivity. split.
  - intros Hne Hlen. apply fit_empirical_returns.
    + intros E. apply Hne. apply length_zero_iff_nil.
      rewrite <- (np_sort_length md), E. reflexivity.
    + rewrite !np_sort_length. exact Hlen.
  - intros Hok.
    apply transform_after_fit_empirical; [reflexivity | exact Hok |].
    rewrite Forall_forall. intros y Hy.
    apply (proj1 (np_sort_In y od)) in Hy.
    split; [apply amin_le | apply amax_ge]; exact Hy.
Qed.

(** With [parametric_normal] fitted on one series as model and as
    observation, [transform] is the identity as soon as the standard
    deviation of the series is not zero. *)
Lemma standardize_rescale (x m s : R) : s <> 0 -> (x - m) / s * s + m = x.
Proof. intros Hs. field. exact Hs. Qed.

(** Parametric-normal method, exact arithmetic: fitted with [model_data]
    equal to [obs_data], a series whose standard deviation is not zero,
    [transform] returns its input unchanged.  (On a series without spread
    the division by the standard deviation is a division by zero: see
    [transform_normal_constant_series_nan].) *)
Theorem transform_normal_identity (self : state R) (data values : list R) :
  method self = "parametric_normal" ->
  np_std data <> 0 ->
  snd (fit self data data) = Ok tt /\
  transform (fst (fit self data data)) values = Ok values.
Proof.
  intros Hm Hstd. unfold fit. simpl. rewrite Hm. simpl.
  split; [reflexivity|].
  unfold transform. simpl. rewrite Hm. simpl.
  f_equal. rewrite map_map.
  rewrite <- (map_id values) at 2. apply map_ext.
  intros x. apply standardize_rescale. exact Hstd.
Qed.


End Exact.

Lemma empirical_transform_clamped_witness :
  exists vs,
    transform (H0 := moments_stats R)
      (fst (fit (init "empirical") [1; 2; 3; 4; 5] [2; 3; 4; 5; 6]))
      [1; 2; 3; 4; 5] = Ok vs /\
    length vs = 5%nat /\
    Forall (fun v => amin [2; 3; 4; 5; 6] <= v <= amax [2; 3; 4; 5; 6]) vs.
Proof.
  destruct (@empirical_transform_clamped (moments_stats R)
              (init "empirical") [1; 2; 3; 4; 5] [2; 3; 4; 5; 6] eq_refl)
    as [Hfit Hclamp].
  apply Hclamp. apply Hfit; [discriminate | reflexivity].
Defined.

Section AnyArithmetic.
Context {F : Type} `{Float64Ops F} `{SciPyStats F}.

(** With [method = "empirical"], [fit] returns exactly on two non-empty
    series of one length, and then the instance is fitted. *)
Lemma fit_empirical_characterised (self : state F) (md od : list F) :
  method self = "empirical" ->
  (snd (fit self md od) = Ok tt <-> md <> [] /\ length md = length od) /\
  (snd (fit self md od) = Ok tt -> fitted (fst (fit self md od)) = true).
Proof.
  intros Hm. unfold fit. rewrite fit_rec_empirical by exact Hm.
  set (s0 := set_data self (np_sort md) (np_sort od)).
  split; [split|].
  - intros Hret.
    destruct (fit_empirical_inv _ _ _ Hret) as (Hne & Hlen & _).
    rewrite !np_sort_length in Hlen. split; [|exact Hlen].
    intros ->. apply Hne. reflexivity.
  - intros [Hne Hlen]. apply fit_empirical_returns.
    + intros E. apply Hne. apply length_zero_iff_nil.
      rewrite <- (np_sort_length md), E. reflexivity.
    + rewrite !np_sort_length. exact Hlen.
  - intros Hret.
    destruct (fit_empirical_inv _ _ _ Hret) as (_ & _ & m2q & o0 & _ & Hf & _).
    exact Hf.
Qed.

(** C5, as the code has it.  [fit] checks neither the method name nor the
    number of points, and raises no [ConfigurationError].  With a method
    name that is none of the three it knows, it stores the two sorted
    series, marks the instance fitted and returns.  With
    [parametric_normal] it returns and marks the instance fitted on any two
    series.  With [empirical] it returns exactly when the two series are not
    empty and have one length, and then the instance is fitted.  With
    [parametric_gamma] and at least 3 positive values in each series, it
    returns and marks the instance fitted when [stats.gamma.fit] returns on
    both series of positive values, and raises the error of the first fit
    that fails, with [self.fitted] left as it was; with fewer positive
    values it behaves as with [empirical]. *)
Theorem fit_returns_and_marks_fitted (self : state F) (md od : list F) :
  (method self <> "empirical" -> method self <> "parametric_normal" ->
   method self <> "parametric_gamma" ->
   fit self md od
   = (set_fitted (set_data self (np_sort md) (np_sort od)) true, Ok tt)) /\
  (method self = "parametric_normal" ->
   snd (fit self md od) = Ok tt /\ fitted (fst (fit self md od)) = true) /\
  (method self = "empirical" ->
   (snd (fit self md od) = Ok tt <-> md <> [] /\ length md = length od) /\
   (snd (fit self md od) = Ok tt -> fitted (fst (fit self md od)) = true)) /\
  (method self = "parametric_gamma" ->
   (3 <= length (np_positive md))%nat -> (3 <= length (np_positive od))%nat ->
   (forall mg og,
      gamma_fit (np_positive md) = Ok mg -> gamma_fit (np_positive od) = Ok og ->
      snd (fit self md od) = Ok tt /\ fitted (fst (fit self md od)) = true) /\
   (forall e,
      gamma_fit (np_positive md) = Raise e ->
      snd (fit self md od) = Raise e /\
      fitted (fst (fit self md od)) = fitted self) /\
   (forall mg e,
      gamma_fit (np_positive md) = Ok mg -> gamma_fit (np_positive od) = Raise e ->
      snd (fit self md od) = Raise e /\
      fitted (fst (fit self md od)) = fitted self)) /\
  (method self = "parametric_gamma" ->
   (length (np_positive md) < 3 \/ length (np_positive od) < 3)%nat ->
   (snd (fit self md od) = Ok tt <-> md <> [] /\ length md = length od) /\
   (snd (fit self md od) = Ok tt -> fitted (fst (fit self md od)) = true)).
Proof.
  split; [|split; [|split; [|split]]].
  - intros H1 H2 H3. unfold fit. simpl.
    apply String.eqb_neq in H1, H2, H3. rewrite H1, H2, H3. reflexivity.
  - intros Hm. unfold fit. simpl. rewrite Hm. simpl. split; reflexivity.
  - apply fit_empirical_characterised.
  - intros Hm Hmp Hop.
    assert (Hc : Nat.ltb 2 (length (np_positive md))
                 && Nat.ltb 2 (length (np_positive od)) = true).
    { apply andb_true_iff. split; apply Nat.ltb_lt; lia. }
    unfold fit. cbn [fit_rec set_data method]. rewrite Hm.
    cbn [String.eqb Ascii.eqb Bool.eqb]. rewrite Hc.
    split; [|split].
    + intros mg og -> ->. split; reflexivity.
    + intros e ->. split; reflexivity.
    + intros mg e -> ->. split; reflexivity.
  - intros Hm Hfew. rewrite (fit_gamma_fallback self md od Hm Hfew).
    apply fit_empirical_characterised. reflexivity.
Qed.

(** C10.  Once the gamma branch has fallen back, [self.method] is
    ["empirical"] and stays so: after any number of further calls of [fit],
    a call of [fit] on any data, also data with enough positive values for
    a gamma fit, is the empirical branch. *)
Theorem gamma_fallback_is_permanent (self : state F) (md od : list F) :
  method self = "parametric_gamma" ->
  (length (np_positive md) < 3 \/ length (np_positive od) < 3)%nat ->
  method (fst (fit self md od)) = "empirical" /\
  forall (calls : list (list F * list F)) (md' od' : list F),
    let s := fold_left (fun s c => fst (fit s (fst c) (snd c))) calls
                       (fst (fit self md od)) in
    method s = "empirical" /\
    fit s md' od'
    = fit_empirical (set_data s (np_sort md') (np_sort od'))
                    (np_sort md') (np_sort od') /\
    method (fst (fit s md' od')) = "empirical" /\
    model_gamma (fst (fit s md' od')) = model_gamma s /\
    obs_gamma (fst (fit s md' od')) = obs_gamma s.
Proof.
  intros Hm Hfew.
  assert (Hm1 : method (fst (fit self md od)) = "empirical").
  { rewrite (fit_gamma_fallback self md od Hm Hfew).
    apply fit_keeps_empirical. reflexivity. }
  split; [exact Hm1|].
  intros calls md' od' s.
  assert (Hs : method s = "empirical") by (apply fits_keep_empirical; exact Hm1).
  split; [exact Hs|].
  assert (Hfit : fit s md' od'
                 = fit_empirical (set_data s (np_sort md') (np_sort od'))
                                 (np_sort md') (np_sort od')).
  { unfold fit. apply fit_rec_empirical. exact Hs. }
  split; [exact Hfit|].
  split; [apply fit_keeps_empirical; exact Hs|].
  rewrite Hfit.
  exact (fit_empirical_gamma (set_data s (np_sort md') (np_sort od')) _ _).
Qed.

End AnyArithmetic.

Lemma gamma_fallback_clamped_witness :
  method (fst (fit (H0 := moments_stats R) (init "parametric_gamma")
                   [-1; 0; 2; 3] [1; 2; 3; 4])) = "empirical" /\
  exists vs,
    transform (H0 := moments_stats R)
      (fst (fit (init "parametric_gamma") [-1; 0; 2; 3] [1; 2; 3; 4]))
      [-1; 0; 2; 3] = Ok vs /\
    length vs = 4%nat /\
    Forall (fun v => amin [1; 2; 3; 4] <= v <= amax [1; 2; 3; 4]) vs.
Proof.
  assert (Hfew : (length (np_positive [-1; 0; 2; 3]%R) < 3
                  \/ length (np_positive [1; 2; 3; 4]%R) < 3)%nat).
  { left. unfold np_positive, fgtb. simpl. rdec. simpl. lia. }
  destruct (@gamma_fallback_clamped (moments_stats R)
              (init "parametric_gamma") [-1; 0; 2; 3] [1; 2; 3; 4]
              eq_refl Hfew)
    as (_ & Hmeth & Hfit & Hclamp).
  split; [exact Hmeth|].
  apply Hclamp. apply Hfit; [discriminate | reflexivity].
Defined.

Lemma transform_normal_identity_witness :
  np_std [1; 3] <> 0 /\
  transform (H0 := moments_stats R)
    (fst (fit (init "parametric_normal") [1; 3] [1; 3])) [0; 2; 10]
  = Ok [0; 2; 10].
Proof.
  assert (Hstd : np_std [1; 3] <> 0).
  { unfold np_std, np_var, np_mean, np_sum, of_nat. simpl.
    match goal with
    | |- sqrt ?v <> 0 => replace v with 1 by field
    end.
    rewrite sqrt_1. lra. }
  split; [exact Hstd|].
  apply (@transform_normal_identity (moments_stats R)
           (init "parametric_normal") [1; 3] [0; 2; 10] eq_refl Hstd).
Defined.


(** C5: what the claim says fails on these two calls.  With the method name
    ["cubic"] and with one data point under [parametric_normal], [fit] raises
    nothing and marks the instance fitted. *)
Lemma fit_unsupported_method_returns :
  (snd (fit (H0 := moments_stats _) (init "cubic")
            (b64 [1; 2; 3]%Z) (b64 [2; 3; 4]%Z)) = Ok tt /\
   fitted (fst (fit (H0 := moments_stats _) (init "cubic")
                    (b64 [1; 2; 3]%Z) (b64 [2; 3; 4]%Z))) = true) /\
  (snd (fit (H0 := moments_stats _) (init "parametric_normal")
            (b64 [1]%Z) (b64 [2]%Z)) = Ok tt /\
   fitted (fst (fit (H0 := moments_stats _) (init "parametric_normal")
                    (b64 [1]%Z) (b64 [2]%Z))) = true).
Proof. repeat split. Qed.

Lemma fit_returns_and_marks_fitted_witness :
  (snd (fit (H0 := moments_stats _) (init "cubic")
            (b64 [1; 2; 3]%Z) (b64 [2; 3; 4]%Z)) = Ok tt) /\
  (fitted (fst (fit (H0 := moments_stats _) (init "parametric_normal")
                    (b64 [1]%Z) (b64 [2]%Z))) = true) /\
  (fitted (fst (fit (H0 := moments_stats _) (init "empirical")
                    (b64 [1]%Z) (b64 [2]%Z))) = true) /\
  (fitted (fst (fit (H0 := moments_stats _) (init "parametric_gamma")
                    (b64 [1; 2; 3]%Z) (b64 [2; 3; 4]%Z))) = true) /\
  (exists e,
     snd (fit (H0 := moments_stats _) (init "parametric_gamma")
              (b64 [1; 1; 1]%Z) (b64 [2; 3; 4]%Z)) = Raise e /\
     fitted (fst (fit (H0 := moments_stats _) (init "parametric_gamma")
                      (b64 [1; 1; 1]%Z) (b64 [2; 3; 4]%Z))) = false) /\
  (fitted (fst (fit (H0 := moments_stats _) (init "parametric_gamma")
                    (b64 [0; 0; 5]%Z) (b64 [2; 3; 4]%Z))) = true).
Proof.
  split; [|split; [|split; [|split; [|split]]]].
  - destruct (@fit_returns_and_marks_fitted _ _ (moments_stats _)
                (init "cubic") (b64 [1; 2; 3]%Z) (b64 [2; 3; 4]%Z))
      as (Hu & _).
    rewrite Hu; [reflexivity | discriminate | discriminate | discriminate].
  - destruct (@fit_returns_and_marks_fitted _ _ (moments_stats _)
                (init "parametric_normal") (b64 [1]%Z) (b64 [2]%Z))
      as (_ & Hn & _).
    apply Hn. reflexivity.
  - destruct (@fit_returns_and_marks_fitted _ _ (moments_stats _)
                (init "empirical") (b64 [1]%Z) (b64 [2]%Z))
      as (_ & _ & He & _).
    destruct (He eq_refl) as [Hiff Hf].
    apply Hf. apply Hiff. split; [discriminate | reflexivity].
  - destruct (@fit_returns_and_marks_fitted _ _ (moments_stats _)
                (init "parametric_gamma") (b64 [1; 2; 3]%Z) (b64 [2; 3; 4]%Z))
      as (_ & _ & _ & Hg & _).
    destruct (Hg eq_refl ltac:(vm_compute; lia) ltac:(vm_compute; lia))
      as (Hok & _).
    eapply Hok; vm_compute; reflexivity.
  - destruct (@fit_returns_and_marks_fitted _ _ (moments_stats _)
                (init "parametric_gamma") (b64 [1; 1; 1]%Z) (b64 [2; 3; 4]%Z))
      as (_ & _ & _ & Hg & _).
    destruct (Hg eq_refl ltac:(vm_compute; lia) ltac:(vm_compute; lia))
      as (_ & Hraise & _).
    eexists. apply Hraise. vm_compute. reflexivity.
  - destruct (@fit_returns_and_marks_fitted _ _ (moments_stats _)
                (init "parametric_gamma") (b64 [0; 0; 5]%Z) (b64 [2; 3; 4]%Z))
      as (_ & _ & _ & _ & Hf).
    destruct (Hf eq_refl ltac:(left; vm_compute; lia)) as [Hiff Hfit].
    apply Hfit. apply Hiff. split; [discriminate | reflexivity].
Defined.

Lemma gamma_fallback_is_permanent_witness :
  method (fst (fit (H0 := moments_stats _) (init "parametric_gamma")
                   (b64 [0; 0; 5]%Z) (b64 [1; 2; 3]%Z))) = "empirical" /\
  method (fst (fit (H0 := moments_stats _)
                   (fst (fit (init "parametric_gamma")
                             (b64 [0; 0; 5]%Z) (b64 [1; 2; 3]%Z)))
                   (b64 [1; 2; 3; 4]%Z) (b64 [2; 3; 4; 5]%Z))) = "empirical".
Proof.
  assert (Hfew : (length (np_positive (b64 [0; 0; 5]%Z)) < 3
                  \/ length (np_positive (b64 [1; 2; 3]%Z)) < 3)%nat).
  { left. vm_compute. lia. }
  destruct (@gamma_fallback_is_permanent _ _ (moments_stats _)
              (init "parametric_gamma") (b64 [0; 0; 5]%Z) (b64 [1; 2; 3]%Z)
              eq_refl Hfew) as (Hm & Hlater).
  split; [exact Hm|].
  destruct (Hlater [] (b64 [1; 2; 3; 4]%Z) (b64 [2; 3; 4; 5]%Z))
    as (_ & _ & Hm' & _).
  exact Hm'.
Defined.

(** C4.  Binary64.  [parametric_normal] fitted on the constant model series
    [[1, 1]] stores a model standard deviation of zero, and [transform] then
    divides by it: it returns a NaN and an infinity. *)
Theorem transform_normal_zero_std_not_finite :
  snd (fit (H0 := moments_stats _) (init "parametric_normal")
           (b64 [1; 1]%Z) (b64 [2; 3]%Z)) = Ok tt /\
  model_std (fst (fit (H0 := moments_stats _) (init "parametric_normal")
                      (b64 [1; 1]%Z) (b64 [2; 3]%Z)))
  = Some (float_of_Z 0) /\
  exists vs,
    transform (H0 := moments_stats _)
      (fst (fit (init "parametric_normal") (b64 [1; 1]%Z) (b64 [2; 3]%Z)))
      (b64 [1; 2]%Z) = Ok vs /\
    map PrimFloat.is_nan vs = [true; false] /\
    map PrimFloat.is_infinity vs = [false; true] /\
    map is_finite vs = [false; false].
Proof.
  split; [reflexivity|]. split; [vm_compute; reflexivity|].
  eexists. split; [vm_compute; reflexivity|].
  repeat split.
Qed.

(** C7.  Binary64.  [parametric_normal] fitted with
    [model_data = obs_data = [3, 3]] stores a model standard deviation of
    zero, and [transform([5])] divides by it: the result is a NaN, which is
    not 5.  The correction is not the identity on a series without spread. *)
Lemma transform_normal_constant_series_nan :
  snd (fit (H0 := moments_stats _) (init "parametric_normal")
           (b64 [3; 3]%Z) (b64 [3; 3]%Z)) = Ok tt /\
  model_std (fst (fit (H0 := moments_stats _) (init "parametric_normal")
                      (b64 [3; 3]%Z) (b64 [3; 3]%Z)))
  = Some (float_of_Z 0) /\
  exists v,
    transform (H0 := moments_stats _)
      (fst (fit (init "parametric_normal") (b64 [3; 3]%Z) (b64 [3; 3]%Z)))
      (b64 [5]%Z) = Ok [v] /\
    PrimFloat.is_nan v = true /\
    PrimFloat.eqb v (float_of_Z 5) = false.
Proof.
  split; [reflexivity|]. split; [vm_compute; reflexivity|].
  eexists. split; [vm_compute; reflexivity|].
  split; reflexivity.
Qed.

(** The concrete scenario of a pure shift by one, in binary64: the empirical
    correction of [[1, 2, 3, 4, 5]] against [[2, 3, 4, 5, 6]] is
    [[2, 3, 4, 5, 6]]. *)
Example transform_empirical_shift :
  transform (H0 := moments_stats _)
    (fst (fit (init "empirical") (b64 [1; 2; 3; 4; 5]%Z) (b64 [2; 3; 4; 5; 6]%Z)))
    (b64 [1; 2; 3; 4; 5]%Z)
  = Ok (b64 [2; 3; 4; 5; 6]%Z).
Proof. vm_compute. reflexivity. Qed.

End QuantileMappingSpec.

(** * Bayesian model averaging: specification *)

(** ** Dictionaries built by a loop of assignments *)

Section DictFacts.
Context {V : Type}.

Lemma dict_set_fresh (d : dict V) (k : string) (v : V) :
  ~ In k (dict_keys d) -> dict_set d k v = d ++ [(k, v)].
Proof.
  induction d as [|[k' v'] d IH]; intros Hk; simpl.
  - reflexivity.
  - destruct (String.eqb k k') eqn:E.
    + apply String.eqb_eq in E. subst. exfalso. apply Hk. left. reflexivity.
    + rewrite IH; [reflexivity|]. intros Hin. apply Hk. right. exact Hin.
Qed.

Lemma dict_set_keys (d : dict V) (k : string) (v : V) :
  dict_keys (dict_set d k v)
  = if dict_mem d k then dict_keys d else dict_keys d ++ [k].
Proof.
  unfold dict_mem.
  induction d as [|[k' v'] d IH]; simpl.
  - reflexivity.
  - destruct (String.eqb k k') eqn:E; simpl.
    + reflexivity.
    + rewrite IH. destruct (dict_get d k); reflexivity.
Qed.

Lemma dict_mem_keys (d : dict V) (k : string) :
  dict_mem d k = true <-> In k (dict_keys d).
Proof.
  unfold dict_mem.
  induction d as [|[k' v'] d IH]; simpl.
  - split; [discriminate | tauto].
  - destruct (String.eqb k k') eqn:E.
    + apply String.eqb_eq in E. subst. split; auto.
    + apply String.eqb_neq in E. rewrite IH. split; [auto|].
      intros [E' | Hin]; [congruence | exact Hin].
Qed.

Lemma dict_set_NoDup (d : dict V) (k : string) (v : V) :
  NoDup (dict_keys d) -> NoDup (dict_keys (dict_set d k v)).
Proof.
  intros Hnd. rewrite dict_set_keys.
  destruct (dict_mem d k) eqn:E; [exact Hnd|].
  apply NoDup_app; [exact Hnd | repeat constructor; simpl; tauto |].
  intros x Hx [<- | []].
  apply dict_mem_keys in Hx. congruence.
Qed.

(** A loop that assigns one entry per key of a dictionary builds the
    dictionary of the assigned values, in the same order. *)
Lemma fold_dict_set_app {A : Type} (f : string * A -> V) (d : dict A)
      (acc : dict V) :
  NoDup (dict_keys acc ++ dict_keys d) ->
  fold_left (fun a kv => dict_set a (fst kv) (f kv)) d acc
  = acc ++ map (fun kv => (fst kv, f kv)) d.
Proof.
  revert acc. induction d as [|[k a] d IH]; intros acc Hnd; simpl.
  - rewrite app_nil_r. reflexivity.
  - simpl in Hnd.
    assert (Hk : ~ In k (dict_keys acc)).
    { apply NoDup_remove_2 in Hnd. intros Hin. apply Hnd.
      apply in_or_app. left. exact Hin. }
    rewrite dict_set_fresh by exact Hk.
    rewrite IH.
    + rewrite <- app_assoc. reflexivity.
    + unfold dict_keys in *. rewrite map_app, <- app_assoc. exact Hnd.
Qed.

Lemma fold_dict_set_map {A : Type} (f : string * A -> V) (d : dict A) :
  NoDup (dict_keys d) ->
  fold_left (fun a kv => dict_set a (fst kv) (f kv)) d []
  = map (fun kv => (fst kv, f kv)) d.
Proof.
  intros Hnd. rewrite fold_dict_set_app; [reflexivity | exact Hnd].
Qed.

End DictFacts.

Lemma dict_keys_map {A B : Type} (f : string * A -> B) (d : dict A) :
  dict_keys (map (fun kv => (fst kv, f kv)) d) = dict_keys d.
Proof.
  unfold dict_keys. rewrite map_map. reflexivity.
Qed.

Lemma dict_values_map {A B : Type} (f : string * A -> B) (d : dict A) :
  dict_values (map (fun kv => (fst kv, f kv)) d) = map f d.
Proof.
  unfold dict_values. rewrite map_map. reflexivity.
Qed.

(** ** The loops of [compute_weights] *)

Module BMAFacts.
Import BayesianModelAveraging.

Local Open Scope string_scope.

Lemma np_sub_same_length (a b : list R) :
  length a = length b ->
  np_sub a b = Ok (map (fun p => fst p - snd p) (combine a b)).
Proof.
  intros Hlen. unfold np_sub. rewrite Hlen, Nat.eqb_refl. reflexivity.
Qed.

(** On predictions as long as the observations, one step of the likelihood
    loop returns; it assigns [name] in both dictionaries when [name] has
    predictions and changes nothing otherwise. *)
Lemma likelihood_step_ok (preds : dict (list R)) (obs : list R)
      (ll vars : dict R) (name : string) :
  (forall p, dict_get preds name = Some p -> length p = length obs) ->
  exists ll' vars',
    likelihood_step preds obs (Ok (ll, vars)) name = Ok (ll', vars') /\
    dict_keys ll' = (if dict_mem preds name
                     then dict_keys (dict_set ll name 0)
                     else dict_keys ll).
Proof.
  intros Hlen. unfold likelihood_step, dict_mem. simpl.
  destruct (dict_get preds name) as [p|] eqn:E.
  - specialize (Hlen p eq_refl).
    unfold estimate_variance, compute_log_likelihood.
    rewrite (np_sub_same_length obs p) by (symmetry; exact Hlen). simpl.
    do 2 eexists. split; [reflexivity|].
    rewrite !dict_set_keys. reflexivity.
  - do 2 eexists. split; reflexivity.
Qed.

Lemma likelihood_loop_ok (preds : dict (list R)) (obs : list R)
      (names : list string) (ll vars : dict R) :
  (forall name p, In name names -> dict_get preds name = Some p ->
                  length p = length obs) ->
  NoDup (dict_keys ll) ->
  exists ll' vars',
    fold_left (likelihood_step preds obs) names (Ok (ll, vars)) = Ok (ll', vars') /\
    NoDup (dict_keys ll') /\
    (forall k, In k (dict_keys ll') <->
               In k (dict_keys ll) \/ (In k names /\ dict_mem preds k = true)).
Proof.
  revert ll vars. induction names as [|name names IH]; intros ll vars Hlen Hnd;
    cbn [fold_left].
  - exists ll, vars. split; [reflexivity|]. split; [exact Hnd|].
    intros k. simpl. tauto.
  - destruct (likelihood_step_ok preds obs ll vars name) as (ll1 & vars1 & Hstep & Hkeys).
    { intros p Hp. apply (Hlen name p); [left; reflexivity | exact Hp]. }
    rewrite Hstep.
    assert (Hnd1 : NoDup (dict_keys ll1)).
    { rewrite Hkeys. destruct (dict_mem preds name); [|exact Hnd].
      apply dict_set_NoDup. exact Hnd. }
    destruct (IH ll1 vars1) as (ll' & vars' & Hfold & Hnd' & Hk').
    { intros n p Hn Hp. apply (Hlen n p); [right; exact Hn | exact Hp]. }
    { exact Hnd1. }
    exists ll', vars'. split; [exact Hfold|]. split; [exact Hnd'|].
    intros k. rewrite Hk', Hkeys.
    destruct (dict_mem preds name) eqn:Em.
    + rewrite dict_set_keys.
      destruct (dict_mem ll name) eqn:El.
      * apply dict_mem_keys in El.
        split.
        -- intros [Hin | [Hin Hp]]; [left; exact Hin | right; split; [right; exact Hin | exact Hp]].
        -- intros [Hin | [[<- | Hin] Hp]];
             [left; exact Hin | left; exact El | right; split; assumption].
      * rewrite in_app_iff. simpl. split.
        -- intros [[Hin | [<- | []]] | [Hin Hp]].
           ++ left; exact Hin.
           ++ right. split; [left; reflexivity | exact Em].
           ++ right. split; [right; exact Hin | exact Hp].
        -- intros [Hin | [[<- | Hin] Hp]].
           ++ left. left. exact Hin.
           ++ left. right. left. reflexivity.
           ++ right. split; assumption.
    + split.
      * intros [Hin | [Hin Hp]]; [left; exact Hin | right; split; [right; exact Hin | exact Hp]].
      * intros [Hin | [[<- | Hin] Hp]];
          [left; exact Hin | congruence | right; split; assumption].
Qed.

(** ** The variance that [estimate_variance] computes *)

Lemma sum_square_deviations (r : list R) (m : R) :
  np_sum (map (fun x => (x - m) * (x - m)) r)
  = np_sum (np_square r) - 2 * m * np_sum r + INR (length r) * (m * m).
Proof.
  induction r as [|x r IH].
  - simpl. rewrite !np_sum_nil. ring.
  - change (length (x :: r)) with (S (length r)). rewrite S_INR.
    unfold np_square in *. simpl map. rewrite !np_sum_cons, IH.
    cbn [fsub fmul R_ops]. ring.
Qed.

(** [np.var] is the mean of the squares minus the square of the mean: the
    variance of the residuals is their mean square only when their mean is
    zero. *)
Lemma np_var_mean_square (r : list R) :
  r <> [] ->
  np_var r = np_mean (np_square r) - np_mean r * np_mean r.
Proof.
  intros Hne. unfold np_var, np_mean.
  rewrite sum_square_deviations.
  unfold np_square. rewrite !length_map, of_nat_R.
  assert (Hn : INR (length r) <> 0).
  { apply not_0_INR. destruct r; [contradiction | discriminate]. }
  simpl. field. exact Hn.
Qed.

Lemma estimate_variance_value (predictions observations : list R) :
  length predictions = length observations ->
  observations <> [] ->
  exists residuals,
    np_sub observations predictions = Ok residuals /\
    estimate_variance predictions observations
    = Ok (np_mean (np_square residuals) - np_mean residuals * np_mean residuals
          + lit 1 10000000000).
Proof.
  intros Hlen Hne. unfold estimate_variance.
  rewrite np_sub_same_length by (symmetry; exact Hlen).
  eexists. split; [reflexivity|]. cbn [bind].
  rewrite np_var_mean_square; [reflexivity|].
  destruct observations as [|o obs]; [contradiction|].
  destruct predictions as [|p preds]; [discriminate|]. discriminate.
Qed.

(** ** Normalisation by the log-sum-exp *)

Lemma sum_exp_pos (l : list R) (m : R) :
  l <> [] -> 0 < np_sum (map (fun v => exp (v - m)) l).
Proof.
  induction l as [|x l IH]; intros Hne; [contradiction|].
  simpl. rewrite np_sum_cons.
  pose proof (exp_pos (x - m)) as Hx.
  destruct l as [|y l].
  - simpl. rewrite np_sum_nil. lra.
  - assert (0 < np_sum (map (fun v => exp (v - m)) (y :: l)))
      by (apply IH; discriminate).
    lra.
Qed.

Lemma sum_exp_shift (l : list R) (m s : R) :
  0 < s ->
  np_sum (map (fun v => exp (v - (ln s + m))) l)
  = np_sum (map (fun v => exp (v - m)) l) / s.
Proof.
  intros Hs. induction l as [|x l IH]; simpl.
  - rewrite np_sum_nil. field. lra.
  - rewrite !np_sum_cons, IH.
    replace (x - (ln s + m)) with ((x - m) + - ln s) by ring.
    rewrite exp_plus, exp_Ropp, exp_ln by exact Hs.
    field. lra.
Qed.

(** The weights that [logsumexp] normalises add up to one. *)
Lemma logsumexp_normalises (l : list R) :
  l <> [] ->
  exists le,
    logsumexp l = Ok le /\
    np_sum (map (fun v => exp (v - le)) l) = 1.
Proof.
  intros Hne. destruct l as [|x l]; [contradiction|].
  unfold logsumexp.
  set (m := fold_left Rmax l x).
  set (s := np_sum (map (fun v => exp (v - m)) (x :: l))).
  assert (Hs : 0 < s) by (apply sum_exp_pos; discriminate).
  exists (ln s + m). split; [reflexivity|].
  rewrite sum_exp_shift by exact Hs.
  fold s. field. lra.
Qed.

(** ** The loops of [predict] *)

Lemma vadd_length (a b : list R) : length a = length b -> length (vadd a b) = length a.
Proof.
  intros Hl. unfold vadd. rewrite length_map, length_combine, Hl. apply Nat.min_id.
Qed.

Lemma nth_vadd (a b : list R) (t : nat) :
  length a = length b -> nth t (vadd a b) 0 = nth t a 0 + nth t b 0.
Proof.
  revert b t. induction a as [|x a IH]; intros [|y b] t Hl; try discriminate.
  - destruct t; simpl; lra.
  - destruct t; simpl; [reflexivity|]. apply IH. simpl in Hl. lia.
Qed.

Lemma nth_vsub (a b : list R) (t : nat) :
  length a = length b -> nth t (vsub a b) 0 = nth t a 0 - nth t b 0.
Proof.
  revert b t. induction a as [|x a IH]; intros [|y b] t Hl; try discriminate.
  - destruct t; simpl; lra.
  - destruct t; simpl; [reflexivity|]. apply IH. simpl in Hl. lia.
Qed.

Lemma nth_vscale (w : R) (a : list R) (t : nat) :
  nth t (vscale w a) 0 = w * nth t a 0.
Proof.
  revert t. induction a as [|x a IH]; intros t.
  - destruct t; simpl; lra.
  - destruct t; simpl; [reflexivity|]. apply IH.
Qed.

Lemma nth_map_zero (f : R -> R) (a : list R) (t : nat) :
  f 0 = 0 -> nth t (map f a) 0 = f (nth t a 0).
Proof.
  intros Hf. rewrite <- Hf at 1. apply map_nth.
Qed.

Lemma nth_zeros (n t : nat) : nth t (zeros n) 0 = 0.
Proof.
  unfold zeros. revert t. induction n; intros [|t]; simpl; auto.
Qed.

Lemma nth_fold_add_const {A : Type} (c : A -> R) (l : list A) (acc : list R) (t : nat) :
  (t < length acc)%nat ->
  nth t (fold_left (fun a kv => map (fun x => x + c kv) a) l acc) 0
  = nth t acc 0 + np_sum (map c l).
Proof.
  revert acc. induction l as [|kv l IH]; intros acc Ht; simpl.
  - rewrite np_sum_nil. lra.
  - rewrite IH by (rewrite length_map; exact Ht).
    rewrite np_sum_cons.
    rewrite (nth_indep _ 0 (0 + c kv)) by (rewrite length_map; exact Ht).
    rewrite (map_nth (fun x => x + c kv)). simpl. lra.
Qed.

Lemma nth_fold_vadd {A : Type} (g : A -> list R) (l : list A) (acc : list R) (t : nat) :
  (forall kv, In kv l -> length (g kv) = length acc) ->
  nth t (fold_left (fun b kv => vadd b (g kv)) l acc) 0
  = nth t acc 0 + np_sum (map (fun kv => nth t (g kv) 0) l).
Proof.
  revert acc. induction l as [|kv l IH]; intros acc Hg; simpl.
  - rewrite np_sum_nil. lra.
  - assert (Hl : length acc = length (g kv)) by (symmetry; apply Hg; left; reflexivity).
    rewrite IH.
    + rewrite nth_vadd by exact Hl. rewrite np_sum_cons. lra.
    + intros kv' Hin. rewrite vadd_length by exact Hl. apply Hg. right. exact Hin.
Qed.

Lemma fold_vadd_length {A : Type} (g : A -> list R) (l : list A) (acc : list R) :
  (forall kv, In kv l -> length (g kv) = length acc) ->
  length (fold_left (fun b kv => vadd b (g kv)) l acc) = length acc.
Proof.
  revert acc. induction l as [|kv l IH]; intros acc Hg; simpl; [reflexivity|].
  assert (Hl : length acc = length (g kv)) by (symmetry; apply Hg; left; reflexivity).
  rewrite IH.
  - apply vadd_length. exact Hl.
  - intros kv' Hin. rewrite vadd_length by exact Hl. apply Hg. right. exact Hin.
Qed.

(** With a posterior weight for every key, the loop that reads row [i] for
    the [i]-th key reads the row of that key. *)
Lemma variance_loop_aligned (self : state) (pw mv : dict R) (bma_mean : list R)
      (suf pre : dict (list R)) (acc_w acc_b : list R) :
  model_variances self = Some mv ->
  (forall kv, In kv suf -> dict_mem pw (fst kv) = true) ->
  fold_left (variance_step self pw (map snd (pre ++ suf)) bma_mean)
            (combine (seq (length pre) (length suf)) (dict_keys suf))
            (Ok (acc_w, acc_b))
  = Ok (fold_left (fun a kv => map (fun x => x + weight_of pw kv * variance_of mv kv) a)
                  suf acc_w,
        fold_left (fun b kv =>
                     vadd b (vscale (weight_of pw kv)
                                    (map (fun x => x * x) (vsub (snd kv) bma_mean))))
                  suf acc_b).
Proof.
  intros Hmv. revert pre acc_w acc_b.
  induction suf as [|[k row] suf IH]; intros pre acc_w acc_b Hmem.
  - reflexivity.
  - cbn [length seq dict_keys map combine fold_left fst].
    assert (Hk : dict_mem pw k = true) by (apply (Hmem (k, row)); left; reflexivity).
    unfold variance_step at 2. cbn [bind].
    unfold dict_mem in Hk. unfold weight_of at 2 4, dict_get_default.
    cbn [fst snd].
    destruct (dict_get pw k) as [w|] eqn:Ew; [|discriminate].
    rewrite Hmv. cbn [bind].
    assert (Hnth : nth_error (map snd (pre ++ (k, row) :: suf)%list) (length pre)
                   = Some row).
    { rewrite map_app, nth_error_app2 by (rewrite length_map; lia).
      rewrite length_map, Nat.sub_diag. reflexivity. }
    rewrite Hnth. cbn [bind].
    specialize (IH (pre ++ [(k, row)])%list).
    rewrite length_app in IH. cbn [length] in IH.
    rewrite Nat.add_1_r in IH. rewrite <- app_assoc in IH. cbn [app] in IH.
    unfold dict_keys in IH.
    rewrite IH by (intros kv Hin; apply Hmem; right; exact Hin).
    reflexivity.
Qed.

Lemma filter_all {A : Type} (f : A -> bool) (l : list A) :
  (forall x, In x l -> f x = true) -> filter f l = l.
Proof.
  induction l as [|x l IH]; intros Hf; simpl; [reflexivity|].
  rewrite (Hf x) by (left; reflexivity).
  rewrite IH; [reflexivity|]. intros y Hy. apply Hf. right. exact Hy.
Qed.

Lemma fold_left_combine_map {A B C D : Type} (f : D -> B * C -> D)
      (g : A -> B) (h : A -> C) (l : list A) (acc : D) :
  fold_left f (combine (map g l) (map h l)) acc
  = fold_left (fun a x => f a (g x, h x)) l acc.
Proof.
  revert acc. induction l as [|x l IH]; intros acc; simpl; [reflexivity|].
  apply IH.
Qed.

Lemma zeros_length (n : nat) : length (zeros n) = n.
Proof. apply repeat_length. Qed.

Lemma predict_moments_aligned (self : state) (pw mv : dict R)
      (mp : dict (list R)) (T : nat) :
  posterior_weights self = Some pw ->
  model_variances self = Some mv ->
  mp <> [] ->
  (forall kv, In kv mp -> dict_mem pw (fst kv) = true /\ length (snd kv) = T) ->
  exists m w b,
    predict_moments self mp = Ok (m, w, b) /\
    length m = T /\ length w = T /\ length b = T /\
    forall t, (t < T)%nat ->
      nth t m 0 = weighted_mean_at pw mp t /\
      nth t w 0 = within_variance pw mv mp /\
      nth t b 0 = between_variance_at pw mp t.
Proof.
  intros Hpw Hmv Hne Hall.
  unfold predict_moments. rewrite Hpw.
  rewrite filter_all by (intros kv Hin; apply Hall; exact Hin).
  assert (Harr : np_array2 (map snd mp) = Ok (map snd mp)).
  { unfold np_array2. destruct mp as [|[k0 r0] mp']; [reflexivity|].
    cbn [map snd].
    replace (forallb _ _) with true; [reflexivity|].
    symmetry. apply forallb_forall. intros r Hr.
    change (r0 :: map snd mp') with (map snd ((k0, r0) :: mp')) in Hr.
    apply in_map_iff in Hr. destruct Hr as (kv & <- & Hin).
    apply Nat.eqb_eq.
    pose proof (proj2 (Hall (k0, r0) (or_introl eq_refl))) as H0.
    cbn [snd] in H0. rewrite H0. apply (proj2 (Hall kv Hin)). }
  rewrite Harr. cbn [bind].
  assert (HT : match map snd mp with [] => O | r :: _ => length r end = T).
  { destruct mp as [|[k0 r0] mp']; [contradiction|]. cbn [map snd].
    apply (proj2 (Hall (k0, r0) (or_introl eq_refl))). }
  rewrite HT.
  assert (Hsh : shape1 (map snd mp) = Ok T).
  { unfold shape1. destruct mp as [|[k0 r0] mp']; [contradiction|]. cbn [map snd].
    f_equal. apply (proj2 (Hall (k0, r0) (or_introl eq_refl))). }
  rewrite Hsh. cbn [bind].
  set (bma_mean := weighted_sum _ _ _).
  pose proof (@variance_loop_aligned self pw mv bma_mean mp [] (zeros T) (zeros T) Hmv
                (fun kv Hin => proj1 (Hall kv Hin))) as Hloop.
  cbn [app length] in Hloop. rewrite Hloop. cbn [bind fst snd].
  assert (Hmean : forall t, nth t bma_mean 0 = weighted_mean_at pw mp t).
  { intros t. unfold bma_mean, weighted_sum.
    rewrite (fold_left_combine_map
               (fun acc wr => vadd acc (vscale (fst wr) (snd wr)))
               (fun kv => dict_get_default pw (fst kv) 0) snd).
    cbn [fst snd].
    rewrite (nth_fold_vadd (fun kv => vscale (dict_get_default pw (fst kv) 0) (snd kv))).
    - rewrite nth_zeros. unfold weighted_mean_at, weight_of.
      rewrite Rplus_0_l. f_equal. apply map_ext. intros kv. apply nth_vscale.
    - intros kv Hin. unfold vscale. rewrite length_map, zeros_length.
      apply (proj2 (Hall kv Hin)). }
  assert (Hmlen : length bma_mean = T).
  { unfold bma_mean, weighted_sum.
    rewrite (fold_left_combine_map
               (fun acc wr => vadd acc (vscale (fst wr) (snd wr)))
               (fun kv => dict_get_default pw (fst kv) 0) snd).
    cbn [fst snd].
    rewrite (fold_vadd_length (fun kv => vscale (dict_get_default pw (fst kv) 0) (snd kv))).
    - apply zeros_length.
    - intros kv Hin. unfold vscale. rewrite length_map, zeros_length.
      apply (proj2 (Hall kv Hin)). }
  assert (Hglen : forall kv, In kv mp ->
             length (vscale (weight_of pw kv)
                            (map (fun x => x * x) (vsub (snd kv) bma_mean)))
             = length (zeros T)).
  { intros kv Hin. unfold vscale, vsub.
    rewrite !length_map, length_combine, Hmlen, (proj2 (Hall kv Hin)), zeros_length.
    apply Nat.min_id. }
  do 3 eexists. split; [reflexivity|].
  split; [exact Hmlen|]. split; [|split].
  - clear. generalize (zeros_length T). generalize (zeros T).
    induction mp as [|kv mp IH]; intros acc Hacc; simpl; [exact Hacc|].
    apply IH. rewrite length_map. exact Hacc.
  - rewrite fold_vadd_length by exact Hglen. apply zeros_length.
  - intros t Ht. split; [apply Hmean|]. split.
    + rewrite (nth_fold_add_const (fun kv => weight_of pw kv * variance_of mv kv))
        by (rewrite zeros_length; exact Ht).
      rewrite nth_zeros. unfold within_variance. lra.
    + rewrite (nth_fold_vadd
                 (fun kv => vscale (weight_of pw kv)
                                   (map (fun x => x * x) (vsub (snd kv) bma_mean))))
        by exact Hglen.
      rewrite nth_zeros, Rplus_0_l. unfold between_variance_at.
      f_equal. apply map_ext_in. intros kv Hin.
      rewrite nth_vscale, (nth_map_zero (fun x => x * x)) by ring.
      rewrite nth_vsub by (rewrite Hmlen; apply (proj2 (Hall kv Hin))).
      rewrite Hmean. reflexivity.
Qed.

End BMAFacts.

Module BayesianSpec.
Import BayesianModelAveraging BMAFacts.

Local Open Scope string_scope.

(** Exact arithmetic.  For non-empty observations, predictions as long as
    the observations, a prior with positive weights (or none) and at least
    one model of [self.model_names] with predictions, [compute_weights]
    returns the weights of exactly the models of [self.model_names] that have
    predictions, stores them, and they add up to 1.  (In binary64 the sum
    can miss 1 by more than 1e-9: see
    [BinaryWeightSpec.compute_weights_sum_off_by_rounding].) *)
Theorem compute_weights_sum_to_one (self : state) (models_predictions : dict (list R))
        (observations : list R) (prior_weights : option (dict R)) :
  observations <> [] ->
  (forall p, prior_weights = Some p ->
             forall name v, dict_get p name = Some v -> 0 < v) ->
  (forall name p, In name (model_names self) ->
                  dict_get models_predictions name = Some p ->
                  length p = length observations) ->
  (exists name, In name (model_names self) /\
                dict_mem models_predictions name = true) ->
  exists w,
    snd (compute_weights self models_predictions observations prior_weights) = Ok w /\
    posterior_weights
      (fst (compute_weights self models_predictions observations prior_weights))
    = Some w /\
    (forall name, dict_mem w name = true <->
                  In name (model_names self) /\
                  dict_mem models_predictions name = true) /\
    np_sum (dict_values w) = 1 /\
    Rabs (np_sum (dict_values w) - 1) <= 1 / 1000000000.
Proof.
  intros _ _ Hlen [name0 [Hin0 Hmem0]].
  destruct (likelihood_loop_ok models_predictions observations
              (model_names self) [] [] Hlen (NoDup_nil _))
    as (ll & vars & Hfold & Hnd & Hkeys).
  assert (Hne : ll <> []).
  { intros ->. destruct (Hkeys name0) as [_ Hk]. apply Hk. right. split; assumption. }
  assert (Hcw : exists w,
             compute_weights self models_predictions observations prior_weights
             = (set_posterior_weights (set_model_variances self vars) w, Ok w) /\
             dict_keys w = dict_keys ll /\
             np_sum (dict_values w) = 1).
  { unfold compute_weights. rewrite Hfold.
    rewrite (fold_dict_set_map _ ll Hnd).
    rewrite dict_values_map.
    match goal with
    | |- context [logsumexp (map ?f ll)] =>
        destruct (@logsumexp_normalises (map f ll)) as (le & Hle & Hsum)
    end.
    { destruct ll; [contradiction | discriminate]. }
    rewrite Hle.
    rewrite fold_dict_set_map by (rewrite dict_keys_map; exact Hnd).
    eexists. split; [reflexivity|]. split.
    - rewrite !dict_keys_map. reflexivity.
    - rewrite dict_values_map. rewrite map_map in Hsum |- *. exact Hsum. }
  destruct Hcw as (w & Hcw & Hwk & Hone).
  exists w. rewrite Hcw. simpl.
  split; [reflexivity|]. split; [reflexivity|]. split; [|split].
  - intros name. rewrite dict_mem_keys, Hwk, Hkeys. simpl. tauto.
  - exact Hone.
  - rewrite Hone. replace (1 - 1) with 0 by ring. rewrite Rabs_R0. lra.
Qed.

Lemma compute_weights_sum_to_one_witness :
  exists w,
    snd (compute_weights (init ["A"; "B"])
           [("A", [20; 21; 22]); ("B", [20; 21; 22])] [20; 21; 22] None) = Ok w /\
    np_sum (dict_values w) = 1.
Proof.
  destruct (@compute_weights_sum_to_one (init ["A"; "B"])
              [("A", [20; 21; 22]); ("B", [20; 21; 22])] [20; 21; 22] None)
    as (w & Hw & _ & _ & Hsum & _).
  - discriminate.
  - intros p Hp. discriminate Hp.
  - intros name p [<- | [<- | []]] Hget; simpl in Hget;
      injection Hget as <-; reflexivity.
  - exists "A". split; [left; reflexivity | reflexivity].
  - exists w. split; [exact Hw | exact Hsum].
Defined.

(** Evaluates [compute_weights] on concrete arrays of equal lengths. *)
Ltac eval_compute_weights :=
  unfold compute_weights; cbn [init model_names fold_left];
  repeat (unfold likelihood_step at 1;
          cbn [bind dict_get String.eqb Ascii.eqb Bool.eqb]);
  unfold estimate_variance, compute_log_likelihood;
  rewrite ?np_sub_same_length by reflexivity;
  cbn [bind dict_set combine map fst snd logsumexp dict_values fold_left
       model_variances posterior_weights set_model_variances
       set_posterior_weights String.eqb Ascii.eqb Bool.eqb].

(** C1.  Exact arithmetic, observations [[2, 2]] and predictions [[1, 1]] of
    one model.  The residuals are [[1, 1]]: the mean of their squares is 1,
    but the variance that [compute_weights] stores is [1e-10], the variance
    of the residuals about their own mean plus the constant. *)
Theorem stored_variance_is_centered :
  model_variances
    (fst (compute_weights (init ["A"]) [("A", [1; 1])] [2; 2] None))
  = Some [("A", lit 1 10000000000)] /\
  np_mean (np_square [2 - 1; 2 - 1]) + lit 1 10000000000
  = 1 + lit 1 10000000000 /\
  lit 1 10000000000 <> 1 + lit 1 10000000000.
Proof.
  split; [|split].
  - eval_compute_weights.
    f_equal. f_equal. f_equal.
    unfold np_var, np_mean, np_sum, of_nat, lit. simpl. field.
  - unfold np_mean, np_square, np_sum, of_nat, lit. simpl. field.
  - unfold lit. simpl. lra.
Qed.

(** C8.  One model ["A"] with weights computed.  [predict] on the
    dictionary with keys ["X"], ["A"] in this order raises [IndexError]: the
    row of ["A"] is row 0 of the stacked predictions and the loop reads row
    1.  With the keys in the order ["A"], ["X"] it returns. *)
Theorem predict_misaligned_rows :
  (exists w,
     posterior_weights
       (fst (compute_weights (init ["A"]) [("A", [1])] [1] None))
     = Some [("A", w)]) /\
  predict (fst (compute_weights (init ["A"]) [("A", [1])] [1] None))
          [("X", [5]); ("A", [1])]
  = Raise (IndexError "index out of bounds for axis 0") /\
  (exists r,
     predict (fst (compute_weights (init ["A"]) [("A", [1])] [1] None))
             [("A", [1]); ("X", [5])]
     = Ok r).
Proof.
  split; [|split].
  - eval_compute_weights. eexists. reflexivity.
  - eval_compute_weights. reflexivity.
  - eval_compute_weights. eexists. reflexivity.
Qed.

(** With a posterior weight for every key of [models_predictions] and rows
    of one length, [predict] returns, and at every time step the standard
    deviation is the square root of the within-model variance plus the
    between-model variance. *)
Theorem predict_aligned_decomposition (self : state) (pw mv : dict R)
      (mp : dict (list R)) (T : nat) :
  posterior_weights self = Some pw ->
  model_variances self = Some mv ->
  mp <> [] ->
  (forall kv, In kv mp -> dict_mem pw (fst kv) = true /\ length (snd kv) = T) ->
  exists p,
    predict self mp = Ok p /\
    length (mean p) = T /\ length (std p) = T /\
    forall t, (t < T)%nat ->
      nth t (mean p) 0 = weighted_mean_at pw mp t /\
      nth t (std p) 0
      = sqrt (within_variance pw mv mp + between_variance_at pw mp t).
Proof.
  intros Hpw Hmv Hne Hall.
  destruct (@predict_moments_aligned self pw mv mp T Hpw Hmv Hne Hall)
    as (m & w & b & Hmom & Hm & Hw & Hb & Hnth).
  unfold predict. rewrite Hmom. cbn [bind].
  eexists. split; [reflexivity|]. cbn [mean std].
  split; [exact Hm|]. split.
  - rewrite length_map, vadd_length by congruence. exact Hw.
  - intros t Ht. destruct (Hnth t Ht) as (Hmt & Hwt & Hbt).
    split; [exact Hmt|].
    rewrite (nth_map_zero sqrt) by apply sqrt_0.
    rewrite nth_vadd by congruence. rewrite Hwt, Hbt. reflexivity.
Qed.

(** The concrete scenario of two models that both predict the observations
    exactly: each gets the weight 1/2, the combined mean is the observations
    and the standard deviation is the square root of the constant [1e-10]. *)
Example compute_weights_two_exact_models :
  compute_weights (init ["A"; "B"])
    [("A", [20; 21; 22]); ("B", [20; 21; 22])] [20; 21; 22] None
  = (mkState ["A"; "B"] 2
       (Some [("A", 1 / 2); ("B", 1 / 2)])
       (Some [("A", lit 1 10000000000); ("B", lit 1 10000000000)]),
     Ok [("A", 1 / 2); ("B", 1 / 2)]).
Proof.
  eval_compute_weights.
  unfold uniform_prior, dict_get_default. cbn [init model_names n_models fold_left dict_set dict_get String.eqb Ascii.eqb Bool.eqb set_model_variances].
  match goal with |- context [Rmax ?a ?a] => set (L := a) end.
  assert (Hw : exp (L - (ln (np_sum [exp (L - Rmax L L); exp (L - Rmax L L)]) + Rmax L L)) = 1 / 2).
  { unfold Rmax. destruct (Rle_dec L L).
    all: replace (L - L) with 0 by ring; rewrite exp_0.
    all: unfold np_sum; simpl; replace (0 + 1 + 1) with 2 by ring.
    all: replace (L - (ln 2 + L)) with (- ln 2) by ring.
    all: rewrite exp_Ropp, exp_ln by lra; lra. }
  rewrite Hw.
  assert (Hv : np_var [20 - 20; 21 - 21; 22 - 22] + lit 1 10000000000 = lit 1 10000000000).
  { unfold np_var, np_mean, np_sum, of_nat, lit. simpl. field. }
  rewrite Hv. reflexivity.
Qed.

Example predict_two_exact_models : exists p,
  predict (fst (compute_weights (init ["A"; "B"])
    [("A", [20; 21; 22]); ("B", [20; 21; 22])] [20; 21; 22] None))
    [("A", [20; 21; 22]); ("B", [20; 21; 22])] = Ok p /\
  mean p = [20; 21; 22] /\
  std p = [sqrt (lit 1 10000000000); sqrt (lit 1 10000000000); sqrt (lit 1 10000000000)].
Proof.
  rewrite compute_weights_two_exact_models. cbn [fst]. unfold predict, predict_moments.
  cbn -[Rplus Rmult Rminus Rdiv sqrt lit].
  eexists. split; [reflexivity|]. cbn [mean std].
  split.
  - repeat (f_equal; try lra).
  - unfold lit. cbn [fdiv of_Z R_ops]. repeat (f_equal; try field).
Qed.

End BayesianSpec.

(** * [compute_weights] in any arithmetic, at the real numbers *)
Module WeightAgreement.
Import BayesianModelAveraging.
Local Open Scope string_scope.

Lemma estimate_variance_exact (p o : list R) :
  BayesianWeights.estimate_variance p o = estimate_variance p o.
Proof. reflexivity. Qed.

Lemma compute_log_likelihood_exact (p o : list R) (v : R) :
  BayesianWeights.compute_log_likelihood p o v = compute_log_likelihood p o v.
Proof.
  unfold BayesianWeights.compute_log_likelihood, compute_log_likelihood.
  destruct (np_sub o p) as [r|e]; [|reflexivity]. cbn [bind].
  f_equal. cbn [of_Z fdiv fmul fsub np_log np_pi R_ops R_math].
  rewrite opp_IZR. unfold of_nat. cbn [of_Z R_ops]. reflexivity.
Qed.

Lemma likelihood_step_exact (preds : dict (list R)) (obs : list R)
      (acc : res (dict R * dict R)) (name : string) :
  BayesianWeights.likelihood_step preds obs acc name
  = likelihood_step preds obs acc name.
Proof.
  unfold BayesianWeights.likelihood_step, likelihood_step.
  destruct acc as [[ll vars]|e]; [|reflexivity]. cbn [bind].
  destruct (dict_get preds name) as [p|]; [|reflexivity].
  rewrite estimate_variance_exact.
  destruct (estimate_variance p obs) as [v|e]; [|reflexivity]. cbn [bind].
  rewrite compute_log_likelihood_exact. reflexivity.
Qed.

Lemma likelihood_loop_exact (preds : dict (list R)) (obs : list R)
      (names : list string) (acc : res (dict R * dict R)) :
  fold_left (BayesianWeights.likelihood_step preds obs) names acc
  = fold_left (likelihood_step preds obs) names acc.
Proof.
  revert acc. induction names as [|n names IH]; intros acc; [reflexivity|].
  cbn [fold_left]. rewrite likelihood_step_exact. apply IH.
Qed.

Lemma np_maximum_exact (a b : R) : BayesianWeights.np_maximum a b = Rmax a b.
Proof.
  unfold BayesianWeights.np_maximum, Rmax, feqb, fltb. cbn [R_ops].
  destruct (Req_dec_T a a) as [_|Ha]; [|contradiction]. cbn [negb].
  destruct (Req_dec_T b b) as [_|Hb]; [|contradiction]. cbn [negb].
  destruct (Rlt_dec a b), (Rle_dec a b); try reflexivity; lra.
Qed.

Lemma fold_maximum_exact (l : list R) (x : R) :
  fold_left BayesianWeights.np_maximum l x = fold_left Rmax l x.
Proof.
  revert x. induction l as [|y l IH]; intros x; [reflexivity|].
  cbn [fold_left]. rewrite np_maximum_exact. apply IH.
Qed.

Lemma np_isfinite_exact (x : R) : BayesianWeights.np_isfinite x = true.
Proof.
  unfold BayesianWeights.np_isfinite, feqb. cbn [R_ops fsub of_Z].
  destruct (Req_dec_T (x - x) 0) as [_|Hx]; [reflexivity|].
  exfalso. apply Hx. ring.
Qed.

Lemma logsumexp_exact (a : list R) :
  BayesianWeights.logsumexp a = logsumexp a.
Proof.
  destruct a as [|x a]; [reflexivity|].
  unfold BayesianWeights.logsumexp, logsumexp.
  rewrite np_isfinite_exact, fold_maximum_exact. reflexivity.
Qed.

(** At the real numbers the two definitions of [compute_weights] are one
    function. *)
Lemma compute_weights_exact (self : BayesianWeights.state R)
      (preds : dict (list R)) (obs : list R) (prior : option (dict R)) :
  compute_weights (exact_state self) preds obs prior
  = (exact_state (fst (BayesianWeights.compute_weights self preds obs prior)),
     snd (BayesianWeights.compute_weights self preds obs prior)).
Proof.
  unfold BayesianWeights.compute_weights, compute_weights.
  rewrite likelihood_loop_exact.
  change (model_names (exact_state self)) with (BayesianWeights.model_names self).
  destruct (fold_left _ _ _) as [[ll vars]|e]; [|reflexivity].
  rewrite logsumexp_exact.
  match goal with
  | |- match logsumexp ?a with _ => _ end = (_, snd (match logsumexp ?b with _ => _ end)) =>
      change b with a
  end.
  destruct (logsumexp _) as [le|e]; reflexivity.
Qed.
End WeightAgreement.

(** * [compute_weights] in binary64 *)
Module BinaryWeightSpec.
Import BayesianWeights Binary64Math.
Local Open Scope string_scope.

Section Binary64.
Variables log_fn exp_fn : PrimFloat.float -> PrimFloat.float.

(** C2.  Binary64, two models with a constant error, [A] one degree above
    the observations [[20, 21, 22]] and [B] one degree below, uniform prior.
    Both residual series have no spread, so the stored variance is [1e-10]
    and both log-posteriors are about [-1.5e10], where binary64 numbers are
    [2^-19] apart.  [logsumexp] returns [log 2 + log_post] rounded to that
    grid, and each weight is the exponential of
    [log_post - log_evidence = -0.6931476593017578] where it should be that
    of [- log 2]: whenever the logarithm and the exponential of the platform
    are within one unit in the last place of the values of the C library at
    the arguments met (and [exp 0 = 1]), the two weights are equal and their
    sum misses 1 by more than [1e-9] (by about [4.8e-7]). *)
Theorem compute_weights_sum_off_by_rounding :
  In (log_fn two_pi_var) (neighbours log_two_pi_var) ->
  In (log_fn (lit 1 2)) (neighbours log_half) ->
  In (log_fn (of_Z 2)) (neighbours log_two) ->
  exp_fn (of_Z 0) = of_Z 1 ->
  In (exp_fn log_weight) (neighbours exp_log_weight) ->
  exists w,
    snd (compute_weights (H0 := binary64_math log_fn exp_fn) (init ["A"; "B"])
           [("A", b64 [21; 22; 23]%Z); ("B", b64 [19; 20; 21]%Z)]
           (b64 [20; 21; 22]%Z) None)
    = Ok [("A", w); ("B", w)] /\
    fltb (lit 1 1000000000) (fabs (fsub (np_sum [w; w]) (of_Z 1))) = true.
Proof.
  intros H1 H2 H3 H4 H5.
  vm_compute in H1, H2, H3, H4, H5.
  exists (exp_fn log_weight).
  destruct H1 as [H1 | [H1 | [H1 | []]]];
    destruct H2 as [H2 | [H2 | [H2 | []]]];
    destruct H3 as [H3 | [H3 | [H3 | []]]];
    destruct H5 as [H5 | [H5 | [H5 | []]]];
    do 6 (vm_compute; rewrite <- ?H1, <- ?H2, <- ?H3, ?H4, <- ?H5);
    split; reflexivity.
Qed.

End Binary64.

Lemma compute_weights_sum_off_by_rounding_witness :
  exists w,
    snd (compute_weights (H0 := binary64_math table_log table_exp) (init ["A"; "B"])
           [("A", b64 [21; 22; 23]%Z); ("B", b64 [19; 20; 21]%Z)]
           (b64 [20; 21; 22]%Z) None)
    = Ok [("A", w); ("B", w)] /\
    fltb (lit 1 1000000000) (fabs (fsub (np_sum [w; w]) (of_Z 1))) = true.
Proof.
  apply (compute_weights_sum_off_by_rounding table_log table_exp);
    vm_compute; tauto.
Defined.
End BinaryWeightSpec.

Module CorrectorProperties.
Import QuantileMappingCorrection QMFacts.
Local Open Scope string_scope.

Section AnyArithmetic.
Context {F : Type} `{Float64Ops F} `{SciPyStats F}.

(** X1.  Any arithmetic, any method.  When [transform] returns, the
    corrected array has as many entries as the input. *)
Theorem transform_length (self : state F) (values corrected : list F) :
  transform self values = Ok corrected ->
  length corrected = length values.
Proof.
  unfold transform.
  destruct (fitted self); [|discriminate]. cbn [negb].
  destruct (String.eqb (method self) "empirical").
  { destruct (model_to_quantile self); [|discriminate].
    destruct (quantile_to_obs self); [|discriminate].
    cbn [attr bind]. intros E. injection E as <-. rewrite !length_map. reflexivity. }
  destruct (String.eqb (method self) "parametric_normal").
  { destruct (model_mean self); [|discriminate].
    destruct (model_std self); [|discriminate].
    destruct (obs_std self); [|discriminate].
    destruct (obs_mean self); [|discriminate].
    cbn [attr bind]. intros E. injection E as <-. rewrite !length_map. reflexivity. }
  destruct (String.eqb (method self) "parametric_gamma"); [|discriminate].
  destruct (existsb _ values).
  - destruct (model_gamma self); [|discriminate].
    destruct (obs_gamma self); [|discriminate].
    cbn [attr bind]. intros E. injection E as <-. rewrite !length_map. reflexivity.
  - intros E. injection E as <-. rewrite !length_map. reflexivity.
Qed.

Lemma fit_empirical_fitted (self : state F) (sm so : list F) :
  (snd (fit_empirical self sm so) = Ok tt ->
   fitted (fst (fit_empirical self sm so)) = true) /\
  (forall e, snd (fit_empirical self sm so) = Raise e ->
             fitted (fst (fit_empirical self sm so)) = fitted self).
Proof.
  unfold fit_empirical.
  destruct (interp1d sm _ _).
  - destruct so as [|o0 so'].
    + split; [discriminate | reflexivity].
    + destruct (interp1d _ (o0 :: so') _); split;
        try reflexivity; try discriminate.
  - split; [discriminate | reflexivity].
Qed.

(** X2.  Any arithmetic.  [fit] sets [self.fitted] only when it returns:
    after a call that returned the corrector is fitted, and after a call that
    raised [self.fitted] is what it was, so that [transform] on a corrector
    that was never fitted still raises [ValueError("Must call fit() first")]. *)
Theorem fit_marks_fitted_only_on_return (self : state F) (md od values : list F) :
  (snd (fit self md od) = Ok tt -> fitted (fst (fit self md od)) = true) /\
  (forall e, snd (fit self md od) = Raise e ->
     fitted (fst (fit self md od)) = fitted self /\
     (fitted self = false ->
      transform (fst (fit self md od)) values
      = Raise (ValueError "Must call fit() first"))).
Proof.
  assert (Hmain :
    (snd (fit self md od) = Ok tt -> fitted (fst (fit self md od)) = true) /\
    (forall e, snd (fit self md od) = Raise e ->
               fitted (fst (fit self md od)) = fitted self)).
  { unfold fit. cbn [fit_rec].
    destruct (String.eqb (method (set_data self (np_sort md) (np_sort od))) "empirical").
    { apply (fit_empirical_fitted (set_data self (np_sort md) (np_sort od))). }
    destruct (String.eqb _ "parametric_normal").
    { split; [reflexivity | discriminate]. }
    destruct (String.eqb _ "parametric_gamma").
    - destruct (_ && _).
      + destruct (gamma_fit (np_positive md)) as [mg|e1];
          [|split; [discriminate | reflexivity]].
        destruct (gamma_fit (np_positive od)) as [og|e2];
          split; try reflexivity; discriminate.
      + cbn [set_data set_method method String.eqb Ascii.eqb Bool.eqb].
        match goal with
        | |- context [fit_empirical ?s ?a ?b] =>
            apply (fit_empirical_fitted s a b)
        end.
    - split; [reflexivity | discriminate]. }
  destruct Hmain as [Hok Hraise]. split; [exact Hok|].
  intros e He. split; [apply (Hraise e He)|].
  intros Hf. unfold transform. rewrite (Hraise e He), Hf. reflexivity.
Qed.


(** X3.  Any arithmetic.  With a method name that is none of ["empirical"],
    ["parametric_normal"] and ["parametric_gamma"], [fit] returns, and
    [transform] then reaches [return corrected] with [corrected] never
    assigned: it raises [UnboundLocalError]. *)
Theorem unsupported_method_transform_raises (self : state F) (md od values : list F) :
  method self <> "empirical" -> method self <> "parametric_normal" ->
  method self <> "parametric_gamma" ->
  snd (fit self md od) = Ok tt /\
  transform (fst (fit self md od)) values = Raise (UnboundLocalError "corrected").
Proof.
  intros H1 H2 H3. apply String.eqb_neq in H1, H2, H3.
  unfold fit. cbn [fit_rec set_data method]. rewrite H1, H2, H3.
  split; [reflexivity|].
  unfold transform. cbn [set_fitted set_data fitted method negb fst].
  rewrite H1, H2, H3. reflexivity.
Qed.

(** X4.  Any arithmetic, gamma method with at least 3 positive values in
    each series, on which [stats.gamma.fit] returns.  [fit] returns, and
    [transform] maps every value that is not positive to 0 and every
    positive value [x] to the quantile, under the gamma distribution fitted
    to the positive observations, of the probability of [x] under the one
    fitted to the positive model values. *)
Theorem transform_gamma_values (self : state F) (md od values : list F)
        (mg og : gamma_params) :
  method self = "parametric_gamma" ->
  (3 <= length (np_positive md))%nat -> (3 <= length (np_positive od))%nat ->
  gamma_fit (np_positive md) = Ok mg ->
  gamma_fit (np_positive od) = Ok og ->
  snd (fit self md od) = Ok tt /\
  transform (fst (fit self md od)) values
  = Ok (map (fun x => if fgtb x (of_Z 0)
                      then gamma_ppf og (gamma_cdf mg x)
                      else of_Z 0) values).
Proof.
  intros Hm Hmp Hop Hmg Hog. unfold fit. cbn [fit_rec set_data method]. rewrite Hm.
  cbn [String.eqb Ascii.eqb Bool.eqb].
  assert (Hc : Nat.ltb 2 (length (np_positive md))
               && Nat.ltb 2 (length (np_positive od)) = true).
  { apply andb_true_iff. split; apply Nat.ltb_lt; lia. }
  rewrite Hc, Hmg, Hog. split; [reflexivity|].
  unfold transform.
  cbn [set_fitted set_model_gamma set_obs_gamma set_data fitted method negb
       model_gamma obs_gamma fst].
  rewrite Hm. cbn [String.eqb Ascii.eqb Bool.eqb attr bind].
  destruct (existsb (fun x => fgtb x (of_Z 0)) values) eqn:E; [reflexivity|].
  f_equal. apply map_ext_in. intros x Hx.
  destruct (fgtb x (of_Z 0)) eqn:Ex; [|reflexivity].
  assert (Hex : existsb (fun x => fgtb x (of_Z 0)) values = true).
  { apply existsb_exists. exists x. split; assumption. }
  congruence.
Qed.

(** X5.  Any arithmetic, empirical method.  [fit] raises [ValueError] on an
    empty model series, [IndexError] on a non-empty model series with an
    empty observation series, and [ValueError] on two non-empty series of
    different lengths. *)
Theorem fit_empirical_raises (self : state F) (md od : list F) :
  method self = "empirical" ->
  (md = [] -> exists msg, snd (fit self md od) = Raise (ValueError msg)) /\
  (md <> [] -> od = [] -> exists msg, snd (fit self md od) = Raise (IndexError msg)) /\
  (md <> [] -> od <> [] -> length md <> length od ->
   exists msg, snd (fit self md od) = Raise (ValueError msg)).
Proof.
  intros Hm. unfold fit. rewrite fit_rec_empirical by exact Hm.
  unfold fit_empirical, interp1d.
  rewrite !rank_quantiles_length, Nat.eqb_refl, !np_sort_length. cbn [negb].
  split; [|split].
  - intros ->. cbn. eexists. reflexivity.
  - intros Hne ->.
    assert (Hz : Nat.eqb (length md) 0 = false).
    { apply Nat.eqb_neq. destruct md; [contradiction | discriminate]. }
    rewrite Hz. cbn [np_sort fold_right]. eexists. reflexivity.
  - intros Hne Hno Hlen.
    assert (Hz : Nat.eqb (length md) 0 = false).
    { apply Nat.eqb_neq. destruct md; [contradiction | discriminate]. }
    rewrite Hz. apply Nat.eqb_neq in Hlen. rewrite Hlen. cbn [negb].
    destruct (np_sort od) as [|o0 so'] eqn:Eso.
    + exfalso. apply Hno. apply length_zero_iff_nil.
      rewrite <- (np_sort_length od), Eso. reflexivity.
    + eexists. reflexivity.
Qed.

End AnyArithmetic.

Section Exact.
Context `{SciPyStats R}.




End Exact.

Section AnyArithmetic2.
Context {F : Type} `{Float64Ops F} `{SciPyStats F}.

(** [a - b] returns or raises [ValueError]. *)
Lemma np_sub_cases (a b : list F) :
  (exists d, np_sub a b = Ok d) \/
  (exists msg, np_sub a b = Raise (ValueError msg)).
Proof.
  unfold np_sub. destruct (Nat.eqb (length a) (length b)).
  - left. eexists. reflexivity.
  - destruct a as [|x [|x' a]]; destruct b as [|y [|y' b]];
      try (left; eexists; reflexivity); right; eexists; reflexivity.
Qed.

(** Two arrays of different lengths, neither of length 1, cannot be
    subtracted. *)
Lemma np_sub_mismatch (a b : list F) :
  length a <> length b -> length a <> 1%nat -> length b <> 1%nat ->
  np_sub a b = Raise (ValueError "operands could not be broadcast together").
Proof.
  intros Hl Ha Hb. unfold np_sub.
  apply Nat.eqb_neq in Hl. rewrite Hl.
  destruct a as [|x [|x' a]]; destruct b as [|y [|y' b]];
    try reflexivity; simpl in Ha, Hb; congruence.
Qed.

(** X7.  Any arithmetic.  [compute_statistics] raises [ValueError] when the
    model data and the observations, or the corrected data and the
    observations, have lengths that numpy cannot broadcast: different, and
    neither of them 1. *)
Theorem compute_statistics_length_mismatch (md od cd : list F) :
  (length md <> length od /\ length md <> 1%nat /\ length od <> 1%nat) \/
  (length cd <> length od /\ length cd <> 1%nat /\ length od <> 1%nat) ->
  exists msg, compute_statistics md od cd = Raise (ValueError msg).
Proof.
  intros Hmis. unfold compute_statistics.
  destruct Hmis as [(Hl & Ha & Hb) | (Hl & Ha & Hb)].
  - rewrite (np_sub_mismatch md od Hl Ha Hb). eexists. reflexivity.
  - destruct (np_sub_cases md od) as [[db ->] | [msg ->]];
      [|exists msg; reflexivity].
    cbn [bind]. rewrite (np_sub_mismatch cd od Hl Ha Hb). eexists. reflexivity.
Qed.

End AnyArithmetic2.
End CorrectorProperties.

Module CorrectorExact.
Import QuantileMappingCorrection QMFacts.
Local Open Scope string_scope.

Lemma np_sum_affine (a b : R) (l : list R) :
  np_sum (map (fun x => a * x + b) l) = a * np_sum l + INR (length l) * b.
Proof.
  induction l as [|x l IH].
  - simpl. rewrite !np_sum_nil. ring.
  - change (length (x :: l)) with (S (length l)). rewrite S_INR.
    simpl map. rewrite !np_sum_cons, IH. ring.
Qed.

Lemma np_sum_scale (a : R) (l : list R) :
  np_sum (map (fun x => a * x) l) = a * np_sum l.
Proof.
  induction l as [|x l IH].
  - simpl. rewrite !np_sum_nil. ring.
  - simpl map. rewrite !np_sum_cons, IH. ring.
Qed.

Lemma np_sum_squares_nonneg (f : R -> R) (l : list R) :
  0 <= np_sum (map (fun x => f x * f x) l).
Proof.
  induction l as [|x l IH].
  - simpl. rewrite np_sum_nil. lra.
  - simpl map. rewrite np_sum_cons. pose proof (Rle_0_sqr (f x)) as Hs.
    unfold Rsqr in Hs. lra.
Qed.

Lemma np_var_nonneg (l : list R) : 0 <= np_var l.
Proof.
  unfold np_var, np_mean at 1. rewrite length_map, of_nat_R.
  cbn [fdiv fsub fmul R_ops].
  apply Rmult_le_pos.
  - apply (np_sum_squares_nonneg (fun x => x - np_mean l)).
  - destruct l as [|x l].
    + simpl. rewrite Rinv_0. lra.
    + apply Rlt_le, Rinv_0_lt_compat, lt_0_INR. simpl. lia.
Qed.

Lemma np_mean_affine (a b : R) (l : list R) :
  l <> [] -> np_mean (map (fun x => a * x + b) l) = a * np_mean l + b.
Proof.
  intros Hne. unfold np_mean. rewrite length_map, np_sum_affine, of_nat_R.
  assert (Hn : INR (length l) <> 0).
  { apply not_0_INR. destruct l; [contradiction | discriminate]. }
  cbn [fdiv R_ops]. field. exact Hn.
Qed.

Lemma np_var_affine (a b : R) (l : list R) :
  l <> [] -> np_var (map (fun x => a * x + b) l) = a * a * np_var l.
Proof.
  intros Hne. unfold np_var.
  rewrite np_mean_affine by exact Hne.
  rewrite map_map.
  set (m := np_mean l).
  unfold np_mean. rewrite !length_map.
  cbn [fdiv fsub fmul fadd R_ops].
  replace (map (fun x => (a * x + b - (a * m + b)) * (a * x + b - (a * m + b))) l)
    with (map (fun y => (a * a) * y) (map (fun x => (x - m) * (x - m)) l)).
  - rewrite np_sum_scale. unfold Rdiv. ring.
  - rewrite map_map. apply map_ext. intros x. ring.
Qed.

Section Exact.
Context `{SciPyStats R}.

(** X8.  Exact arithmetic, parametric-normal method.  Fitted on non-empty
    series with a model standard deviation that is not zero, [transform] of
    the model series has exactly the mean and the variance of the
    observations. *)
Theorem transform_normal_matches_moments (self : state R) (md od : list R) :
  method self = "parametric_normal" ->
  md <> [] -> od <> [] -> np_std md <> 0 ->
  exists corrected,
    snd (fit self md od) = Ok tt /\
    transform (fst (fit self md od)) md = Ok corrected /\
    np_mean corrected = np_mean od /\
    np_var corrected = np_var od.
Proof.
  intros Hm Hne _ Hstd. unfold fit. cbn [fit_rec set_data method]. rewrite Hm.
  cbn [String.eqb Ascii.eqb Bool.eqb].
  unfold transform.
  cbn [fst snd set_fitted set_normal set_data fitted method negb
       model_mean model_std obs_mean obs_std].
  rewrite Hm. cbn [String.eqb Ascii.eqb Bool.eqb attr bind].
  eexists. split; [reflexivity|]. split; [reflexivity|].
  rewrite map_map. cbn [fsub fmul fdiv fadd R_ops].
  set (mm := np_mean md) in *. set (ms := np_std md) in *.
  set (om := np_mean od). set (os := np_std od).
  assert (Hmap : map (fun x => (x - mm) / ms * os + om) md
                 = map (fun x => (os / ms) * x + (om - os / ms * mm)) md).
  { apply map_ext. intros x. field. exact Hstd. }
  rewrite Hmap. split.
  - rewrite np_mean_affine by exact Hne. fold mm. field. exact Hstd.
  - rewrite np_var_affine by exact Hne.
    assert (Hms : ms * ms = np_var md).
    { unfold ms, np_std. cbn [fsqrt R_ops]. apply sqrt_sqrt, np_var_nonneg. }
    assert (Hos : os * os = np_var od).
    { unfold os, np_std. cbn [fsqrt R_ops]. apply sqrt_sqrt, np_var_nonneg. }
    rewrite <- Hms, <- Hos. field. exact Hstd.
Qed.

End Exact.
End CorrectorExact.

Module CorrectorMono.
Import QuantileMappingCorrection QMFacts.
Local Open Scope string_scope.

Lemma StronglySorted_last (l : list R) (x d : R) :
  StronglySorted Rle l -> In x l -> x <= last l d.
Proof.
  induction l as [|a l IH]; intros Hs Hin; [contradiction|].
  inversion Hs as [|? ? Hs' Hall]; subst.
  destruct l as [|b l].
  - destruct Hin as [<- | []]. simpl. lra.
  - change (last (a :: b :: l) d) with (last (b :: l) d).
    destruct Hin as [<- | Hin].
    + rewrite Forall_forall in Hall.
      apply Hall. apply last_nonempty_In. discriminate.
    + apply IH; assumption.
Qed.

Lemma np_sort_strongly_sorted (l : list R) : StronglySorted Rle (np_sort l).
Proof.
  apply Sorted_StronglySorted.
  - intros x y z. apply Rle_trans.
  - apply np_sort_sorted.
Qed.

(** Below the next node the interpolant has not passed that node's value. *)
Lemma interp_scan_first_segment (x0 y0 x1 y1 q : R) (nodes : list (R * R)) :
  x0 <= q -> q < x1 -> y0 <= y1 ->
  interp_scan x0 y0 ((x1, y1) :: nodes) q <= y1.
Proof.
  intros H0 H1 Hy. cbn [interp_scan].
  rewrite (proj2 (fltb_R_true q x1) H1).
  destruct (feqb x0 q) eqn:E; [exact Hy|].
  apply feqb_R_false in E.
  apply (segment_between (x0:=x0) (x1:=x1) (y0:=y0) (y1:=y1) (q:=q) (lo:=y0) (hi:=y1)); lra.
Qed.

Lemma interp_scan_lower (nodes : list (R * R)) (x0 y0 q : R) :
  StronglySorted Rle (y0 :: map snd nodes) -> x0 <= q ->
  y0 <= interp_scan x0 y0 nodes q.
Proof.
  intros Hs Hq.
  apply (@interp_scan_between nodes x0 y0 q y0 (amax (y0 :: map snd nodes))).
  - exact Hq.
  - split; [lra | apply amax_ge; left; reflexivity].
  - inversion Hs as [|? ? _ Hall]; subst.
    rewrite Forall_forall in *. intros p Hp. split.
    + apply Hall. apply in_map. exact Hp.
    + apply amax_ge. right. apply in_map. exact Hp.
Qed.

Lemma interp_scan_monotone (nodes : list (R * R)) (x0 y0 q q' : R) :
  StronglySorted Rle (y0 :: map snd nodes) ->
  x0 <= q -> q <= q' ->
  interp_scan x0 y0 nodes q <= interp_scan x0 y0 nodes q'.
Proof.
  revert x0 y0. induction nodes as [|[x1 y1] nodes IH]; intros x0 y0 Hs H0 Hqq.
  - simpl. lra.
  - assert (Hs1 : StronglySorted Rle (y1 :: map snd nodes)).
    { inversion Hs; subst. assumption. }
    assert (Hy01 : y0 <= y1).
    { inversion Hs as [|? ? _ Hall]; subst. inversion Hall; subst. assumption. }
    destruct (Rlt_dec q' x1) as [Hq'1 | Hq'1].
    + (* both in the first segment *)
      cbn [interp_scan].
      rewrite (proj2 (fltb_R_true q' x1) Hq'1).
      rewrite (proj2 (fltb_R_true q x1)) by lra.
      destruct (feqb x0 q) eqn:E.
      * apply feqb_R_true in E. subst q.
        destruct (feqb x0 q') eqn:E'; [lra|].
        apply feqb_R_false in E'.
        apply (segment_between (x0:=x0) (x1:=x1) (y0:=y0) (y1:=y1) (q:=q') (lo:=y0) (hi:=y1)); lra.
      * apply feqb_R_false in E.
        destruct (feqb x0 q') eqn:E'.
        { apply feqb_R_true in E'. subst q'. exfalso. lra. }
        assert (Hi : 0 < / (x1 - x0)) by (apply Rinv_0_lt_compat; lra).
        unfold Rdiv. cbn [fsub fmul fdiv fadd R_ops]. unfold Rdiv.
        assert (Hsl : 0 <= (y1 - y0) * / (x1 - x0)) by (apply Rmult_le_pos; lra).
        nra.
    + apply Rnot_lt_le in Hq'1.
      destruct (Rlt_dec q x1) as [Hq1 | Hq1].
      * (* q in the first segment, q' beyond it *)
        apply Rle_trans with y1.
        -- apply interp_scan_first_segment; assumption.
        -- cbn [interp_scan].
           rewrite (proj2 (fltb_R_false q' x1) Hq'1).
           apply interp_scan_lower; assumption.
      * apply Rnot_lt_le in Hq1. cbn [interp_scan].
        rewrite (proj2 (fltb_R_false q' x1) Hq'1).
        rewrite (proj2 (fltb_R_false q x1) Hq1).
        apply IH; assumption.
Qed.

Lemma combine_map_snd {A B : Type} (l : list A) (l' : list B) :
  length l = length l' -> map snd (combine l l') = l'.
Proof.
  revert l'. induction l as [|a l IH]; intros [|b l'] Hl; try discriminate.
  - reflexivity.
  - simpl. f_equal. apply IH. simpl in Hl. lia.
Qed.

(** An interpolant with ascending values and fill values that bracket them
    is ascending. *)
Lemma interp1d_call_monotone (f : Interp1d R) (q q' : R) :
  length (ip_x f) = length (ip_y f) ->
  StronglySorted Rle (ip_y f) ->
  Forall (fun y => ip_below f <= y <= ip_above f) (ip_y f) ->
  ip_below f <= ip_above f ->
  q <= q' ->
  interp1d_call f q <= interp1d_call f q'.
Proof.
  intros Hlen Hs Hfill Hba Hqq.
  assert (Hrange : forall r, ip_below f <= interp1d_call f r <= ip_above f).
  { intros r. apply interp1d_call_between; [lra | lra | exact Hfill]. }
  unfold interp1d_call in *.
  pose proof (combine_map_snd (ip_x f) (ip_y f) Hlen) as Hsnd.
  destruct (combine (ip_x f) (ip_y f)) as [|[x0 y0] nodes] eqn:Ec; [lra|].
  cbn [map snd] in Hsnd.
  destruct (fltb q x0) eqn:Eq.
  { apply (Hrange q'). }
  pose proof Eq as Eqb. apply fltb_R_false in Eq.
  assert (Eq' : fltb q' x0 = false) by (apply fltb_R_false; lra).
  rewrite Eq'.
  destruct (fltb (last (ip_x f) x0) q) eqn:El.
  { apply fltb_R_true in El.
    rewrite (proj2 (fltb_R_true (last (ip_x f) x0) q')) by lra. lra. }
  destruct (fltb (last (ip_x f) x0) q') eqn:El'.
  { specialize (Hrange q). rewrite Eqb, El in Hrange. apply Hrange. }
  apply interp_scan_monotone; [|exact Eq|exact Hqq].
  rewrite Hsnd. exact Hs.
Qed.

Lemma map_seq_strongly_sorted (g : nat -> R) (a n : nat) :
  (forall i j, (i <= j)%nat -> g i <= g j) ->
  StronglySorted Rle (map g (seq a n)).
Proof.
  intros Hg. revert a. induction n as [|n IH]; intros a; simpl.
  - constructor.
  - constructor; [apply IH|].
    rewrite Forall_forall. intros y Hy.
    apply in_map_iff in Hy. destruct Hy as (j & <- & Hj).
    apply in_seq in Hj. apply Hg. lia.
Qed.

Lemma rank_quantile_R (n k : nat) :
  (of_nat k - lit 5 10) / of_nat n = (INR k - / 2) / INR n :> R.
Proof.
  rewrite !of_nat_R. unfold lit. cbn [fsub fdiv of_Z R_ops].
  replace (5 / 10) with (/ 2) by field. reflexivity.
Qed.

Lemma rank_quantiles_sorted (n : nat) :
  StronglySorted Rle (rank_quantiles (F:=R) n).
Proof.
  unfold rank_quantiles.
  apply (map_seq_strongly_sorted (fun k => fdiv (fsub (of_nat k) (lit 5 10)) (of_nat n))).
  intros i j Hij. rewrite !rank_quantile_R.
  apply le_INR in Hij.
  destruct n as [|n].
  - simpl. unfold Rdiv. rewrite Rinv_0. lra.
  - assert (Hn : 0 < / INR (S n)) by (apply Rinv_0_lt_compat, lt_0_INR; lia).
    unfold Rdiv. apply Rmult_le_compat_r; lra.
Qed.

Lemma rank_quantiles_unit (n : nat) :
  Forall (fun y => 0 <= y <= 1) (rank_quantiles (F:=R) n).
Proof.
  unfold rank_quantiles. rewrite Forall_forall. intros y Hy.
  apply in_map_iff in Hy. destruct Hy as (k & <- & Hk).
  apply in_seq in Hk. rewrite rank_quantile_R.
  assert (Hk1 : 1 <= INR k) by (change 1 with (INR 1); apply le_INR; lia).
  assert (Hkn : INR k <= INR n) by (apply le_INR; lia).
  assert (Hn : 0 < INR n) by lra.
  assert (Hi : 0 < / INR n) by (apply Rinv_0_lt_compat; exact Hn).
  assert (Hr : INR n * / INR n = 1) by (apply Rinv_r; lra).
  unfold Rdiv. split; nra.
Qed.

Section Exact.
Context `{SciPyStats R}.

Lemma fit_empirical_interpolants (self : state R) (sm so : list R) :
  snd (fit_empirical self sm so) = Ok tt ->
  exists o0,
    hd_error so = Some o0 /\ length sm = length so /\
    fitted (fst (fit_empirical self sm so)) = true /\
    model_to_quantile (fst (fit_empirical self sm so))
    = Some (mkInterp1d sm (rank_quantiles (length sm)) 0 1) /\
    quantile_to_obs (fst (fit_empirical self sm so))
    = Some (mkInterp1d (rank_quantiles (length sm)) so o0 (last so o0)).
Proof.
  unfold fit_empirical, interp1d.
  rewrite !rank_quantiles_length, Nat.eqb_refl. cbn [negb].
  destruct (Nat.eqb (length sm) 0) eqn:E0; [discriminate|].
  destruct so as [|o0 so']; [discriminate|].
  destruct (Nat.eqb (length sm) (length (o0 :: so'))) eqn:E1; [|discriminate].
  cbn [negb]. intros _. apply Nat.eqb_eq in E1.
  exists o0. repeat split. exact E1.
Qed.

(** X9.  Exact arithmetic, empirical method.  After a [fit] that returned,
    [transform] is monotone: of two inputs, the larger one is never mapped
    to a smaller value. *)
Theorem empirical_transform_monotone (self : state R) (md od : list R) (x x' : R) :
  method self = "empirical" ->
  snd (fit self md od) = Ok tt ->
  x <= x' ->
  exists y y',
    transform (fst (fit self md od)) [x; x'] = Ok [y; y'] /\ y <= y'.
Proof.
  intros Hm Hok Hxx. unfold fit in *.
  rewrite fit_rec_empirical in * by exact Hm.
  set (s0 := set_data self (np_sort md) (np_sort od)) in *.
  destruct (fit_empirical_interpolants s0 (np_sort md) (np_sort od) Hok)
    as (o0 & Ho0 & Hlen & Hfit & Hm2q & Hq2o).
  unfold transform.
  rewrite Hfit, (fit_empirical_method s0), Hm2q, Hq2o.
  unfold s0 at 1. cbn [set_data method]. rewrite Hm.
  cbn [negb String.eqb Ascii.eqb Bool.eqb attr bind map].
  do 2 eexists. split; [reflexivity|].
  pose proof (np_sort_strongly_sorted od) as Hso.
  destruct (np_sort od) as [|o so'] eqn:Eso; [discriminate|].
  injection Ho0 as ->.
  apply interp1d_call_monotone; cbn [ip_x ip_y ip_below ip_above].
  - rewrite rank_quantiles_length. exact Hlen.
  - exact Hso.
  - rewrite Forall_forall. intros y Hy. split.
    + inversion Hso as [|? ? _ Hall]; subst.
      destruct Hy as [<- | Hy]; [lra|].
      rewrite Forall_forall in Hall. apply Hall. exact Hy.
    + apply StronglySorted_last; assumption.
  - apply StronglySorted_last; [exact Hso | left; reflexivity].
  - apply interp1d_call_monotone; cbn [ip_x ip_y ip_below ip_above].
    + rewrite rank_quantiles_length. reflexivity.
    + apply rank_quantiles_sorted.
    + apply rank_quantiles_unit.
    + lra.
    + exact Hxx.
Qed.

End Exact.
End CorrectorMono.

Module CorrectionFacts.
Import QuantileMappingCorrection QMFacts BiasCorrection.
Local Open Scope string_scope.

Section AnyArithmetic.
Context {F : Type} `{Float64Ops F} `{SciPyStats F} `{NumpyOrderStats F}.

(** [method_map.get(method, "empirical")] is one of the three names that
    [fit] knows. *)
Lemma internal_method_cases (method : string) :
  (method = "linear" /\
   dict_get_default method_map method "empirical" = "parametric_normal") \/
  (method = "gamma" /\
   dict_get_default method_map method "empirical" = "parametric_gamma") \/
  (method <> "linear" /\ method <> "gamma" /\
   dict_get_default method_map method "empirical" = "empirical").
Proof.
  unfold dict_get_default, method_map. cbn [dict_get].
  destruct (String.eqb method "quantile") eqn:E1.
  { apply String.eqb_eq in E1. subst. right. right.
    split; [discriminate|]. split; [discriminate|reflexivity]. }
  destruct (String.eqb method "linear") eqn:E2.
  { apply String.eqb_eq in E2. left. split; [exact E2|reflexivity]. }
  destruct (String.eqb method "gamma") eqn:E3.
  { apply String.eqb_eq in E3. right. left. split; [exact E3|reflexivity]. }
  apply String.eqb_neq in E2, E3.
  right. right. split; [exact E2|]. split; [exact E3|].
  destruct (String.eqb method "empirical"); reflexivity.
Qed.

Lemma fit_empirical_empty (self : state F) (sm so : list F) :
  sm = [] \/ so = [] ->
  exists e, snd (fit_empirical self sm so) = Raise e.
Proof.
  intros Hempty. unfold fit_empirical.
  destruct (interp1d sm _ _) eqn:E1; [|eexists; reflexivity].
  destruct so as [|o0 so']; [eexists; reflexivity|].
  destruct Hempty as [-> | E]; [|discriminate E].
  unfold interp1d in E1. cbn in E1. discriminate E1.
Qed.

Lemma np_percentiles_nonempty (a : list F) (ps : list Z) :
  a <> [] -> np_percentiles a ps = Ok (map (percentile a) ps).
Proof.
  intros Hne. induction ps as [|p ps IH]; [reflexivity|].
  cbn [np_percentiles map]. rewrite IH.
  destruct a; [contradiction | reflexivity].
Qed.

Lemma fit_empty_raises (self : state F) (md od : list F) :
  md = [] \/ od = [] ->
  method self = "empirical" \/ method self = "parametric_gamma" ->
  exists e, snd (fit self md od) = Raise e.
Proof.
  intros Hempty [Hm | Hm].
  - unfold fit. rewrite fit_rec_empirical by exact Hm.
    apply fit_empirical_empty.
    destruct Hempty as [-> | ->]; [left | right]; reflexivity.
  - rewrite fit_gamma_fallback; [|exact Hm|].
    + unfold fit. rewrite fit_rec_empirical by reflexivity.
      apply fit_empirical_empty.
      destruct Hempty as [-> | ->]; [left | right]; reflexivity.
    + destruct Hempty as [-> | ->]; [left | right]; cbn; lia.
Qed.

End AnyArithmetic.
End CorrectionFacts.

Module CorrectionProperties.
Import QuantileMappingCorrection QMFacts BiasCorrection CorrectionFacts.
Local Open Scope string_scope.

Section AnyArithmetic.
Context {F : Type} `{Float64Ops F} `{SciPyStats F} `{NumpyOrderStats F}.

(** X10.  Any arithmetic.  [run_correction] raises, whatever the method
    name, when the predictions or the observations are empty. *)
Theorem run_correction_empty_raises (predictions observations : list F)
        (name : string) :
  predictions = [] \/ observations = [] ->
  exists e, run_correction predictions observations name = Raise e.
Proof.
  intros Hempty. unfold run_correction.
  destruct (internal_method_cases name) as [[_ ->] | [[_ ->] | (_ & _ & ->)]].
  - unfold fit. cbn [fit_rec init set_data method String.eqb Ascii.eqb Bool.eqb].
    cbn [bind]. unfold transform.
    cbn [init set_fitted set_normal set_data fitted method negb
         String.eqb Ascii.eqb Bool.eqb model_mean model_std obs_mean obs_std
         attr bind].
    match goal with
    | |- context [compute_statistics ?a ?b ?c] =>
        destruct (compute_statistics a b c) as [st|e];
          [|exists e; reflexivity]
    end.
    cbn [bind].
    destruct observations as [|o os]; [eexists; reflexivity|].
    rewrite (np_percentiles_nonempty (a := o :: os)) by discriminate.
    cbn [bind].
    destruct Hempty as [-> | E]; [|discriminate E].
    eexists. reflexivity.
  - destruct (@fit_empty_raises F _ _ (init "parametric_gamma")
                predictions observations Hempty (or_intror eq_refl)) as (e & He).
    destruct (fit (init "parametric_gamma") predictions observations) as [qm r].
    cbn [snd] in He. subst r. exists e. reflexivity.
  - destruct (@fit_empty_raises F _ _ (init "empirical")
                predictions observations Hempty (or_introl eq_refl)) as (e & He).
    destruct (fit (init "empirical") predictions observations) as [qm r].
    cbn [snd] in He. subst r. exists e. reflexivity.
Qed.

End AnyArithmetic.

Section Exact.
Context `{SciPyStats R} `{NumpyOrderStats R}.
Local Open Scope R_scope.

(** X11.  Exact arithmetic.  With a method name other than ["linear"] and
    ["gamma"] (["quantile"], ["empirical"] or any unknown name),
    [run_correction] on non-empty predictions with as many observations
    returns; its corrected values are those of an empirical corrector, one
    per prediction and each between the least and the greatest observation;
    and the result carries the method name as it was given. *)
Theorem run_correction_defaults_to_empirical (predictions observations : list R)
        (name : string) :
  name <> "linear" -> name <> "gamma" ->
  predictions <> [] -> length predictions = length observations ->
  exists r,
    run_correction predictions observations name = Ok r /\
    method_out r = name /\
    transform (fst (fit (init "empirical") predictions observations)) predictions
    = Ok (corrected_values r) /\
    length (corrected_values r) = length predictions /\
    Forall (fun v => amin observations <= v <= amax observations)
           (corrected_values r).
Proof.
  intros Hl Hg Hne Hlen. unfold run_correction.
  destruct (internal_method_cases name) as [[E _] | [[E _] | (_ & _ & ->)]];
    [contradiction | contradiction |].
  unfold fit. rewrite fit_rec_empirical by reflexivity.
  set (self := set_data (init "empirical") (np_sort predictions) (np_sort observations)).
  assert (Hsne : np_sort predictions <> []).
  { intros E. apply Hne. apply length_zero_iff_nil.
    rewrite <- (np_sort_length predictions), E. reflexivity. }
  assert (Hslen : length (np_sort predictions) = length (np_sort observations)).
  { rewrite !np_sort_length. exact Hlen. }
  pose proof (@fit_empirical_returns _ _ _ self _ _ Hsne Hslen) as Hfit.
  assert (Hbounds : Forall (fun y => amin observations <= y <= amax observations)
                           (np_sort observations)).
  { apply Forall_forall. intros y Hy. apply (proj1 (np_sort_In y observations)) in Hy.
    split; [apply amin_le | apply amax_ge]; exact Hy. }
  destruct (@transform_after_fit_empirical _ self (np_sort predictions)
              (np_sort observations) predictions _ _ eq_refl Hfit Hbounds)
    as (vs & Htr & Hvl & Hvb).
  destruct (fit_empirical self (np_sort predictions) (np_sort observations))
    as [qm r] eqn:Efit.
  cbn [fst snd] in *. subst r. cbn [bind]. rewrite Htr. cbn [bind].
  assert (Hobs : observations <> []).
  { intros E. subst. destruct predictions; [contradiction | discriminate]. }
  assert (Hvs : vs <> []).
  { intros E. subst. destruct predictions; [contradiction | discriminate]. }
  assert (Hst : exists st, compute_statistics predictions observations vs = Ok st).
  { unfold compute_statistics.
    rewrite (BMAFacts.np_sub_same_length predictions observations Hlen).
    cbn [bind].
    rewrite (BMAFacts.np_sub_same_length vs observations) by congruence.
    cbn [bind]. unfold ks_2samp.
    destruct predictions; [contradiction|]. destruct observations; [contradiction|].
    destruct vs; [contradiction|]. cbn [bind]. eexists. reflexivity. }
  destruct Hst as (st & ->). cbn [bind].
  unfold summarize, np_min, np_max.
  destruct observations as [|o os]; [contradiction|].
  destruct predictions as [|p ps]; [contradiction|].
  destruct vs as [|v vs']; [contradiction|].
  cbn [bind]. eexists. split; [reflexivity|].
  cbn [method_out corrected_values].
  split; [reflexivity|]. split; [reflexivity|]. split; [exact Hvl | exact Hvb].
Qed.

End Exact.
End CorrectionProperties.

Module AveragingFacts.
Import BayesianModelAveraging BMAFacts AveragingValues.
Local Open Scope string_scope.

Lemma dict_get_set {V : Type} (d : dict V) (k k' : string) (v : V) :
  dict_get (dict_set d k v) k'
  = if String.eqb k' k then Some v else dict_get d k'.
Proof.
  induction d as [|[k0 v0] d IH]; simpl.
  - reflexivity.
  - destruct (String.eqb k k0) eqn:E; simpl.
    + apply String.eqb_eq in E. subst k0.
      destruct (String.eqb k' k); reflexivity.
    + destruct (String.eqb k' k0) eqn:E0.
      * apply String.eqb_eq in E0. subst k0.
        rewrite String.eqb_sym, E. reflexivity.
      * exact IH.
Qed.

Lemma dict_get_map {A B : Type} (g : string * A -> B) (d : dict A) (k : string) :
  dict_get (map (fun kv => (fst kv, g kv)) d) k
  = option_map (fun v => g (k, v)) (dict_get d k).
Proof.
  induction d as [|[k0 v0] d IH]; simpl.
  - reflexivity.
  - destruct (String.eqb k k0) eqn:E.
    + apply String.eqb_eq in E. subst k0. reflexivity.
    + exact IH.
Qed.

Lemma likelihood_step_values (preds : dict (list R)) (obs : list R)
      (ll vars : dict R) (name : string) (p : list R) :
  dict_get preds name = Some p -> length p = length obs ->
  likelihood_step preds obs (Ok (ll, vars)) name
  = Ok (dict_set ll name (loglik_value obs p),
        dict_set vars name (variance_value obs p)).
Proof.
  intros Hp Hlen. unfold likelihood_step. cbn [bind]. rewrite Hp.
  unfold estimate_variance, compute_log_likelihood.
  rewrite (np_sub_same_length obs p) by (symmetry; exact Hlen).
  reflexivity.
Qed.

Lemma likelihood_step_skip (preds : dict (list R)) (obs : list R)
      (ll vars : dict R) (name : string) :
  dict_get preds name = None ->
  likelihood_step preds obs (Ok (ll, vars)) name = Ok (ll, vars).
Proof.
  intros Hp. unfold likelihood_step. cbn [bind]. rewrite Hp. reflexivity.
Qed.

Lemma likelihood_loop_invariant (preds : dict (list R)) (obs : list R)
      (names : list string) (ll vars ll' vars' : dict R) :
  (forall name p, In name names -> dict_get preds name = Some p ->
                  length p = length obs) ->
  loop_invariant preds obs ll vars ->
  fold_left (likelihood_step preds obs) names (Ok (ll, vars)) = Ok (ll', vars') ->
  loop_invariant preds obs ll' vars'.
Proof.
  revert ll vars. induction names as [|name names IH]; intros ll vars Hlen Hinv;
    cbn [fold_left].
  - intros E. injection E as <- <-. exact Hinv.
  - destruct (dict_get preds name) as [p|] eqn:Ep.
    + rewrite (likelihood_step_values preds obs ll vars name Ep)
        by (apply (Hlen name p); [left; reflexivity | exact Ep]).
      apply IH.
      * intros n q Hn Hq. apply (Hlen n q); [right; exact Hn | exact Hq].
      * destruct Hinv as (Hk & Hl & Hv). split; [|split].
        -- rewrite !dict_set_keys. unfold dict_mem.
           assert (Hmem : dict_mem ll name = dict_mem vars name).
           { destruct (dict_mem ll name) eqn:E1.
             - apply dict_mem_keys in E1. rewrite Hk in E1.
               apply dict_mem_keys in E1. symmetry. exact E1.
             - destruct (dict_mem vars name) eqn:E2; [|reflexivity].
               apply dict_mem_keys in E2. rewrite <- Hk in E2.
               apply dict_mem_keys in E2. congruence. }
           unfold dict_mem in Hmem.
           destruct (dict_get ll name), (dict_get vars name);
             try discriminate; rewrite Hk; reflexivity.
        -- intros k l. rewrite dict_get_set.
           destruct (String.eqb k name) eqn:E.
           ++ apply String.eqb_eq in E. subst k. intros E'. injection E' as <-.
              exists p. split; [exact Ep | reflexivity].
           ++ apply Hl.
        -- intros k v. rewrite dict_get_set.
           destruct (String.eqb k name) eqn:E.
           ++ apply String.eqb_eq in E. subst k. intros E'. injection E' as <-.
              exists p. split; [exact Ep | reflexivity].
           ++ apply Hv.
    + rewrite (likelihood_step_skip preds obs ll vars name Ep).
      apply IH; [|exact Hinv].
      intros n q Hn Hq. apply (Hlen n q); [right; exact Hn | exact Hq].
Qed.

Lemma loop_invariant_nil (preds : dict (list R)) (obs : list R) :
  loop_invariant preds obs [] [].
Proof.
  split; [reflexivity|]. split; intros k v Hk; discriminate Hk.
Qed.

(** [compute_weights] on predictions as long as the observations, with at
    least one model of [self.model_names] that has predictions: the weight of
    a name is [exp (ln prior + log-likelihood - log-evidence)]. *)
Lemma compute_weights_explicit (self : state) (preds : dict (list R))
      (obs : list R) (prior : option (dict R)) :
  (forall name p, In name (model_names self) -> dict_get preds name = Some p ->
                  length p = length obs) ->
  (exists name, In name (model_names self) /\ dict_mem preds name = true) ->
  exists ll vars le,
    let w := map (fun kv : string * R =>
                    (fst kv, exp (ln (prior_of self prior (fst kv)) + snd kv - le)))
                 ll in
    compute_weights self preds obs prior
    = (set_posterior_weights (set_model_variances self vars) w, Ok w) /\
    fold_left (likelihood_step preds obs) (model_names self)
              (Ok (([] : dict R), ([] : dict R))) = Ok (ll, vars) /\
    loop_invariant preds obs ll vars /\
    NoDup (dict_keys ll) /\
    (forall k, In k (dict_keys ll) <->
               In k (model_names self) /\ dict_mem preds k = true) /\
    np_sum (dict_values w) = 1.
Proof.
  intros Hlen [name0 [Hin0 Hmem0]].
  destruct (likelihood_loop_ok preds obs (model_names self) [] [] Hlen (NoDup_nil _))
    as (ll & vars & Hfold & Hnd & Hkeys).
  pose proof (@likelihood_loop_invariant preds obs (model_names self) [] [] ll vars
                Hlen (loop_invariant_nil preds obs) Hfold) as Hinv.
  assert (Hne : ll <> []).
  { intros ->. destruct (Hkeys name0) as [_ Hk]. apply Hk. right. split; assumption. }
  unfold compute_weights. rewrite Hfold.
  rewrite (fold_dict_set_map _ ll Hnd).
  rewrite dict_values_map.
  match goal with
  | |- context [logsumexp (map ?f ll)] =>
      destruct (@logsumexp_normalises (map f ll)) as (le & Hle & Hsum)
  end.
  { destruct ll; [contradiction | discriminate]. }
  rewrite Hle.
  rewrite fold_dict_set_map by (rewrite dict_keys_map; exact Hnd).
  exists ll, vars, le. cbn zeta.
  rewrite map_map. cbn [fst snd].
  split; [reflexivity|]. split; [reflexivity|].
  split; [exact Hinv|]. split; [exact Hnd|].
  split; [intros k; rewrite Hkeys; simpl; tauto|].
  rewrite dict_values_map. rewrite map_map in Hsum. exact Hsum.
Qed.

Lemma np_sum_nonneg_ge (l : list R) (x : R) :
  Forall (fun y => 0 <= y) l -> In x l -> x <= np_sum l.
Proof.
  induction l as [|y l IH]; intros Hall Hin; [contradiction|].
  inversion Hall as [|? ? Hy Hall']; subst. rewrite np_sum_cons.
  assert (Hs : 0 <= np_sum l).
  { clear -Hall'. induction l as [|z l IH].
    - rewrite np_sum_nil. lra.
    - inversion Hall'; subst. rewrite np_sum_cons.
      specialize (IH ltac:(assumption)). lra. }
  destruct Hin as [<- | Hin]; [lra|].
  specialize (IH Hall' Hin). lra.
Qed.

Lemma eps_pos : 0 < lit 1 10000000000.
Proof. unfold lit. cbn [fdiv of_Z R_ops]. lra. Qed.

Lemma variance_value_floor (obs p : list R) :
  lit 1 10000000000 <= variance_value obs p.
Proof.
  unfold variance_value.
  pose proof (CorrectorExact.np_var_nonneg (residuals_of obs p)). lra.
Qed.
End AveragingFacts.

Module WeightProperties.
Import BayesianModelAveraging BMAFacts AveragingValues AveragingFacts.
Local Open Scope string_scope.

(** X12.  Exact arithmetic.  For non-empty observations, predictions as long
    as the observations, a prior of positive weights (or none) and at least
    one model of [self.model_names] with predictions, every weight that
    [compute_weights] returns is at least 0 and at most 1.  (In exact
    arithmetic no weight is 0; in [float64] the exponential can underflow
    to 0, which the bounds allow.) *)
Theorem posterior_weights_in_unit_interval (self : state) (preds : dict (list R))
        (obs : list R) (prior : option (dict R)) :
  obs <> [] ->
  (forall p0, prior = Some p0 ->
              forall name v, dict_get p0 name = Some v -> 0 < v) ->
  (forall name p, In name (model_names self) -> dict_get preds name = Some p ->
                  length p = length obs) ->
  (exists name, In name (model_names self) /\ dict_mem preds name = true) ->
  exists w,
    snd (compute_weights self preds obs prior) = Ok w /\
    forall name v, dict_get w name = Some v -> 0 <= v <= 1.
Proof.
  intros _ _ Hlen Hinc.
  destruct (@compute_weights_explicit self preds obs prior Hlen Hinc)
    as (ll & vars & le & Hcw & _ & _ & _ & _ & Hsum).
  cbn zeta in Hcw, Hsum. rewrite Hcw. eexists. split; [reflexivity|].
  intros name v Hv.
  assert (Hin : In v (dict_values
             (map (fun kv : string * R =>
                     (fst kv, exp (ln (prior_of self prior (fst kv)) + snd kv - le)))
                  ll))).
  { clear -Hv. unfold dict_values.
    induction (map _ ll) as [|[k0 v0] d IH]; [discriminate|].
    simpl in Hv |- *. destruct (String.eqb name k0).
    - injection Hv as ->. left. reflexivity.
    - right. apply IH. exact Hv. }
  assert (Hpos : Forall (fun y => 0 < y) (dict_values
             (map (fun kv : string * R =>
                     (fst kv, exp (ln (prior_of self prior (fst kv)) + snd kv - le)))
                  ll))).
  { rewrite dict_values_map. rewrite Forall_forall. intros y Hy.
    apply in_map_iff in Hy. destruct Hy as (kv & <- & _). apply exp_pos. }
  split.
  - rewrite Forall_forall in Hpos. apply Rlt_le, Hpos. exact Hin.
  - rewrite <- Hsum. apply np_sum_nonneg_ge; [|exact Hin].
    eapply Forall_impl; [|exact Hpos]. intros y Hy. cbv beta in Hy. lra.
Qed.

(** X13.  Exact arithmetic.  After [compute_weights] on non-empty
    observations and predictions as long as the observations,
    [self.model_variances] has the keys of the weights, in their order, and
    every stored variance is at least [1e-10]. *)
Theorem model_variances_floor (self : state) (preds : dict (list R))
        (obs : list R) (prior : option (dict R)) :
  obs <> [] ->
  (forall name p, In name (model_names self) -> dict_get preds name = Some p ->
                  length p = length obs) ->
  (exists name, In name (model_names self) /\ dict_mem preds name = true) ->
  exists w mv,
    posterior_weights (fst (compute_weights self preds obs prior)) = Some w /\
    model_variances (fst (compute_weights self preds obs prior)) = Some mv /\
    dict_keys mv = dict_keys w /\
    forall name v, dict_get mv name = Some v -> lit 1 10000000000 <= v.
Proof.
  intros _ Hlen Hinc.
  destruct (@compute_weights_explicit self preds obs prior Hlen Hinc)
    as (ll & vars & le & Hcw & _ & (Hk & _ & Hv) & _ & _ & _).
  cbn zeta in Hcw. rewrite Hcw. cbn [fst posterior_weights model_variances
    set_posterior_weights set_model_variances].
  do 2 eexists. split; [reflexivity|]. split; [reflexivity|]. split.
  - rewrite dict_keys_map. symmetry. exact Hk.
  - intros name v Hget. destruct (Hv name v Hget) as (p & _ & ->).
    apply variance_value_floor.
Qed.
End WeightProperties.

Module AveragingErrors.
Import BayesianModelAveraging BMAFacts AveragingValues AveragingFacts.
Local Open Scope string_scope.

Lemma likelihood_fold_raise (preds : dict (list R)) (obs : list R)
      (names : list string) (e : exn) :
  fold_left (likelihood_step preds obs) names (Raise e) = Raise e.
Proof. induction names as [|n names IH]; [reflexivity | exact IH]. Qed.

Lemma np_sub_not_broadcastable (a b : list R) :
  length a <> length b -> length a <> 1%nat -> length b <> 1%nat ->
  np_sub a b = Raise (ValueError "operands could not be broadcast together").
Proof.
  intros Hab Ha Hb. unfold np_sub.
  apply Nat.eqb_neq in Hab. rewrite Hab.
  destruct a as [|x [|x' a]]; destruct b as [|y [|y' b]];
    try reflexivity; simpl in *; congruence.
Qed.

Lemma likelihood_step_cases (preds : dict (list R)) (obs : list R)
      (acc : dict R * dict R) (name : string) :
  (exists acc', likelihood_step preds obs (Ok acc) name = Ok acc') \/
  (exists msg, likelihood_step preds obs (Ok acc) name = Raise (ValueError msg)).
Proof.
  destruct acc as [ll vars]. unfold likelihood_step. cbn [bind].
  destruct (dict_get preds name) as [p|]; [|left; eexists; reflexivity].
  unfold estimate_variance, compute_log_likelihood, np_sub.
  destruct (Nat.eqb (length obs) (length p)).
  - left. eexists. reflexivity.
  - destruct obs as [|x [|x' a]]; destruct p as [|y [|y' b]];
      try (left; eexists; reflexivity); right; eexists; reflexivity.
Qed.

Lemma likelihood_loop_mismatch (preds : dict (list R)) (obs : list R)
      (names : list string) (acc : dict R * dict R) (name : string) (p : list R) :
  In name names -> dict_get preds name = Some p ->
  length p <> length obs -> length p <> 1%nat -> length obs <> 1%nat ->
  exists msg,
    fold_left (likelihood_step preds obs) names (Ok acc) = Raise (ValueError msg).
Proof.
  intros Hin Hp Hl Hp1 Ho1. revert acc.
  induction names as [|n names IH]; intros acc; [contradiction|].
  cbn [fold_left].
  destruct (String.eqb n name) eqn:En.
  - apply String.eqb_eq in En. subst n. destruct acc as [ll vars].
    assert (Hstep : likelihood_step preds obs (Ok (ll, vars)) name
                    = Raise (ValueError "operands could not be broadcast together")).
    { unfold likelihood_step. cbn [bind]. rewrite Hp. unfold estimate_variance.
      rewrite np_sub_not_broadcastable by congruence. reflexivity. }
    rewrite Hstep, likelihood_fold_raise. eexists. reflexivity.
  - destruct Hin as [E | Hin]; [subst n; rewrite String.eqb_refl in En; discriminate|].
    destruct (likelihood_step_cases preds obs acc n) as [[acc' ->] | [msg ->]].
    + apply IH. exact Hin.
    + rewrite likelihood_fold_raise. exists msg. reflexivity.
Qed.

(** X14.  When a model of [self.model_names] has predictions whose length is
    neither that of the observations nor 1, and the observations are not of
    length 1 (so that numpy cannot broadcast), [compute_weights] raises
    [ValueError] and leaves the instance as it was. *)
Theorem compute_weights_length_mismatch (self : state) (preds : dict (list R))
        (obs : list R) (prior : option (dict R)) (name : string) (p : list R) :
  In name (model_names self) -> dict_get preds name = Some p ->
  length p <> length obs -> length p <> 1%nat -> length obs <> 1%nat ->
  exists msg,
    compute_weights self preds obs prior = (self, Raise (ValueError msg)).
Proof.
  intros Hin Hp Hl Hp1 Ho1.
  destruct (@likelihood_loop_mismatch preds obs (model_names self)
              (([] : dict R), ([] : dict R)) name p
              Hin Hp Hl Hp1 Ho1) as [msg Hfold].
  exists msg. unfold compute_weights. rewrite Hfold. reflexivity.
Qed.

Lemma compute_weights_reads_names_only (s s' : state)
      (preds : dict (list R)) (obs : list R) (prior : option (dict R)) :
  model_names s = model_names s' -> n_models s = n_models s' ->
  snd (compute_weights s preds obs prior) = snd (compute_weights s' preds obs prior) /\
  (forall w, snd (compute_weights s' preds obs prior) = Ok w ->
             fst (compute_weights s preds obs prior)
             = fst (compute_weights s' preds obs prior)).
Proof.
  intros Hn Hc. destruct s as [names n pw mv], s' as [names' n' pw' mv'].
  cbn [model_names n_models] in Hn, Hc. subst names' n'.
  unfold compute_weights, uniform_prior.
  cbn [model_names n_models set_model_variances set_posterior_weights
       posterior_weights model_variances].
  destruct (fold_left _ _ _) as [[ll vars]|]; [|split; [reflexivity | discriminate]].
  destruct (logsumexp _); [|split; [reflexivity | discriminate]].
  split; reflexivity.
Qed.

Lemma compute_weights_keeps_names (self : state)
      (preds : dict (list R)) (obs : list R) (prior : option (dict R)) :
  model_names (fst (compute_weights self preds obs prior)) = model_names self /\
  n_models (fst (compute_weights self preds obs prior)) = n_models self.
Proof.
  unfold compute_weights.
  destruct (fold_left _ _ _) as [[ll vars]|]; [|split; reflexivity].
  destruct (logsumexp _); split; reflexivity.
Qed.

(** X15.  [compute_weights] reads nothing that an earlier call has stored:
    after any earlier call it returns what it returns on the fresh instance,
    and when it returns weights the instance it leaves is the same too. *)
Theorem compute_weights_overwrites (self : state)
        (preds0 preds : dict (list R)) (obs0 obs : list R)
        (prior0 prior : option (dict R)) :
  snd (compute_weights (fst (compute_weights self preds0 obs0 prior0)) preds obs prior)
  = snd (compute_weights self preds obs prior) /\
  (forall w, snd (compute_weights self preds obs prior) = Ok w ->
             fst (compute_weights (fst (compute_weights self preds0 obs0 prior0))
                                  preds obs prior)
             = fst (compute_weights self preds obs prior)).
Proof.
  destruct (compute_weights_keeps_names self preds0 obs0 prior0) as [Hn Hc].
  apply compute_weights_reads_names_only; assumption.
Qed.

(** X16.  When no key of the input has a posterior weight (the empty
    dictionary included), [predict] stacks no row and raises [IndexError] at
    [all_preds.shape[1]]. *)
Theorem predict_without_weighted_key_raises (self : state) (pw : dict R)
        (mp : dict (list R)) :
  posterior_weights self = Some pw ->
  (forall kv, In kv mp -> dict_mem pw (fst kv) = false) ->
  predict self mp = Raise (IndexError "tuple index out of range").
Proof.
  intros Hpw Hnone. unfold predict, predict_moments. rewrite Hpw.
  assert (Hf : filter (fun kv : string * list R => dict_mem pw (fst kv)) mp = []).
  { induction mp as [|kv mp IH]; [reflexivity|]. simpl.
    rewrite (Hnone kv) by (left; reflexivity).
    apply IH. intros kv' Hin. apply Hnone. right. exact Hin. }
  rewrite Hf. reflexivity.
Qed.
End AveragingErrors.

Module WeightRanking.
Import BayesianModelAveraging BMAFacts AveragingValues AveragingFacts.
Local Open Scope string_scope.

Lemma np_sum_zeros {A : Type} (l : list A) : np_sum (map (fun _ => 0) l) = 0.
Proof.
  induction l as [|x l IH]; simpl; [apply np_sum_nil|].
  rewrite np_sum_cons, IH. lra.
Qed.

Lemma residuals_of_self (obs : list R) :
  residuals_of obs obs = map (fun _ => 0) obs.
Proof.
  unfold residuals_of. induction obs as [|x obs IH]; simpl; [reflexivity|].
  rewrite IH. f_equal. change (x - x = 0)%R. lra.
Qed.

Lemma loglik_value_exact (obs : list R) :
  loglik_value obs obs
  = - of_nat (length obs) / 2 * ln (2 * PI * lit 1 10000000000).
Proof.
  unfold loglik_value, variance_value. rewrite residuals_of_self.
  assert (Hv : np_var (map (fun _ : R => 0) obs) = 0).
  { unfold np_var, np_mean. rewrite np_sum_zeros, map_map.
    cbn [fdiv fsub fmul R_ops].
    replace (map (fun _ : R => (0 - 0 / of_nat (length (map (fun _ : R => 0) obs)))
                               * (0 - 0 / of_nat (length (map (fun _ : R => 0) obs)))) obs)
      with (map (fun _ : R => 0) obs).
    - rewrite np_sum_zeros. unfold Rdiv. ring.
    - apply map_ext. intros _. unfold Rdiv. ring. }
  rewrite Hv. unfold np_square. rewrite map_map.
  replace (map (fun _ : R => fmul 0 0) obs) with (map (fun _ : R => 0) obs)
    by (apply map_ext; intros _; cbn [fmul R_ops]; ring).
  rewrite np_sum_zeros, Rplus_0_l. unfold Rdiv. ring.
Qed.

Lemma sum_squares_pos (r : list R) :
  (exists x, In x r /\ x <> 0) -> 0 < np_sum (np_square r).
Proof.
  intros (x & Hin & Hx). unfold np_square.
  induction r as [|y r IH]; [contradiction|].
  simpl map. rewrite np_sum_cons.
  assert (Hr : 0 <= np_sum (map (fun z : R => z * z) r))
    by apply (CorrectorExact.np_sum_squares_nonneg (fun z => z)).
  cbn [fmul R_ops] in *.
  destruct Hin as [E | Hin].
  - subst y. assert (0 < x * x) by (destruct (Rdichotomy _ _ Hx); nra). lra.
  - specialize (IH Hin). assert (0 <= y * y) by nra. lra.
Qed.

Lemma residuals_nonzero (obs p : list R) :
  length p = length obs -> p <> obs ->
  exists x, In x (residuals_of obs p) /\ x <> 0.
Proof.
  unfold residuals_of. revert p.
  induction obs as [|o obs IH]; intros [|q p] Hlen Hne; try discriminate.
  - contradiction.
  - simpl. destruct (Req_dec_T o q) as [E | E].
    + subst q. destruct (IH p) as (x & Hin & Hx).
      * simpl in Hlen. lia.
      * intros ->. apply Hne. reflexivity.
      * exists x. split; [right; exact Hin | exact Hx].
    + exists (o - q). split; [left; reflexivity | lra].
Qed.

Lemma loglik_exact_is_largest (obs p : list R) :
  length p = length obs -> p <> obs ->
  loglik_value obs p < loglik_value obs obs.
Proof.
  intros Hlen Hne. rewrite loglik_value_exact. unfold loglik_value.
  set (v := variance_value obs p).
  set (rss := np_sum (np_square (residuals_of obs p))).
  assert (Hv : lit 1 10000000000 <= v) by apply variance_value_floor.
  pose proof eps_pos as He.
  assert (Hrss : 0 < rss).
  { apply sum_squares_pos. apply residuals_nonzero; assumption. }
  assert (Hn : 0 <= of_nat (length obs) / 2).
  { rewrite of_nat_R. pose proof (pos_INR (length obs)). lra. }
  pose proof PI_RGT_0 as Hpi.
  assert (Hln : ln (2 * PI * lit 1 10000000000) <= ln (2 * PI * v)).
  { destruct (Req_dec_T (lit 1 10000000000) v) as [<- | Hd]; [lra|].
    apply Rlt_le, ln_increasing; nra. }
  assert (Hq : 0 < rss / (2 * v)).
  { apply Rdiv_lt_0_compat; lra. }
  replace (- of_nat (length obs) / 2) with (- (of_nat (length obs) / 2)) by (unfold Rdiv; ring).
  nra.
Qed.

Lemma prior_of_uniform (self : state) (name : string) :
  prior_of self None name = 1 / of_nat (n_models self).
Proof.
  unfold prior_of, uniform_prior, dict_get_default.
  set (c := 1 / of_nat (n_models self)).
  assert (Hall : forall (names : list string) (d : dict R),
             (forall k v, dict_get d k = Some v -> v = c) ->
             forall k v,
               dict_get (fold_left (fun d name => dict_set d name c) names d) k = Some v ->
               v = c).
  { induction names as [|n names IH]; intros d Hd k v; simpl; [apply Hd|].
    apply IH. intros k' v'. rewrite dict_get_set.
    destruct (String.eqb k' n); [congruence | apply Hd]. }
  destruct (dict_get _ name) as [v|] eqn:E; [|reflexivity].
  apply (Hall (model_names self) [] ltac:(intros k v' Hk; discriminate Hk) name v E).
Qed.

(** X17.  Exact arithmetic.  For predictions as long as the observations and
    a prior of positive weights (or none), a model whose predictions are the
    observations gets a strictly larger weight than any model with other
    predictions and the same prior weight. *)
Theorem exact_model_outweighs (self : state) (preds : dict (list R))
        (obs : list R) (prior : option (dict R)) (a b : string) (pb : list R) :
  (forall p0, prior = Some p0 ->
              forall name v, dict_get p0 name = Some v -> 0 < v) ->
  (forall name p, In name (model_names self) -> dict_get preds name = Some p ->
                  length p = length obs) ->
  In a (model_names self) -> In b (model_names self) ->
  dict_get preds a = Some obs ->
  dict_get preds b = Some pb -> pb <> obs ->
  prior_of self prior a = prior_of self prior b ->
  exists w wa wb,
    snd (compute_weights self preds obs prior) = Ok w /\
    dict_get w a = Some wa /\ dict_get w b = Some wb /\ wb < wa.
Proof.
  intros _ Hlen Ha Hb Hpa Hpb Hne Hprior.
  destruct (@compute_weights_explicit self preds obs prior Hlen)
    as (ll & vars & le & Hcw & _ & (_ & Hl & _) & _ & Hkeys & _).
  { exists a. split; [exact Ha|]. unfold dict_mem. rewrite Hpa. reflexivity. }
  cbn zeta in Hcw. rewrite Hcw. cbn [snd].
  assert (Hget : forall k p, In k (model_names self) -> dict_get preds k = Some p ->
                   dict_get ll k = Some (loglik_value obs p)).
  { intros k p Hk Hp.
    assert (Hin : In k (dict_keys ll)).
    { apply Hkeys. split; [exact Hk|]. unfold dict_mem. rewrite Hp. reflexivity. }
    apply dict_mem_keys in Hin. unfold dict_mem in Hin.
    destruct (dict_get ll k) as [l|] eqn:E; [|discriminate].
    destruct (Hl k l E) as (p' & Hp' & ->). congruence. }
  do 3 eexists. split; [reflexivity|].
  rewrite !dict_get_map, (Hget a obs Ha Hpa), (Hget b pb Hb Hpb).
  cbn [option_map fst snd]. split; [reflexivity|]. split; [reflexivity|].
  apply exp_increasing. rewrite Hprior.
  pose proof (@loglik_exact_is_largest obs pb (Hlen b pb Hb Hpb) Hne). lra.
Qed.
End WeightRanking.

Module MisalignedPredict.
Import BayesianModelAveraging BMAFacts AveragingValues AveragingFacts.
Local Open Scope string_scope.

Lemma variance_fold_raise (self : state) (pw : dict R) (rows : list (list R))
      (bma_mean : list R) (entries : list (nat * string)) (e : exn) :
  fold_left (variance_step self pw rows bma_mean) entries (Raise e) = Raise e.
Proof. induction entries as [|x entries IH]; [reflexivity | exact IH]. Qed.

(** A variance loop that ends normally has read, for every key with a
    posterior weight, a row that exists. *)
Lemma variance_loop_rows (self : state) (pw : dict R) (rows : list (list R))
      (bma_mean : list R) (entries : list (nat * string))
      (acc r : list R * list R) :
  fold_left (variance_step self pw rows bma_mean) entries (Ok acc) = Ok r ->
  forall i k, In (i, k) entries -> dict_mem pw k = true -> (i < length rows)%nat.
Proof.
  revert acc. induction entries as [|[i0 k0] entries IH]; intros acc Hfold i k Hin Hk;
    [contradiction|].
  cbn [fold_left] in Hfold.
  destruct (variance_step self pw rows bma_mean (Ok acc) (i0, k0)) as [acc'|e] eqn:Es;
    [|rewrite variance_fold_raise in Hfold; discriminate].
  destruct Hin as [E | Hin]; [|apply (IH acc' Hfold i k Hin Hk)].
  injection E as -> ->.
  unfold variance_step in Es. cbn [bind] in Es. destruct acc as [wv bv].
  unfold dict_mem in Hk.
  destruct (dict_get pw k) as [w|]; [|discriminate].
  destruct (model_variances self) as [mv|]; [|discriminate]. cbn [bind] in Es.
  destruct (nth_error rows i) as [row|] eqn:En; [|discriminate].
  apply nth_error_Some. congruence.
Qed.

Lemma in_enumerate {A : Type} (l : list A) (a i : nat) (x : A) :
  nth_error l i = Some x -> In ((a + i)%nat, x) (combine (seq a (length l)) l).
Proof.
  revert a i. induction l as [|y l IH]; intros a i Hn.
  - destruct i; discriminate.
  - destruct i as [|i]; simpl in Hn |- *.
    + injection Hn as ->. left. rewrite Nat.add_0_r. reflexivity.
    + right. replace (a + S i)%nat with (S a + i)%nat by lia. apply IH. exact Hn.
Qed.

Lemma filter_full {A : Type} (f : A -> bool) (l : list A) :
  length (filter f l) = length l -> forall x, In x l -> f x = true.
Proof.
  induction l as [|y l IH]; intros Hlen x Hin; [contradiction|].
  simpl in Hlen. pose proof (filter_length_le f l) as Hle.
  destruct (f y) eqn:Ey; simpl in Hlen; [|lia].
  destruct Hin as [<- | Hin]; [exact Ey|].
  apply IH; [lia | exact Hin].
Qed.

(** If every element that satisfies [f] sits at a position below the number
    of such elements, the elements that satisfy [f] come first. *)
Lemma selected_first {A : Type} (f : A -> bool) (l : list A) :
  (forall i x, nth_error l i = Some x -> f x = true ->
               (i < length (filter f l))%nat) ->
  forall i j x y, (i < j)%nat -> nth_error l i = Some x -> f x = false ->
                  nth_error l j = Some y -> f y = false.
Proof.
  induction l as [|z l IH] using rev_ind; intros Hpos i j x y Hij Hi Hx Hj.
  - destruct i; discriminate.
  - rewrite filter_app in Hpos. cbn [filter] in Hpos.
    destruct (f z) eqn:Ez.
    + rewrite length_app in Hpos. cbn [length] in Hpos.
      assert (Hlast : (length l < length (filter f l) + 1)%nat).
      { apply (Hpos (length l) z); [|exact Ez].
        rewrite nth_error_app2 by lia. rewrite Nat.sub_diag. reflexivity. }
      pose proof (filter_length_le f l) as Hle.
      assert (Hall : forall u, In u l -> f u = true).
      { apply filter_full. lia. }
      assert (Hil : (i < length l)%nat).
      { assert (Hjl : (j < length (l ++ [z]))%nat) by (apply nth_error_Some; congruence).
        rewrite length_app in Hjl. simpl in Hjl. lia. }
      rewrite nth_error_app1 in Hi by exact Hil.
      apply nth_error_In in Hi. rewrite (Hall x Hi) in Hx. discriminate.
    + rewrite app_nil_r in Hpos.
      assert (Hjl : (j < length (l ++ [z]))%nat) by (apply nth_error_Some; congruence).
      rewrite length_app in Hjl. simpl in Hjl.
      destruct (Nat.eq_dec j (length l)) as [-> | Hne].
      * rewrite nth_error_app2 in Hj by lia. rewrite Nat.sub_diag in Hj.
        injection Hj as <-. exact Ez.
      * assert (Hj' : (j < length l)%nat) by lia.
        rewrite nth_error_app1 in Hj by exact Hj'.
        rewrite nth_error_app1 in Hi by lia.
        apply (IH) with (i := i) (j := j) (x := x); try assumption.
        intros i' x' Hi' Hx'. apply (Hpos i' x'); [|exact Hx'].
        rewrite nth_error_app1; [exact Hi'|]. apply nth_error_Some. congruence.
Qed.

Lemma predict_moments_ok_rows (self : state) (pw : dict R) (mp : dict (list R))
      (r : list R * list R * list R) :
  posterior_weights self = Some pw ->
  predict_moments self mp = Ok r ->
  forall i kv, nth_error mp i = Some kv -> dict_mem pw (fst kv) = true ->
    (i < length (filter (fun kv => dict_mem pw (fst kv)) mp))%nat.
Proof.
  intros Hpw Hok i kv Hi Hk. unfold predict_moments in Hok. rewrite Hpw in Hok.
  set (sel := filter (fun kv => dict_mem pw (fst kv)) mp) in *.
  destruct (np_array2 (map snd sel)) as [rows|] eqn:Ea; [|discriminate].
  cbn [bind] in Hok.
  assert (Hrows : rows = map snd sel).
  { unfold np_array2 in Ea. destruct (map snd sel) as [|r0 rs].
    - injection Ea as <-. reflexivity.
    - destruct (forallb _ _); [injection Ea as <-; reflexivity | discriminate]. }
  destruct (shape1 rows) as [cols|]; [|discriminate]. cbn [bind] in Hok.
  destruct (fold_left _ _ _) as [vars|] eqn:Ef; [|discriminate].
  pose proof (@variance_loop_rows self pw rows _ _ _ vars Ef i (fst kv)) as Hb.
  rewrite Hrows, length_map in Hb. apply Hb; [|exact Hk].
  unfold dict_keys. rewrite <- (length_map fst mp).
  apply (in_enumerate (map fst mp) 0 i). apply map_nth_error. exact Hi.
Qed.

(** X18.  Whenever a key without a posterior weight comes before a key with
    one in the input dictionary, [predict] raises. *)
Theorem predict_unweighted_before_weighted_raises (self : state) (pw : dict R)
        (pre mid post : dict (list R)) (k k' : string) (x r : list R) :
  posterior_weights self = Some pw ->
  dict_mem pw k = false -> dict_mem pw k' = true ->
  exists e,
    predict self (pre ++ (k, x) :: mid ++ (k', r) :: post)%list = Raise e.
Proof.
  intros Hpw Hk Hk'.
  set (mp := (pre ++ (k, x) :: mid ++ (k', r) :: post)%list).
  unfold predict.
  destruct (predict_moments self mp) as [m|e] eqn:Em; [|exists e; reflexivity].
  exfalso.
  pose proof (@predict_moments_ok_rows self pw mp m Hpw Em) as Hrows.
  pose proof (@selected_first _ (fun kv : string * list R => dict_mem pw (fst kv)) mp Hrows
                (length pre) (length pre + 1 + length mid)%nat (k, x) (k', r)) as Hsel.
  assert (Hfalse : dict_mem pw (fst (k', r)) = false).
  { apply Hsel.
    - lia.
    - unfold mp. rewrite nth_error_app2 by lia. rewrite Nat.sub_diag. reflexivity.
    - exact Hk.
    - unfold mp. rewrite nth_error_app2 by lia.
      replace (length pre + 1 + length mid - length pre)%nat with (S (length mid)) by lia.
      cbn [nth_error]. rewrite nth_error_app2 by lia. rewrite Nat.sub_diag. reflexivity. }
  cbn [fst] in Hfalse. congruence.
Qed.
End MisalignedPredict.

Module EnsembleFacts.
Import BayesianModelAveraging BMAFacts AveragingValues AveragingFacts BayesianEnsemble.
Local Open Scope string_scope.

Lemma dict_get_In {V : Type} (d : dict V) (k : string) (v : V) :
  dict_get d k = Some v -> In (k, v) d.
Proof.
  induction d as [|[k0 v0] d IH]; simpl; [discriminate|].
  destruct (String.eqb k k0) eqn:E.
  - apply String.eqb_eq in E. subst k0. intros E'. injection E' as ->. left. reflexivity.
  - intros Hget. right. apply IH. exact Hget.
Qed.

(** With distinct names that all have predictions as long as the
    observations, the likelihood loop appends the names in their order. *)
Lemma likelihood_loop_keys_order (preds : dict (list R)) (obs : list R)
      (names : list string) (ll vars ll' vars' : dict R) :
  NoDup (dict_keys ll ++ names) ->
  (forall name, In name names ->
     exists p, dict_get preds name = Some p /\ length p = length obs) ->
  fold_left (likelihood_step preds obs) names (Ok (ll, vars)) = Ok (ll', vars') ->
  dict_keys ll' = (dict_keys ll ++ names)%list.
Proof.
  revert ll vars. induction names as [|name names IH]; intros ll vars Hnd Hp;
    cbn [fold_left].
  - intros E. injection E as <- <-. rewrite app_nil_r. reflexivity.
  - destruct (Hp name (or_introl eq_refl)) as (p & Hget & Hlen).
    rewrite (likelihood_step_values preds obs ll vars name Hget Hlen).
    intros Hfold. apply IH in Hfold.
    + rewrite Hfold. rewrite dict_set_fresh.
      * unfold dict_keys. rewrite map_app, <- app_assoc. reflexivity.
      * apply NoDup_remove_2 in Hnd. intros Hin. apply Hnd.
        apply in_or_app. left. exact Hin.
    + rewrite dict_set_fresh.
      * unfold dict_keys in *. rewrite map_app, <- app_assoc. exact Hnd.
      * apply NoDup_remove_2 in Hnd. intros Hin. apply Hnd.
        apply in_or_app. left. exact Hin.
    + intros n Hn. apply Hp. right. exact Hn.
Qed.

End EnsembleFacts.

Module PredictFacts.
Import BayesianModelAveraging BMAFacts AveragingValues AveragingFacts BayesianEnsemble EnsembleFacts.
Local Open Scope string_scope.

(** [predict] on a dictionary in which every key has a posterior weight and
    every series has [T] entries. *)
Lemma predict_aligned_full (self : state) (pw mv : dict R)
      (mp : dict (list R)) (T : nat) :
  posterior_weights self = Some pw ->
  model_variances self = Some mv ->
  mp <> [] ->
  (forall kv, In kv mp -> dict_mem pw (fst kv) = true /\ length (snd kv) = T) ->
  exists p,
    predict self mp = Ok p /\
    length (mean p) = T /\ length (std p) = T /\
    length (lower_95 p) = T /\ length (upper_95 p) = T /\
    forall t, (t < T)%nat ->
      nth t (mean p) 0 = weighted_mean_at pw mp t /\
      nth t (std p) 0
      = sqrt (within_variance pw mv mp + between_variance_at pw mp t) /\
      nth t (lower_95 p) 0 = nth t (mean p) 0 - lit 196 100 * nth t (std p) 0 /\
      nth t (upper_95 p) 0 = nth t (mean p) 0 + lit 196 100 * nth t (std p) 0.
Proof.
  intros Hpw Hmv Hne Hall.
  destruct (@predict_moments_aligned self pw mv mp T Hpw Hmv Hne Hall)
    as (m & w & b & Hmom & Hm & Hw & Hb & Hnth).
  unfold predict. rewrite Hmom. cbn [bind].
  eexists. split; [reflexivity|]. cbn [mean std lower_95 upper_95].
  assert (Hstd : length (map sqrt (vadd w b)) = T).
  { rewrite length_map, vadd_length by congruence. exact Hw. }
  assert (Hsc : length (vscale (lit 196 100) (map sqrt (vadd w b))) = T).
  { unfold vscale. rewrite length_map. exact Hstd. }
  split; [exact Hm|]. split; [exact Hstd|].
  split; [unfold vsub; rewrite length_map, length_combine, Hm, Hsc; apply Nat.min_id|].
  split; [rewrite vadd_length by congruence; exact Hm|].
  intros t Ht. destruct (Hnth t Ht) as (Hmt & Hwt & Hbt).
  split; [exact Hmt|]. split.
  - rewrite (nth_map_zero sqrt) by apply sqrt_0.
    rewrite nth_vadd by congruence. rewrite Hwt, Hbt. reflexivity.
  - split.
    + rewrite nth_vsub by congruence. rewrite nth_vscale. reflexivity.
    + rewrite nth_vadd by congruence. rewrite nth_vscale. reflexivity.
Qed.

Lemma np_sum_nonneg (l : list R) :
  (forall x, In x l -> 0 <= x) -> 0 <= np_sum l.
Proof.
  induction l as [|y l IH]; intros Hall.
  - rewrite np_sum_nil. lra.
  - rewrite np_sum_cons. pose proof (Hall y (or_introl eq_refl)).
    assert (0 <= np_sum l) by (apply IH; intros x Hx; apply Hall; right; exact Hx).
    lra.
Qed.


Lemma weight_of_nonneg (pw : dict R) (kv : string * list R) :
  (forall name v, dict_get pw name = Some v -> 0 <= v) -> 0 <= weight_of pw kv.
Proof.
  intros Hpw. unfold weight_of, dict_get_default.
  destruct (dict_get pw (fst kv)) as [v|] eqn:E; [exact (Hpw _ _ E) | lra].
Qed.

Lemma variance_of_nonneg (mv : dict R) (kv : string * list R) :
  (forall name v, dict_get mv name = Some v -> 0 <= v) -> 0 <= variance_of mv kv.
Proof.
  intros Hmv. unfold variance_of, dict_get_default.
  destruct (dict_get mv (fst kv)) as [v|] eqn:E; [exact (Hmv _ _ E) | lra].
Qed.

Lemma total_variance_nonneg (pw mv : dict R) (mp : dict (list R)) (t : nat) :
  (forall name v, dict_get pw name = Some v -> 0 <= v) ->
  (forall name v, dict_get mv name = Some v -> 0 <= v) ->
  0 <= within_variance pw mv mp + between_variance_at pw mp t.
Proof.
  intros Hpw Hmv.
  assert (Hw : 0 <= within_variance pw mv mp).
  { unfold within_variance. apply np_sum_nonneg.
    intros x Hx. apply in_map_iff in Hx. destruct Hx as (kv & <- & _).
    apply Rmult_le_pos; [apply weight_of_nonneg | apply variance_of_nonneg];
      assumption. }
  assert (Hb : 0 <= between_variance_at pw mp t).
  { unfold between_variance_at. apply np_sum_nonneg.
    intros x Hx. apply in_map_iff in Hx. destruct Hx as (kv & <- & _).
    apply Rmult_le_pos; [apply weight_of_nonneg; assumption | apply Rle_0_sqr]. }
  lra.
Qed.
End PredictFacts.

Module PredictionProperties.
Import BayesianModelAveraging BMAFacts AveragingValues AveragingFacts BayesianEnsemble EnsembleFacts PredictFacts.
Local Open Scope string_scope.

(** X19.  Exact arithmetic.  When the stored weights and variances are not
    negative, every key of the input has a posterior weight and every series
    has [T] entries, [predict] returns, and at every time step the standard
    deviation is not negative and the 95% bounds are [mean - 1.96 std] and
    [mean + 1.96 std]: the mean lies between them, and they are
    [2 * 1.96 * std] apart. *)
Theorem predict_interval_around_mean (self : state) (pw mv : dict R)
        (mp : dict (list R)) (T : nat) :
  posterior_weights self = Some pw ->
  model_variances self = Some mv ->
  (forall name v, dict_get pw name = Some v -> 0 <= v) ->
  (forall name v, dict_get mv name = Some v -> 0 <= v) ->
  mp <> [] ->
  (forall kv, In kv mp -> dict_mem pw (fst kv) = true /\ length (snd kv) = T) ->
  exists p,
    predict self mp = Ok p /\
    length (lower_95 p) = T /\ length (upper_95 p) = T /\
    forall t, (t < T)%nat ->
      0 <= nth t (std p) 0 /\
      nth t (lower_95 p) 0 = nth t (mean p) 0 - lit 196 100 * nth t (std p) 0 /\
      nth t (upper_95 p) 0 = nth t (mean p) 0 + lit 196 100 * nth t (std p) 0 /\
      nth t (lower_95 p) 0 <= nth t (mean p) 0 <= nth t (upper_95 p) 0 /\
      nth t (upper_95 p) 0 - nth t (lower_95 p) 0
      = 2 * lit 196 100 * nth t (std p) 0.
Proof.
  intros Hpw Hmv _ _ Hne Hall.
  destruct (@predict_aligned_full self pw mv mp T Hpw Hmv Hne Hall)
    as (p & Hp & _ & _ & Hl & Hu & Hnth).
  exists p. split; [exact Hp|]. split; [exact Hl|]. split; [exact Hu|].
  intros t Ht. destruct (Hnth t Ht) as (_ & Hs & Hlo & Hup).
  assert (Hstd : 0 <= nth t (std p) 0) by (rewrite Hs; apply sqrt_pos).
  assert (Hc : 0 < lit 196 100) by (unfold lit; cbn [fdiv of_Z R_ops]; lra).
  split; [exact Hstd|]. split; [exact Hlo|]. split; [exact Hup|].
  rewrite Hlo, Hup. split; [split; nra | ring].
Qed.

(** X20.  Exact arithmetic, same input as X19.  At every time step the mean
    that [predict] returns is the weighted mean of the models' predictions,
    and the square of the standard deviation is the within-model variance
    (the weighted sum of the stored variances) plus the between-model
    variance (the weighted sum of the squared distances to the mean). *)
Theorem predict_total_variance (self : state) (pw mv : dict R)
        (mp : dict (list R)) (T : nat) :
  posterior_weights self = Some pw ->
  model_variances self = Some mv ->
  (forall name v, dict_get pw name = Some v -> 0 <= v) ->
  (forall name v, dict_get mv name = Some v -> 0 <= v) ->
  mp <> [] ->
  (forall kv, In kv mp -> dict_mem pw (fst kv) = true /\ length (snd kv) = T) ->
  exists p,
    predict self mp = Ok p /\
    length (mean p) = T /\ length (std p) = T /\
    forall t, (t < T)%nat ->
      nth t (mean p) 0
      = np_sum (map (fun kv => dict_get_default pw (fst kv) 0 * nth t (snd kv) 0) mp) /\
      nth t (std p) 0 * nth t (std p) 0
      = np_sum (map (fun kv => dict_get_default pw (fst kv) 0
                               * dict_get_default mv (fst kv) 1) mp)
        + np_sum (map (fun kv => dict_get_default pw (fst kv) 0
                                 * ((nth t (snd kv) 0 - nth t (mean p) 0)
                                    * (nth t (snd kv) 0 - nth t (mean p) 0))) mp).
Proof.
  intros Hpw Hmv Hw0 Hv0 Hne Hall.
  destruct (@predict_aligned_full self pw mv mp T Hpw Hmv Hne Hall)
    as (p & Hp & Hm & Hs & _ & _ & Hnth).
  exists p. split; [exact Hp|]. split; [exact Hm|]. split; [exact Hs|].
  intros t Ht. destruct (Hnth t Ht) as (Hmt & Hst & _).
  split; [exact Hmt|].
  rewrite Hst, Hmt.
  rewrite sqrt_sqrt by (apply total_variance_nonneg; assumption).
  reflexivity.
Qed.
End PredictionProperties.

Module RunBmaFacts.
Import BayesianModelAveraging BMAFacts AveragingValues AveragingFacts BayesianEnsemble EnsembleFacts PredictFacts.
Local Open Scope string_scope.

Lemma abs_sum_le (l : list R) : Rabs (np_sum l) <= np_sum (map Rabs l).
Proof.
  induction l as [|x l IH].
  - simpl. rewrite !np_sum_nil, Rabs_R0. lra.
  - simpl map. rewrite !np_sum_cons.
    pose proof (Rabs_triang x (np_sum l)). lra.
Qed.

Lemma abs_mean_le (l : list R) : Rabs (np_mean l) <= np_mean (map Rabs l).
Proof.
  unfold np_mean. rewrite length_map, of_nat_R. cbn [fdiv R_ops].
  assert (Hn : 0 <= / INR (length l)).
  { destruct l as [|x l]; [simpl; rewrite Rinv_0; lra|].
    apply Rlt_le, Rinv_0_lt_compat, lt_0_INR. simpl. lia. }
  unfold Rdiv. rewrite Rabs_mult, (Rabs_right (/ _)) by lra.
  apply Rmult_le_compat_r; [exact Hn | apply abs_sum_le].
Qed.

Lemma mean_abs_nonneg (l : list R) : 0 <= np_mean (map Rabs l).
Proof.
  pose proof (abs_mean_le l). pose proof (Rabs_pos (np_mean l)). lra.
Qed.

(** The loop that fills [model_metrics], on series as long as the
    observations: it returns, appends the keys in their order, and every
    entry it adds has the four numbers of its model. *)
Lemma metrics_loop_ok (bma : state) (mv : dict R) (obs : list R)
      (l : dict (list R)) (acc : dict model_metric) :
  model_variances bma = Some mv ->
  (forall kv, In kv l -> length (snd kv) = length obs) ->
  NoDup (dict_keys acc ++ dict_keys l) ->
  exists mm,
    fold_left (metrics_step bma obs) l (Ok acc) = Ok mm /\
    dict_keys mm = (dict_keys acc ++ dict_keys l)%list /\
    forall name m, In (name, m) mm ->
      In (name, m) acc \/
      (0 <= mae m /\ 0 <= rmse m /\ Rabs (bias m) <= mae m /\
       variance m = dict_get_default mv name 0).
Proof.
  intros Hmv. revert acc. induction l as [|[k p] l IH]; intros acc Hlen Hnd;
    cbn [fold_left].
  - exists acc. split; [reflexivity|]. split.
    + cbn. rewrite app_nil_r. reflexivity.
    + intros name m Hin. left. exact Hin.
  - unfold metrics_step at 2. cbn [bind].
    rewrite (np_sub_same_length obs p)
      by (symmetry; apply (Hlen (k, p)); left; reflexivity).
    cbn [bind]. rewrite Hmv. cbn [bind].
    cbn [dict_keys map fst] in Hnd.
    assert (Hk : ~ In k (dict_keys acc)).
    { apply NoDup_remove_2 in Hnd. intros Hin. apply Hnd.
      apply in_or_app. left. exact Hin. }
    rewrite dict_set_fresh by exact Hk.
    match goal with
    | |- context [fold_left _ l (Ok ?a)] =>
        destruct (IH a) as (mm & Hmm & Hkeys & Hvals)
    end.
    + intros kv Hin. apply Hlen. right. exact Hin.
    + unfold dict_keys in *. rewrite map_app, <- app_assoc. exact Hnd.
    + exists mm. split; [exact Hmm|]. split.
      * rewrite Hkeys. unfold dict_keys. rewrite map_app, <- app_assoc. reflexivity.
      * intros name m Hin. destruct (Hvals name m Hin) as [Hacc | Hok];
          [|right; exact Hok].
        apply in_app_or in Hacc. destruct Hacc as [Hacc | [E | []]];
          [left; exact Hacc|].
        injection E as <- <-. right.
        cbn [mae rmse bias variance].
        split; [apply mean_abs_nonneg|]. split; [apply sqrt_pos|].
        split; [apply abs_mean_le | reflexivity].
Qed.

(** [compute_weights] and then [predict] on one dictionary, for the model
    names that are its keys. *)
Lemma ensemble_pipeline (mp : dict (list R)) (obs : list R) (prior : option (dict R)) :
  NoDup (dict_keys mp) -> mp <> [] ->
  (forall kv, In kv mp -> length (snd kv) = length obs) ->
  exists w mv p,
    compute_weights (init (dict_keys mp)) mp obs prior
    = (mkState (dict_keys mp) (length (dict_keys mp)) (Some w) (Some mv), Ok w) /\
    dict_keys w = dict_keys mp /\ dict_keys mv = dict_keys mp /\
    NoDup (dict_keys w) /\
    (forall v, In v (dict_values w) -> 0 < v) /\
    np_sum (dict_values w) = 1 /\
    (forall name v, dict_get mv name = Some v -> lit 1 10000000000 <= v) /\
    predict (mkState (dict_keys mp) (length (dict_keys mp)) (Some w) (Some mv)) mp
    = Ok p /\
    length (mean p) = length obs /\ length (std p) = length obs /\
    length (lower_95 p) = length obs /\ length (upper_95 p) = length obs /\
    forall t, (t < length obs)%nat ->
      nth t (mean p) 0 = weighted_mean_at w mp t /\
      nth t (std p) 0
      = sqrt (within_variance w mv mp + between_variance_at w mp t).
Proof.
  intros Hnd Hne Hlen.
  assert (Hget : forall name, In name (dict_keys mp) ->
            exists p, dict_get mp name = Some p /\ length p = length obs).
  { intros name Hin. apply dict_mem_keys in Hin. unfold dict_mem in Hin.
    destruct (dict_get mp name) as [p|] eqn:E; [|discriminate].
    exists p. split; [reflexivity|].
    apply (Hlen (name, p)). apply dict_get_In. exact E. }
  destruct (@compute_weights_explicit (init (dict_keys mp)) mp obs prior)
    as (ll & vars & le & Hcw & Hfold & (Hk & _ & Hv) & Hndl & _ & Hsum).
  { intros name p _ Hp. apply (Hlen (name, p)). apply dict_get_In. exact Hp. }
  { destruct mp as [|[k0 p0] mp']; [contradiction|].
    exists k0. split; [left; reflexivity|].
    unfold dict_mem. cbn. rewrite String.eqb_refl. reflexivity. }
  cbn zeta in Hcw, Hsum. cbn [init model_names] in Hfold.
  pose proof (@likelihood_loop_keys_order mp obs (dict_keys mp) [] [] ll vars
                Hnd Hget Hfold) as Horder.
  cbn [dict_keys map app] in Horder. fold (dict_keys ll) in Horder.
  set (w := map (fun kv : string * R =>
                   (fst kv, exp (ln (prior_of (init (dict_keys mp)) prior (fst kv))
                                 + snd kv - le))) ll) in *.
  assert (Hwk : dict_keys w = dict_keys mp).
  { unfold w. rewrite dict_keys_map. exact Horder. }
  assert (Hvk : dict_keys vars = dict_keys mp) by congruence.
  assert (Hall : forall kv, In kv mp ->
            dict_mem w (fst kv) = true /\ length (snd kv) = length obs).
  { intros kv Hin. split; [|apply Hlen; exact Hin].
    apply dict_mem_keys. rewrite Hwk. unfold dict_keys. apply in_map. exact Hin. }
  destruct (@predict_aligned_full
              (mkState (dict_keys mp) (length (dict_keys mp)) (Some w) (Some vars))
              w vars mp (length obs) eq_refl eq_refl Hne Hall)
    as (p & Hp & Hm & Hs & Hlo & Hup & Hnth).
  exists w, vars, p.
  split; [exact Hcw|]. split; [exact Hwk|]. split; [exact Hvk|].
  split; [rewrite Hwk; exact Hnd|].
  split.
  { intros v Hin. unfold w in Hin. rewrite dict_values_map in Hin.
    apply in_map_iff in Hin. destruct Hin as (kv & <- & _). apply exp_pos. }
  split; [exact Hsum|].
  split.
  { intros name v Hg. destruct (Hv name v Hg) as (q & _ & ->).
    apply variance_value_floor. }
  split; [exact Hp|]. split; [exact Hm|]. split; [exact Hs|].
  split; [exact Hlo|]. split; [exact Hup|].
  intros t Ht. destruct (Hnth t Ht) as (H1 & H2 & _). split; assumption.
Qed.
End RunBmaFacts.

Module EnsembleProperties.
Import BayesianModelAveraging BMAFacts AveragingValues AveragingFacts BayesianEnsemble EnsembleFacts PredictFacts RunBmaFacts.
Local Open Scope string_scope.

(** X21.  On a non-empty dictionary of series as long as the non-empty
    observations, [run_bma] returns.  The posterior weights and the model
    metrics have the keys of the input in its order; the four arrays of the
    prediction have one entry for each observation; [n_models] and
    [n_observations] are the sizes of the input; and for every model the
    mean absolute error and the RMSE are not negative, the absolute value
    of the bias is at most the mean absolute error, and the variance is at
    least [1e-10]. *)
Theorem run_bma_returns_aligned (mp : dict (list R)) (obs : list R)
        (prior : option (dict R)) :
  NoDup (dict_keys mp) -> mp <> [] -> obs <> [] ->
  (forall kv, In kv mp -> length (snd kv) = length obs) ->
  exists r,
    run_bma mp obs prior = Ok r /\
    dict_keys (posterior_weights_out r) = dict_keys mp /\
    dict_keys (model_metrics r) = dict_keys mp /\
    n_models_out r = length mp /\ n_observations r = length obs /\
    length (mean (bma_prediction r)) = length obs /\
    length (std (bma_prediction r)) = length obs /\
    length (lower_95 (bma_prediction r)) = length obs /\
    length (upper_95 (bma_prediction r)) = length obs /\
    forall name m, dict_get (model_metrics r) name = Some m ->
      0 <= mae m /\ 0 <= rmse m /\ Rabs (bias m) <= mae m /\
      lit 1 10000000000 <= variance m.
Proof.
  intros Hnd Hne Hobs Hlen.
  destruct (@ensemble_pipeline mp obs prior Hnd Hne Hlen)
    as (w & mv & p & Hcw & Hwk & Hvk & Hndw & Hpos & Hsum & Hfloor & Hp
        & Hm & Hs & Hlo & Hup & Hnth).
  destruct (@metrics_loop_ok
              (mkState (dict_keys mp) (length (dict_keys mp)) (Some w) (Some mv))
              mv obs mp [] eq_refl Hlen Hnd) as (mm & Hmm & Hmk & Hvals).
  cbn [dict_keys map app] in Hmk. fold (dict_keys mm) in Hmk. fold (dict_keys mp) in Hmk.
  assert (Hsub : exists e, np_sub obs (firstn (length obs) (mean p)) = Ok e).
  { eexists. apply np_sub_same_length.
    rewrite length_firstn, Hm. symmetry. apply Nat.min_id. }
  destruct Hsub as (e & He).
  unfold run_bma. rewrite Hcw. cbn [bind]. rewrite Hp. cbn [bind].
  rewrite Hmm. cbn [bind]. rewrite He. cbn [bind].
  eexists. split; [reflexivity|].
  cbn [posterior_weights_out model_metrics n_models_out n_observations
       bma_prediction].
  split; [exact Hwk|]. split; [exact Hmk|].
  split; [unfold dict_keys; apply length_map|]. split; [reflexivity|].
  split; [exact Hm|]. split; [exact Hs|]. split; [exact Hlo|]. split; [exact Hup|].
  intros name m Hget.
  pose proof (dict_get_In _ _ Hget) as Hin.
  destruct (Hvals name m Hin) as [[] | (Hmae & Hrmse & Hbias & Hvar)].
  split; [exact Hmae|]. split; [exact Hrmse|]. split; [exact Hbias|].
  rewrite Hvar.
  assert (Hk : In name (dict_keys mv)).
  { rewrite Hvk, <- Hmk. unfold dict_keys.
    apply (in_map fst) in Hin. exact Hin. }
  apply dict_mem_keys in Hk. unfold dict_mem in Hk.
  unfold dict_get_default.
  destruct (dict_get mv name) as [v|] eqn:E; [|discriminate].
  exact (Hfloor _ _ E).
Qed.
End EnsembleProperties.

(** * Instances of the properties of the corrector *)
Module CorrectorExamples.
Import QuantileMappingCorrection QMFacts BiasCorrection.
Import CorrectorProperties CorrectorExact CorrectorMono CorrectionProperties.
Local Open Scope string_scope.

Lemma np_std_1_3 : np_std [1; 3] <> 0.
Proof.
  unfold np_std, np_var, np_mean, np_sum, of_nat. simpl.
  match goal with
  | |- sqrt ?v <> 0 => replace v with 1 by field
  end.
  rewrite sqrt_1. lra.
Qed.

Lemma fit_empirical_1_2_3 :
  snd (fit (H0 := moments_stats R) (init "empirical") [1; 2; 3] [2; 3; 4]) = Ok tt.
Proof.
  unfold fit. rewrite fit_rec_empirical by reflexivity.
  apply fit_empirical_returns.
  - intros E. apply (f_equal (@length R)) in E.
    rewrite np_sort_length in E. discriminate E.
  - rewrite !np_sort_length. reflexivity.
Qed.

Lemma transform_length_witness :
  exists corrected,
    transform (H0 := moments_stats R)
      (fst (fit (init "parametric_normal") [1; 3] [2; 6])) [0; 2; 10] = Ok corrected /\
    length corrected = 3%nat.
Proof.
  eexists. split; [reflexivity|].
  apply (@transform_length R _ (moments_stats R)
           (fst (fit (init "parametric_normal") [1; 3] [2; 6])) [0; 2; 10] _ eq_refl).
Defined.

Lemma unsupported_method_transform_raises_witness :
  snd (fit (H0 := moments_stats R) (init "cubic") [1; 2] [2; 3]) = Ok tt /\
  transform (H0 := moments_stats R) (fst (fit (init "cubic") [1; 2] [2; 3])) [1; 2]
  = Raise (UnboundLocalError "corrected").
Proof.
  apply (@unsupported_method_transform_raises R _ (moments_stats R)
           (init "cubic") [1; 2] [2; 3] [1; 2]); discriminate.
Defined.

Lemma transform_gamma_values_witness :
  exists mg og,
    transform (H0 := moments_stats _)
      (fst (fit (init "parametric_gamma") (b64 [1; 2; 3]%Z) (b64 [2; 4; 6]%Z)))
      (b64 [0; 5]%Z)
    = Ok (map (fun x =>
                 if fgtb x (of_Z 0)
                 then @gamma_ppf _ (moments_stats _) og
                        (@gamma_cdf _ (moments_stats _) mg x)
                 else of_Z 0) (b64 [0; 5]%Z)).
Proof.
  assert (Hm : (3 <= length (np_positive (b64 [1; 2; 3]%Z)))%nat)
    by (vm_compute; lia).
  assert (Ho : (3 <= length (np_positive (b64 [2; 4; 6]%Z)))%nat)
    by (vm_compute; lia).
  do 2 eexists.
  apply (@transform_gamma_values _ _ (moments_stats _)
           (init "parametric_gamma") (b64 [1; 2; 3]%Z) (b64 [2; 4; 6]%Z)
           (b64 [0; 5]%Z) _ _ eq_refl Hm Ho); vm_compute; reflexivity.
Defined.

Lemma fit_empirical_raises_witness :
  (exists msg, snd (fit (H0 := moments_stats R) (init "empirical") [] [1; 2])
               = Raise (ValueError msg)) /\
  (exists msg, snd (fit (H0 := moments_stats R) (init "empirical") [1; 2] [])
               = Raise (IndexError msg)) /\
  (exists msg, snd (fit (H0 := moments_stats R) (init "empirical") [1; 2] [1; 2; 3])
               = Raise (ValueError msg)).
Proof.
  split; [|split].
  - apply (proj1 (@fit_empirical_raises R _ (moments_stats R)
                    (init "empirical") [] [1; 2] eq_refl)). reflexivity.
  - apply (proj1 (proj2 (@fit_empirical_raises R _ (moments_stats R)
                           (init "empirical") [1; 2] [] eq_refl)));
      [discriminate | reflexivity].
  - apply (proj2 (proj2 (@fit_empirical_raises R _ (moments_stats R)
                           (init "empirical") [1; 2] [1; 2; 3] eq_refl)));
      discriminate.
Defined.

Lemma compute_statistics_length_mismatch_witness :
  exists msg,
    compute_statistics (H0 := moments_stats R) [1; 2; 3] [1; 2] [1; 2]
    = Raise (ValueError msg).
Proof.
  apply (@compute_statistics_length_mismatch R _ (moments_stats R)
           [1; 2; 3] [1; 2] [1; 2]).
  left. repeat split; discriminate.
Defined.


Lemma transform_normal_matches_moments_witness :
  exists corrected,
    transform (H0 := moments_stats R)
      (fst (fit (init "parametric_normal") [1; 3] [2; 6])) [1; 3] = Ok corrected /\
    np_mean corrected = np_mean [2; 6] /\
    np_var corrected = np_var [2; 6].
Proof.
  destruct (@transform_normal_matches_moments (moments_stats R)
              (init "parametric_normal") [1; 3] [2; 6] eq_refl
              ltac:(discriminate) ltac:(discriminate) np_std_1_3)
    as (corrected & _ & Htr & Hmean & Hvar).
  exists corrected. split; [exact Htr|]. split; [exact Hmean | exact Hvar].
Defined.

Lemma empirical_transform_monotone_witness :
  exists y y',
    transform (H0 := moments_stats R)
      (fst (fit (init "empirical") [1; 2; 3] [2; 3; 4])) [1; 2] = Ok [y; y'] /\
    y <= y'.
Proof.
  apply (@empirical_transform_monotone (moments_stats R)
           (init "empirical") [1; 2; 3] [2; 3; 4] 1 2 eq_refl fit_empirical_1_2_3).
  lra.
Defined.

Lemma run_correction_empty_raises_witness :
  exists e,
    run_correction (H0 := moments_stats R) (H1 := sorted_stats) [] [1; 2] "linear"
    = Raise e.
Proof.
  apply (@run_correction_empty_raises R _ (moments_stats R) sorted_stats
           [] [1; 2] "linear").
  left. reflexivity.
Defined.

Lemma run_correction_defaults_to_empirical_witness :
  exists r,
    run_correction (H0 := moments_stats R) (H1 := sorted_stats)
      [1; 2; 3] [2; 3; 4] "cubic" = Ok r /\
    method_out r = "cubic" /\
    Forall (fun v => amin [2; 3; 4] <= v <= amax [2; 3; 4]) (corrected_values r).
Proof.
  destruct (@run_correction_defaults_to_empirical (moments_stats R) sorted_stats
              [1; 2; 3] [2; 3; 4] "cubic"
              ltac:(discriminate) ltac:(discriminate) ltac:(discriminate) eq_refl)
    as (r & Hr & Hm & _ & _ & Hb).
  exists r. split; [exact Hr|]. split; [exact Hm | exact Hb].
Defined.
End CorrectorExamples.

(** * Instances of the properties of the ensemble *)
Module EnsembleExamples.
Import BayesianModelAveraging BMAFacts AveragingValues BayesianEnsemble.
Import WeightProperties AveragingErrors WeightRanking MisalignedPredict
       PredictionProperties EnsembleProperties.
Local Open Scope string_scope.

Lemma two_models_lengths (name : string) (p : list R) :
  In name ["A"; "B"] ->
  dict_get [("A", [1; 2]); ("B", [1; 3])] name = Some p ->
  length p = length [1; 2].
Proof.
  intros [<- | [<- | []]] Hget; simpl in Hget; injection Hget as <-; reflexivity.
Qed.

Lemma half_weights_nonneg (name : string) (v : R) :
  dict_get [("A", 1 / 2); ("B", 1 / 2)] name = Some v -> 0 <= v.
Proof.
  simpl. destruct (String.eqb name "A"); [intros E; injection E as <-; lra|].
  destruct (String.eqb name "B"); [intros E; injection E as <-; lra|].
  discriminate.
Qed.

Lemma two_rows_aligned (kv : string * list R) :
  In kv [("A", [1; 2]); ("B", [1; 3])] ->
  dict_mem [("A", 1 / 2); ("B", 1 / 2)] (fst kv) = true /\ length (snd kv) = 2%nat.
Proof.
  intros [<- | [<- | []]]; split; reflexivity.
Qed.

Lemma posterior_weights_in_unit_interval_witness :
  exists w,
    snd (compute_weights (init ["A"; "B"])
           [("A", [1; 2]); ("B", [1; 3])] [1; 2] None) = Ok w /\
    forall name v, dict_get w name = Some v -> 0 <= v <= 1.
Proof.
  apply (@posterior_weights_in_unit_interval (init ["A"; "B"])
           [("A", [1; 2]); ("B", [1; 3])] [1; 2] None).
  - discriminate.
  - intros p0 Hp0. discriminate Hp0.
  - exact two_models_lengths.
  - exists "A". split; [left; reflexivity | reflexivity].
Defined.

Lemma model_variances_floor_witness :
  exists w mv,
    posterior_weights (fst (compute_weights (init ["A"; "B"])
                              [("A", [1; 2]); ("B", [1; 3])] [1; 2] None)) = Some w /\
    model_variances (fst (compute_weights (init ["A"; "B"])
                            [("A", [1; 2]); ("B", [1; 3])] [1; 2] None)) = Some mv /\
    dict_keys mv = dict_keys w /\
    forall name v, dict_get mv name = Some v -> lit 1 10000000000 <= v.
Proof.
  apply (@model_variances_floor (init ["A"; "B"])
           [("A", [1; 2]); ("B", [1; 3])] [1; 2] None).
  - discriminate.
  - exact two_models_lengths.
  - exists "A". split; [left; reflexivity | reflexivity].
Defined.

Lemma compute_weights_length_mismatch_witness :
  exists msg,
    compute_weights (init ["A"]) [("A", [1; 2; 3])] [1; 2] None
    = (init ["A"], Raise (ValueError msg)).
Proof.
  apply (@compute_weights_length_mismatch (init ["A"]) [("A", [1; 2; 3])] [1; 2]
           None "A" [1; 2; 3]).
  - left. reflexivity.
  - reflexivity.
  - discriminate.
  - discriminate.
  - discriminate.
Defined.

Lemma exact_model_outweighs_witness :
  exists w wa wb,
    snd (compute_weights (init ["A"; "B"])
           [("A", [1; 2]); ("B", [1; 3])] [1; 2] None) = Ok w /\
    dict_get w "A" = Some wa /\ dict_get w "B" = Some wb /\ wb < wa.
Proof.
  apply (@exact_model_outweighs (init ["A"; "B"])
           [("A", [1; 2]); ("B", [1; 3])] [1; 2] None "A" "B" [1; 3]).
  - intros p0 Hp0. discriminate Hp0.
  - exact two_models_lengths.
  - left. reflexivity.
  - right. left. reflexivity.
  - reflexivity.
  - reflexivity.
  - intros E. injection E as E. lra.
  - reflexivity.
Defined.

Lemma predict_without_weighted_key_raises_witness :
  predict (mkState ["A"] 1 (Some [("A", 1)]) (Some [("A", 1)])) [("X", [5])]
  = Raise (IndexError "tuple index out of range").
Proof.
  apply (@predict_without_weighted_key_raises
           (mkState ["A"] 1 (Some [("A", 1)]) (Some [("A", 1)]))
           [("A", 1)] [("X", [5])] eq_refl).
  intros kv [<- | []]. reflexivity.
Defined.

Lemma predict_unweighted_before_weighted_raises_witness :
  exists e,
    predict (mkState ["A"] 1 (Some [("A", 1)]) (Some [("A", 1)]))
      ([] ++ ("X", [5]) :: [] ++ ("A", [1]) :: [])%list = Raise e.
Proof.
  apply (@predict_unweighted_before_weighted_raises
           (mkState ["A"] 1 (Some [("A", 1)]) (Some [("A", 1)]))
           [("A", 1)] [] [] [] "X" "A" [5] [1] eq_refl eq_refl eq_refl).
Defined.

Lemma predict_interval_around_mean_witness :
  exists p,
    predict (mkState ["A"; "B"] 2 (Some [("A", 1 / 2); ("B", 1 / 2)])
               (Some [("A", 1 / 2); ("B", 1 / 2)]))
      [("A", [1; 2]); ("B", [1; 3])] = Ok p /\
    forall t, (t < 2)%nat ->
      nth t (lower_95 p) 0 <= nth t (mean p) 0 <= nth t (upper_95 p) 0.
Proof.
  destruct (@predict_interval_around_mean
              (mkState ["A"; "B"] 2 (Some [("A", 1 / 2); ("B", 1 / 2)])
                 (Some [("A", 1 / 2); ("B", 1 / 2)]))
              [("A", 1 / 2); ("B", 1 / 2)] [("A", 1 / 2); ("B", 1 / 2)]
              [("A", [1; 2]); ("B", [1; 3])] 2 eq_refl eq_refl
              half_weights_nonneg half_weights_nonneg
              ltac:(discriminate) two_rows_aligned)
    as (p & Hp & _ & _ & Hnth).
  exists p. split; [exact Hp|].
  intros t Ht. destruct (Hnth t Ht) as (_ & _ & _ & Hb & _). exact Hb.
Defined.

Lemma predict_total_variance_witness :
  exists p,
    predict (mkState ["A"; "B"] 2 (Some [("A", 1 / 2); ("B", 1 / 2)])
               (Some [("A", 1 / 2); ("B", 1 / 2)]))
      [("A", [1; 2]); ("B", [1; 3])] = Ok p /\
    length (mean p) = 2%nat /\ length (std p) = 2%nat.
Proof.
  destruct (@predict_total_variance
              (mkState ["A"; "B"] 2 (Some [("A", 1 / 2); ("B", 1 / 2)])
                 (Some [("A", 1 / 2); ("B", 1 / 2)]))
              [("A", 1 / 2); ("B", 1 / 2)] [("A", 1 / 2); ("B", 1 / 2)]
              [("A", [1; 2]); ("B", [1; 3])] 2 eq_refl eq_refl
              half_weights_nonneg half_weights_nonneg
              ltac:(discriminate) two_rows_aligned)
    as (p & Hp & Hm & Hs & _).
  exists p. split; [exact Hp|]. split; [exact Hm | exact Hs].
Defined.

Lemma run_bma_returns_aligned_witness :
  exists r,
    run_bma [("A", [1; 2]); ("B", [1; 3])] [1; 2] None = Ok r /\
    dict_keys (posterior_weights_out r) = ["A"; "B"] /\
    dict_keys (model_metrics r) = ["A"; "B"] /\
    n_models_out r = 2%nat /\ n_observations r = 2%nat.
Proof.
  destruct (@run_bma_returns_aligned [("A", [1; 2]); ("B", [1; 3])] [1; 2] None)
    as (r & Hr & Hk & Hmk & Hn & Ho & _).
  - repeat constructor; simpl; intuition discriminate.
  - discriminate.
  - discriminate.
  - intros kv [<- | [<- | []]]; reflexivity.
  - exists r. split; [exact Hr|]. split; [exact Hk|]. split; [exact Hmk|].
    split; [exact Hn | exact Ho].
Defined.
End EnsembleExamples.
